(** * GPay Node.js SDK: request signing and response verification

    A shallow embedding of [src/GpayApiClient.node.js] and the properties of
    its signer, verifier, transport shim and result records.

    Layout of the development:
    - [Octets] : what the client uses of Node's [crypto] module (SHA-256,
                 HMAC, base64, the UTF-8 encoding of a string);
    - [Text], [Num] : ECMAScript Number values (IEEE 754 binary64) and the
                 conversions [Number::toString], [parseFloat], [Number];
    - [JS]     : JavaScript values, ordinary objects with their property
                 order, exceptions as an error monad;
    - [Balance] ... [OutstandingTransactions] : the result classes;
    - [Host]   : randomness, clock and network, passed explicitly;
    - [GPay]   : the client, function by function;
    - the definitions the properties are stated with, conformance checks of
      the primitives, and the theorems. *)

From Stdlib Require Import ZArith List String Ascii Bool Lia.
From Stdlib Require Import Permutation Sorted.
From Stdlib Require Import DecimalString.
From Stdlib Require Import Floats.SpecFloat.
Import ListNotations.

Local Open Scope string_scope.
Local Open Scope list_scope.
Local Open Scope Z_scope.

(* ===================================================================== *)
(** ** Octets: what the client uses of Node's [crypto] module            *)
(* ===================================================================== *)

Module Octets.

(** An octet is a [Z] in [0, 256); a 32-bit word is a [Z] in [0, 2^32). *)
Definition octet := Z.
Definition word := Z.

Definition wrap32 (x : Z) : word := x mod 4294967296.
Definition add32 (x y : word) : word := wrap32 (x + y).
Definition rotr (n : Z) (x : word) : word :=
  Z.lor (Z.shiftr x n) (wrap32 (Z.shiftl x (32 - n))).
Definition not32 (x : word) : word := Z.lxor x 4294967295.

Definition Ch (x y z : word) : word :=
  Z.lxor (Z.land x y) (Z.land (not32 x) z).
Definition Maj (x y z : word) : word :=
  Z.lxor (Z.lxor (Z.land x y) (Z.land x z)) (Z.land y z).
Definition bigSigma0 (x : word) : word :=
  Z.lxor (Z.lxor (rotr 2 x) (rotr 13 x)) (rotr 22 x).
Definition bigSigma1 (x : word) : word :=
  Z.lxor (Z.lxor (rotr 6 x) (rotr 11 x)) (rotr 25 x).
Definition smallSigma0 (x : word) : word :=
  Z.lxor (Z.lxor (rotr 7 x) (rotr 18 x)) (Z.shiftr x 3).
Definition smallSigma1 (x : word) : word :=
  Z.lxor (Z.lxor (rotr 17 x) (rotr 19 x)) (Z.shiftr x 10).

(** FIPS 180-4, 4.2.2 and 5.3.3: the round constants are the first 32 bits
    of the fractional parts of the cube roots of the first sixty-four
    primes, the initial chaining words those of the square roots of the
    first eight. *)
Definition primes : list Z :=
  [ 2; 3; 5; 7; 11; 13; 17; 19; 23; 29; 31; 37; 41; 43; 47; 53;
    59; 61; 67; 71; 73; 79; 83; 89; 97; 101; 103; 107; 109; 113; 127; 131;
    137; 139; 149; 151; 157; 163; 167; 173; 179; 181; 191; 193; 197; 199; 211; 223;
    227; 229; 233; 239; 241; 251; 257; 263; 269; 271; 277; 281; 283; 293; 307; 311 ].

(** The integer cube root, one bit at a time from the top. *)
Fixpoint cubeRoot (bits : nat) (acc n : Z) : Z :=
  match bits with
  | O => acc
  | S b =>
      let candidate := acc + 2 ^ Z.of_nat b in
      if candidate * candidate * candidate <=? n then cubeRoot b candidate n
      else cubeRoot b acc n
  end.

Definition roundConstants : list word :=
  map (fun p => wrap32 (cubeRoot 36 0 (p * 2 ^ 96))) primes.

(** The eight chaining words. *)
Record chain := Chain
  { cA : word; cB : word; cC : word; cD : word;
    cE : word; cF : word; cG : word; cH : word }.

Definition fractionOfSquareRoot (p : Z) : word := wrap32 (Z.sqrt (p * 2 ^ 64)).

Definition initialChain : chain :=
  Chain (fractionOfSquareRoot 2) (fractionOfSquareRoot 3)
        (fractionOfSquareRoot 5) (fractionOfSquareRoot 7)
        (fractionOfSquareRoot 11) (fractionOfSquareRoot 13)
        (fractionOfSquareRoot 17) (fractionOfSquareRoot 19).

(** Big-endian octets of a word, and back. *)
Definition octetsOfWord (x : word) : list octet :=
  [ Z.land (Z.shiftr x 24) 255; Z.land (Z.shiftr x 16) 255;
    Z.land (Z.shiftr x 8) 255; Z.land x 255 ].

Fixpoint wordsOfOctets (l : list octet) : list word :=
  match l with
  | a :: b :: c :: d :: rest =>
      (Z.shiftl a 24 + Z.shiftl b 16 + Z.shiftl c 8 + d) :: wordsOfOctets rest
  | _ => []
  end.

(** FIPS 180-4, 5.1.1: one 0x80 octet, zero octets up to 56 mod 64, then
    the bit length on eight octets. *)
Definition padMessage (msg : list octet) : list octet :=
  let len := Z.of_nat (List.length msg) in
  let bits := 8 * len in
  msg ++ [128] ++ repeat 0 (Z.to_nat ((55 - len) mod 64))
      ++ octetsOfWord (wrap32 (Z.shiftr bits 32)) ++ octetsOfWord (wrap32 bits).

(** Message schedule, kept newest first: the list starts as the sixteen
    block words reversed, and grows to sixty-four. *)
Fixpoint extendSchedule (n : nat) (newestFirst : list word) : list word :=
  match n with
  | O => newestFirst
  | S n' =>
      let w := add32 (add32 (smallSigma1 (nth 1 newestFirst 0)) (nth 6 newestFirst 0))
                     (add32 (smallSigma0 (nth 14 newestFirst 0)) (nth 15 newestFirst 0)) in
      extendSchedule n' (w :: newestFirst)
  end.

Definition schedule (block : list word) : list word :=
  rev (extendSchedule 48 (rev block)).

Definition round (c : chain) (kw : word * word) : chain :=
  let '(k, w) := kw in
  let t1 := add32 (add32 (add32 (cH c) (bigSigma1 (cE c)))
                         (add32 (Ch (cE c) (cF c) (cG c)) k)) w in
  let t2 := add32 (bigSigma0 (cA c)) (Maj (cA c) (cB c) (cC c)) in
  Chain (add32 t1 t2) (cA c) (cB c) (cC c) (add32 (cD c) t1) (cE c) (cF c) (cG c).

Definition compress (c : chain) (block : list word) : chain :=
  let r := fold_left round (combine roundConstants (schedule block)) c in
  Chain (add32 (cA c) (cA r)) (add32 (cB c) (cB r))
        (add32 (cC c) (cC r)) (add32 (cD c) (cD r))
        (add32 (cE c) (cE r)) (add32 (cF c) (cF r))
        (add32 (cG c) (cG r)) (add32 (cH c) (cH r)).

(** The padded message cut into blocks of sixteen words. *)
Fixpoint blocks (n : nat) (ws : list word) : list (list word) :=
  match n with
  | O => []
  | S n' =>
      match ws with
      | [] => []
      | _ => firstn 16 ws :: blocks n' (skipn 16 ws)
      end
  end.

Definition octetsOfChain (c : chain) : list octet :=
  octetsOfWord (cA c) ++ octetsOfWord (cB c) ++ octetsOfWord (cC c)
    ++ octetsOfWord (cD c) ++ octetsOfWord (cE c) ++ octetsOfWord (cF c)
    ++ octetsOfWord (cG c) ++ octetsOfWord (cH c).

Definition sha256 (msg : list octet) : list octet :=
  let ws := wordsOfOctets (padMessage msg) in
  octetsOfChain (fold_left compress (blocks (List.length ws) ws) initialChain).

(** RFC 2104 with a 64-octet block. *)
Definition hmacKeyBlock (key : list octet) : list octet :=
  let k := if (64 <? Z.of_nat (List.length key)) then sha256 key else key in
  k ++ repeat 0 (64 - List.length k)%nat.

Definition hmacSha256 (key msg : list octet) : list octet :=
  let k := hmacKeyBlock key in
  sha256 (map (Z.lxor 0x5c) k ++ sha256 (map (Z.lxor 0x36) k ++ msg)).

(** Base64, RFC 4648 alphabet with [=] padding. *)
Definition base64Alphabet : string :=
  "ABCDEFGHIJKLMNOPQRSTUVWXYZabcdefghijklmnopqrstuvwxyz0123456789+/".

Definition base64Char (i : Z) : ascii :=
  match String.get (Z.to_nat i) base64Alphabet with
  | Some c => c
  | None => "="%char
  end.

Fixpoint base64 (l : list octet) : string :=
  match l with
  | [] => EmptyString
  | [a] =>
      String (base64Char (Z.shiftr a 2))
     (String (base64Char (Z.shiftl (Z.land a 3) 4)) "==")
  | [a; b] =>
      String (base64Char (Z.shiftr a 2))
     (String (base64Char (Z.lor (Z.shiftl (Z.land a 3) 4) (Z.shiftr b 4)))
     (String (base64Char (Z.shiftl (Z.land b 15) 2)) "="))
  | a :: b :: c :: rest =>
      String (base64Char (Z.shiftr a 2))
     (String (base64Char (Z.lor (Z.shiftl (Z.land a 3) 4) (Z.shiftr b 4)))
     (String (base64Char (Z.lor (Z.shiftl (Z.land b 15) 2) (Z.shiftr c 6)))
     (String (base64Char (Z.land c 63)) (base64 rest))))
  end.

(** A string is a sequence of code units, one [ascii] per unit (so the
    model covers the units 0..255).  Node encodes a string handed to
    [crypto] as UTF-8: one octet below 0x80, two octets from there on. *)
Definition utf8OfUnit (c : ascii) : list octet :=
  let u := Z.of_N (N_of_ascii c) in
  if u <? 128 then [u]
  else [Z.lor 192 (Z.shiftr u 6); Z.lor 128 (Z.land u 63)].

Fixpoint utf8 (s : string) : list octet :=
  match s with
  | EmptyString => []
  | String c rest => utf8OfUnit c ++ utf8 rest
  end.

Definition hexDigit (i : Z) : ascii :=
  match String.get (Z.to_nat i) "0123456789abcdef" with
  | Some c => c
  | None => "?"%char
  end.

Fixpoint hex (l : list octet) : string :=
  match l with
  | [] => EmptyString
  | a :: rest => String (hexDigit (Z.shiftr a 4)) (String (hexDigit (Z.land a 15)) (hex rest))
  end.

End Octets.

(* ===================================================================== *)
(** ** Text helpers shared by the conversions                            *)
(* ===================================================================== *)

Module Text.

Definition isDigit (c : ascii) : bool :=
  let u := N_of_ascii c in (48 <=? u)%N && (u <=? 57)%N.

Definition digitValue (c : ascii) : Z := Z.of_N (N_of_ascii c) - 48.

(** ECMAScript WhiteSpace and LineTerminator, among the units 0..255. *)
Definition isWhiteSpace (c : ascii) : bool :=
  let u := N_of_ascii c in
  ((9 <=? u)%N && (u <=? 13)%N) || (u =? 32)%N || (u =? 160)%N.

(** The longest prefix of characters satisfying [p], and what follows. *)
Fixpoint span (p : ascii -> bool) (s : string) : string * string :=
  match s with
  | String c rest =>
      if p c then let '(a, b) := span p rest in (String c a, b)
      else (EmptyString, s)
  | EmptyString => (EmptyString, EmptyString)
  end.

Fixpoint dropWhile (p : ascii -> bool) (s : string) : string :=
  match s with
  | String c rest => if p c then dropWhile p rest else s
  | EmptyString => EmptyString
  end.

Definition reverse (s : string) : string :=
  string_of_list_ascii (rev (list_ascii_of_string s)).

Definition trimStart (s : string) : string := dropWhile isWhiteSpace s.
Definition trim (s : string) : string :=
  reverse (dropWhile isWhiteSpace (reverse (trimStart s))).

(** Value of a string of digits in the given base (digits 0-9, a-z, A-Z). *)
Definition digitInBase (base : Z) (c : ascii) : option Z :=
  let u := Z.of_N (N_of_ascii c) in
  let v := if (48 <=? u) && (u <=? 57) then u - 48
           else if (97 <=? u) && (u <=? 122) then u - 87
           else if (65 <=? u) && (u <=? 90) then u - 55
           else base in
  if v <? base then Some v else None.

Fixpoint valueInBase (base : Z) (acc : Z) (s : string) : option Z :=
  match s with
  | EmptyString => Some acc
  | String c rest =>
      match digitInBase base c with
      | Some v => valueInBase base (acc * base + v) rest
      | None => None
      end
  end.

Fixpoint decimalValue (acc : Z) (s : string) : Z :=
  match s with
  | EmptyString => acc
  | String c rest => decimalValue (acc * 10 + digitValue c) rest
  end.

Definition decimal (z : Z) : string :=
  DecimalString.NilZero.string_of_uint (N.to_uint (Z.to_N z)).

Definition zeros (n : Z) : string :=
  string_of_list_ascii (repeat "0"%char (Z.to_nat n)).

Definition len (s : string) : Z := Z.of_nat (String.length s).

Definition take (n : Z) (s : string) : string := String.substring 0 (Z.to_nat n) s.
Definition drop (n : Z) (s : string) : string :=
  String.substring (Z.to_nat n) (String.length s - Z.to_nat n) s.

Definition startsWith (p s : string) : bool := String.prefix p s.

End Text.

(* ===================================================================== *)
(** ** Num: ECMAScript Number values                                     *)
(* ===================================================================== *)

Module Num.
Import Text.

(** A Number is an IEEE 754 binary64 value: 53 bits of precision,
    exponents below 1024, one NaN. *)
Definition Number := spec_float.
Definition prec := 53.
Definition emax := 1024.

Definition NaN : Number := S754_nan.
Definition Infinity (neg : bool) : Number := S754_infinity neg.

Definition sameValue (x y : Number) : bool :=
  match x, y with
  | S754_nan, S754_nan => true
  | S754_zero a, S754_zero b => Bool.eqb a b
  | S754_infinity a, S754_infinity b => Bool.eqb a b
  | S754_finite a m e, S754_finite b n f => Bool.eqb a b && Pos.eqb m n && Z.eqb e f
  | _, _ => false
  end.

(** The Number value for the rational [p / q]: round to nearest, ties to
    even; the division of [SpecFloat] rounds the exact quotient once. *)
Definition roundRatio (neg : bool) (p q : positive) : Number :=
  SFdiv prec emax (S754_finite neg p 0) (S754_finite false q 0).

(** The Number value for [m * 10^e]. *)
Definition ofDecimal (neg : bool) (m : Z) (e : Z) : Number :=
  match m with
  | Zpos p =>
      if 0 <=? e then roundRatio neg (p * Z.to_pos (10 ^ e)) 1
      else roundRatio neg p (Z.to_pos (10 ^ (- e)))
  | _ => S754_zero neg
  end.

(** The Number value for an integer. *)
Definition ofZ (z : Z) : Number := ofDecimal (z <? 0) (Z.abs z) 0.

(** *** Number::toString, radix 10 (ECMA-262, 6.1.6.1.20) *)

(** [n] with [10^(n-1) <= num/den < 10^n]. *)
Definition decimalExponent (num den : Z) : Z :=
  if den <=? num then len (decimal (num / den))
  else 1 - len (decimal ((den + num - 1) / num - 1)).

(** For [k] digits: the integers [s] next to [x / 10^(n - k)] whose
    decimal [s * 10^(n - k)] reads back as [x]; the nearer one first. *)
Definition candidates (x : Number) (num den n k : Z) : option (Z * Z) :=
  let '(P, Q) := if n <=? k then (num * 10 ^ (k - n), den)
                 else (num, den * 10 ^ (n - k)) in
  let lo := P / Q in
  let r := P mod Q in
  let hi := lo + 1 in
  let ok s := sameValue (ofDecimal false s (n - k)) x in
  let normal s := if s =? 10 ^ k then (10 ^ (k - 1), n + 1) else (s, n) in
  let preferHi := match 2 * r ?= Q with
                  | Lt => false
                  | Gt => true
                  | Eq => Z.odd lo
                  end in
  match ok lo, ok hi with
  | true, true => Some (normal (if preferHi then hi else lo))
  | true, false => Some (normal lo)
  | false, true => Some (normal hi)
  | false, false => None
  end.

(** The least [k] that has a candidate; seventeen digits always do. *)
Fixpoint shortest (fuel : nat) (x : Number) (num den n k : Z) : Z * Z * Z :=
  match fuel with
  | O => (num * 10 ^ (k - n) / den, n, k)
  | S fuel' =>
      match candidates x num den n k with
      | Some (s, n') => (s, n', k)
      | None => shortest fuel' x num den n (k + 1)
      end
  end.

Definition exponentSuffix (n : Z) : string :=
  let sign := if n - 1 <? 0 then "-" else "+" in
  ("e" ++ sign ++ decimal (Z.abs (n - 1)))%string.

Definition layout (s n k : Z) : string :=
  let digits := decimal s in
  if (k <=? n) && (n <=? 21) then (digits ++ zeros (n - k))%string
  else if (0 <? n) && (n <=? 21) then (take n digits ++ "." ++ drop n digits)%string
  else if (-6 <? n) && (n <=? 0) then ("0." ++ zeros (- n) ++ digits)%string
  else if k =? 1 then (digits ++ exponentSuffix n)%string
  else (take 1 digits ++ "." ++ drop 1 digits ++ exponentSuffix n)%string.

Definition toStringPositive (m : positive) (e : Z) : string :=
  let '(num, den) := if 0 <=? e then (Zpos m * 2 ^ e, 1) else (Zpos m, 2 ^ (- e)) in
  let n := decimalExponent num den in
  let '(s, n', k) := shortest 17 (S754_finite false m e) num den n 1 in
  layout s n' k.

Definition toString (x : Number) : string :=
  match x with
  | S754_nan => "NaN"
  | S754_zero _ => "0"
  | S754_infinity neg => if neg then "-Infinity" else "Infinity"
  | S754_finite neg m e =>
      ((if neg then "-" else "") ++ toStringPositive m e)%string
  end.

(** *** StrDecimalLiteral (ECMA-262, 7.1.4.1.1) *)

(** The exponent part at the head of [s], when there is a well-formed one:
    its value and what follows it. *)
Definition exponentPart (s : string) : option (Z * string) :=
  match s with
  | String c rest =>
      if (Ascii.eqb c "e" || Ascii.eqb c "E")%bool then
        let '(neg, rest') :=
          match rest with
          | String "-" r => (true, r)
          | String "+" r => (false, r)
          | _ => (false, rest)
          end in
        let '(ds, after) := span isDigit rest' in
        match ds with
        | EmptyString => None
        | _ => Some (if neg then - decimalValue 0 ds else decimalValue 0 ds, after)
        end
      else None
  | EmptyString => None
  end.

(** The longest prefix of [s] that is a StrDecimalLiteral: its Number value
    and the rest of the string; [None] when no prefix is one. *)
Definition strDecimalLiteral (s : string) : option (Number * string) :=
  let '(neg, body) :=
    match s with
    | String "-" r => (true, r)
    | String "+" r => (false, r)
    | _ => (false, s)
    end in
  if startsWith "Infinity" body then Some (Infinity neg, drop 8 body)
  else
    let '(ints, afterInts) := span isDigit body in
    let '(fracs, afterMantissa, wellFormed) :=
      match afterInts with
      | String "." r =>
          let '(fs, after) := span isDigit r in
          match ints, fs with
          | EmptyString, EmptyString => (EmptyString, afterInts, false)
          | _, _ => (fs, after, true)
          end
      | _ => (EmptyString, afterInts, negb (String.eqb ints ""))
      end in
    if wellFormed then
      let '(ex, rest) :=
        match exponentPart afterMantissa with
        | Some (v, after) => (v, after)
        | None => (0, afterMantissa)
        end in
      Some (ofDecimal neg (decimalValue 0 (ints ++ fracs)%string) (ex - len fracs), rest)
    else None.

(** [parseFloat] applied to a string (ECMA-262, 19.2.4). *)
Definition parseFloatString (s : string) : Number :=
  match strDecimalLiteral (trimStart s) with
  | Some (x, _) => x
  | None => NaN
  end.

(** StringToNumber (ECMA-262, 7.1.4.1.1): the whole trimmed string must be
    a numeric literal; the empty string is +0. *)
Definition nonDecimal (base : Z) (digits : string) : Number :=
  match digits with
  | EmptyString => NaN
  | _ => match valueInBase base 0 digits with
         | Some v => ofZ v
         | None => NaN
         end
  end.

Definition stringToNumber (s : string) : Number :=
  let t := trim s in
  match t with
  | EmptyString => S754_zero false
  | String "0" (String c digits) =>
      if (Ascii.eqb c "x" || Ascii.eqb c "X")%bool then nonDecimal 16 digits
      else if (Ascii.eqb c "o" || Ascii.eqb c "O")%bool then nonDecimal 8 digits
      else if (Ascii.eqb c "b" || Ascii.eqb c "B")%bool then nonDecimal 2 digits
      else match strDecimalLiteral t with
           | Some (x, EmptyString) => x
           | _ => NaN
           end
  | _ => match strDecimalLiteral t with
         | Some (x, EmptyString) => x
         | _ => NaN
         end
  end.

Definition isFalsy (x : Number) : bool :=
  match x with
  | S754_nan | S754_zero _ => true
  | _ => false
  end.

End Num.

(* ===================================================================== *)
(** ** JS: values, ordinary objects, exceptions                          *)
(* ===================================================================== *)

Module JS.

(** The values a response body, a parameter map or a header table holds.
    An object is the list of its own enumerable data properties in the
    order [[OwnPropertyKeys]] lists them. *)
#[warnings="-register-all"] Inductive Value :=
| VUndefined
| VNull
| VBoolean (b : bool)
| VNumber (x : Num.Number)
| VString (s : string)
| VArray (elements : list Value)
| VObject (properties : list (string * Value)).

Definition Obj := list (string * Value).

(** *** Exceptions *)

Inductive Exn :=
| Error (message : string)      (* [throw new Error(message)] *)
| TypeError                     (* a property of undefined or null is read,
                                   or an object has no primitive value *)
| SyntaxError                   (* [JSON.parse] on a body that is not JSON *)
| Rejected (reason : string).   (* a rejected promise of the host *)

Definition M (A : Type) : Type := (Exn + A)%type.
Definition ret {A} (a : A) : M A := inr a.
Definition throw {A} (e : Exn) : M A := inl e.
Definition bind {A B} (c : M A) (k : A -> M B) : M B :=
  match c with
  | inl e => inl e
  | inr a => k a
  end.

Declare Scope js_scope.
Delimit Scope js_scope with js.
Notation "x <- c ;; k" := (bind c (fun x => k))
  (at level 61, c at next level, right associativity) : js_scope.
Notation "'check' c ;; k" := (bind c (fun _ => k))
  (at level 61, c at next level, right associativity) : js_scope.
Local Open Scope js_scope.

Fixpoint mapM {A B} (f : A -> M B) (l : list A) : M (list B) :=
  match l with
  | [] => ret []
  | a :: rest => b <- f a ;; bs <- mapM f rest ;; ret (b :: bs)
  end.

(** *** Ordinary objects *)

(** An array index is the canonical decimal form of an integer in
    [0, 2^32 - 1). *)
Definition arrayIndex (k : string) : option Z :=
  match k with
  | EmptyString => None
  | _ =>
      if forallb Text.isDigit (list_ascii_of_string k) then
        let i := Text.decimalValue 0 k in
        if String.eqb (Text.decimal i) k && (i <? 4294967295) then Some i else None
      else None
  end.

Fixpoint lookup (k : string) (o : Obj) : option Value :=
  match o with
  | [] => None
  | (k', v) :: rest => if String.eqb k k' then Some v else lookup k rest
  end.

Fixpoint replace (k : string) (v : Value) (o : Obj) : Obj :=
  match o with
  | [] => []
  | (k', v') :: rest =>
      if String.eqb k k' then (k', v) :: rest else (k', v') :: replace k v rest
  end.

(** A new array-index key goes before the first key that is a greater
    index or is no index at all. *)
Fixpoint insertIndex (i : Z) (k : string) (v : Value) (o : Obj) : Obj :=
  match o with
  | [] => [(k, v)]
  | (k', v') :: rest =>
      match arrayIndex k' with
      | Some j => if i <? j then (k, v) :: o else (k', v') :: insertIndex i k v rest
      | None => (k, v) :: o
      end
  end.

(** CreateDataProperty on an ordinary object: an existing key keeps its
    place; a new array index is placed in ascending numeric order before
    the other keys; any other new key goes last. *)
Definition defineOwn (o : Obj) (k : string) (v : Value) : Obj :=
  match lookup k o with
  | Some _ => replace k v o
  | None =>
      match arrayIndex k with
      | Some i => insertIndex i k v o
      | None => o ++ [(k, v)]
      end
  end.

(** [o[k] = v] on an object whose prototype is Object.prototype: the key
    [__proto__] reaches the inherited setter and creates no own property. *)
Definition assign (o : Obj) (k : string) (v : Value) : Obj :=
  if String.eqb k "__proto__" then o else defineOwn o k v.

(** An object literal [{k1: v1, k2: v2, ...}] (as [JSON.parse] and computed
    keys do, it defines [__proto__] as an own property; the literals of the
    client have no such key). *)
Definition literal (l : list (string * Value)) : Obj :=
  fold_left (fun o kv => defineOwn o (fst kv) (snd kv)) l [].

Definition keys (o : Obj) : list string := map fst o.
Definition values (o : Obj) : list Value := map snd o.
Definition entries (o : Obj) : list (string * Value) := o.

(** [o[k]] on an object. *)
Definition get (o : Obj) (k : string) : Value :=
  match lookup k o with
  | Some v => v
  | None => VUndefined
  end.

(** [v.k] for a property name that no prototype defines (every name the
    client reads: data, error, message, code and the response fields):
    a TypeError on undefined and null, the own property of an object,
    undefined on anything else. *)
Definition getProperty (v : Value) (k : string) : M Value :=
  match v with
  | VUndefined | VNull => throw TypeError
  | VObject o => ret (get o k)
  | _ => ret VUndefined
  end.

(** *** Abstract operations *)

Definition ToBoolean (v : Value) : bool :=
  match v with
  | VUndefined | VNull => false
  | VBoolean b => b
  | VNumber x => negb (Num.isFalsy x)
  | VString s => negb (String.eqb s "")
  | VArray _ | VObject _ => true
  end.

(** [v == null] *)
Definition isNullish (v : Value) : bool :=
  match v with
  | VUndefined | VNull => true
  | _ => false
  end.

(** ToString, as a template literal or a concatenation with a string
    applies it.  An array prints as the join of its elements with [","],
    undefined and null elements as the empty string.  An object prints
    through the inherited [toString]; an own property of that name (never
    a function in these values) leaves it without a primitive value. *)
Fixpoint ToString (v : Value) : M string :=
  match v with
  | VUndefined => ret "undefined"
  | VNull => ret "null"
  | VBoolean b => ret (if b then "true" else "false")
  | VNumber x => ret (Num.toString x)
  | VString s => ret s
  | VArray l =>
      (fix join (l : list Value) : M string :=
         match l with
         | [] => ret ""
         | e :: rest =>
             s <- match e with
                  | VUndefined | VNull => ret ""
                  | _ => ToString e
                  end ;;
             match rest with
             | [] => ret s
             | _ => t <- join rest ;; ret (s ++ "," ++ t)%string
             end
         end) l
  | VObject o =>
      match lookup "toString" o with
      | Some _ => throw TypeError
      | None => ret "[object Object]"
      end
  end.

(** ToNumber, as the call [Number(v)] applies it. *)
Definition ToNumber (v : Value) : M Num.Number :=
  match v with
  | VUndefined => ret Num.NaN
  | VNull => ret (S754_zero false)
  | VBoolean b => ret (if b then Num.ofZ 1 else S754_zero false)
  | VNumber x => ret x
  | VString s => ret (Num.stringToNumber s)
  | VArray _ | VObject _ => s <- ToString v ;; ret (Num.stringToNumber s)
  end.

Definition parseFloat (v : Value) : M Num.Number :=
  s <- ToString v ;; ret (Num.parseFloatString s).

(** [v.toString()] *)
Definition toStringMethod (v : Value) : M string :=
  match v with
  | VUndefined | VNull => throw TypeError
  | _ => ToString v
  end.

(** [a || b] *)
Definition or (a b : Value) : Value := if ToBoolean a then a else b.

(** [a === b] when [a] is a string *)
Definition strictEqString (a : string) (b : Value) : bool :=
  match b with
  | VString s => String.eqb a s
  | _ => false
  end.

(** *** [Array.prototype.sort()] on strings

    The default comparator orders strings by code units; the result of a
    sort under a total order is the one sorted arrangement, computed here
    by insertion. *)
Fixpoint insertSorted (x : string) (l : list string) : list string :=
  match l with
  | [] => [x]
  | y :: rest => if String.leb x y then x :: l else y :: insertSorted x rest
  end.

Definition sort (l : list string) : list string :=
  fold_right insertSorted [] l.

(** *** Date *)

(** [new Date(t)]: the time value is TimeClip(t), an integral number of
    milliseconds of magnitude at most 8.64e15, or NaN. *)
Record Date := NewDate { timeValue : Num.Number }.

Definition TimeClip (t : Num.Number) : Num.Number :=
  match t with
  | S754_finite neg m e =>
      let limit := 8640000000000000 in
      if 0 <=? e then
        if limit <? Zpos m * 2 ^ e then Num.NaN else t
      else if limit * 2 ^ (- e) <? Zpos m then Num.NaN
      else
        let q := Z.shiftr (Zpos m) (- e) in
        if q =? 0 then S754_zero false else Num.ofZ (if neg then - q else q)
  | S754_zero _ => S754_zero false
  | _ => Num.NaN
  end.

(** [new Date(Number(v))] *)
Definition newDate (v : Value) : M Date :=
  t <- ToNumber v ;; ret (NewDate (TimeClip t)).

End JS.

Import JS.
Local Open Scope js_scope.

(* ===================================================================== *)
(** ** The result records (classes at the end of the source file)        *)
(* ===================================================================== *)

Module Balance.
Record t := Build { balance : Num.Number; responseTime : Date }.
Definition new (balance responseTime : Value) : M t :=
  b <- parseFloat balance ;;
  d <- newDate responseTime ;;
  ret (Build b d).
End Balance.

Module PaymentRequest.
Record t := Build
  { requesterUsername : Value; requestId : Value; requestTime : Value;
    amount : Num.Number; referenceNo : Value; responseTime : Date }.
Definition new (requesterUsername requestId requestTime amount referenceNo
                responseTime : Value) : M t :=
  a <- parseFloat amount ;;
  d <- newDate responseTime ;;
  ret (Build requesterUsername requestId requestTime a referenceNo d).
End PaymentRequest.

Module PaymentStatus.
Record t := Build
  { requestId : Value; transactionId : Value; amount : Num.Number;
    paymentTimestamp : Value; referenceNo : Value; description : Value;
    isPaid : Value; responseTime : Date }.
Definition new (requestId transactionId amount paymentTimestamp referenceNo
                description isPaid responseTime : Value) : M t :=
  a <- parseFloat amount ;;
  d <- newDate responseTime ;;
  ret (Build requestId transactionId a paymentTimestamp referenceNo
             description isPaid d).
End PaymentStatus.

Module SendMoneyResult.
Record t := Build
  { amount : Num.Number; senderFee : Num.Number; transactionId : Value;
    oldBalance : Num.Number; newBalance : Num.Number; timestamp : Value;
    referenceNo : Value; responseTime : Date }.
Definition new (amount senderFee transactionId oldBalance newBalance
                timestamp referenceNo responseTime : Value) : M t :=
  a <- parseFloat amount ;;
  f <- parseFloat senderFee ;;
  ob <- parseFloat oldBalance ;;
  nb <- parseFloat newBalance ;;
  d <- newDate responseTime ;;
  ret (Build a f transactionId ob nb timestamp referenceNo d).
End SendMoneyResult.

(** One row of a statement; [None] in [amount] and [balance] is the
    JavaScript [null]. *)
Module StatementTransaction.
Record t := Build
  { transactionId : Value; datetime : Value; timestamp : Value;
    description : Value; amount : option Num.Number;
    balance : option Num.Number; referenceNo : Value; opTypeId : Value;
    status : Value; createdAt : Value }.
(** [x !== undefined && x !== null ? parseFloat(x) : null] *)
Definition numberOrNull (x : Value) : M (option Num.Number) :=
  match x with
  | VUndefined | VNull => ret None
  | _ => n <- parseFloat x ;; ret (Some n)
  end.
Definition new (transactionId datetime timestamp description amount balance
                referenceNo opTypeId status createdAt : Value) : M t :=
  a <- numberOrNull amount ;;
  b <- numberOrNull balance ;;
  ret (Build transactionId datetime timestamp description a b referenceNo
             opTypeId status createdAt).
End StatementTransaction.

Module Statement.
Record t := Build
  { availableBalance : Num.Number; outstandingCredit : Num.Number;
    outstandingDebit : Num.Number; dayBalance : Num.Number;
    dayTotalIn : Num.Number; dayTotalOut : Num.Number;
    responseTime : Date; dayStatement : list StatementTransaction.t }.
Definition new (availableBalance outstandingCredit outstandingDebit
                dayBalance dayTotalIn dayTotalOut responseTime : Value)
               (dayStatement : list StatementTransaction.t) : M t :=
  ab <- parseFloat availableBalance ;;
  oc <- parseFloat outstandingCredit ;;
  od <- parseFloat outstandingDebit ;;
  db <- parseFloat dayBalance ;;
  ti <- parseFloat dayTotalIn ;;
  to <- parseFloat dayTotalOut ;;
  d <- newDate responseTime ;;
  ret (Build ab oc od db ti to d dayStatement).
End Statement.

Module WalletCheck.
Record t := Build
  { exists_ : Value; walletGatewayId : Value; walletName : Value;
    userAccountName : Value; canReceiveMoney : Value; responseTime : Date }.
Definition new (exists_ walletGatewayId walletName userAccountName
                canReceiveMoney responseTime : Value) : M t :=
  d <- newDate responseTime ;;
  ret (Build exists_ walletGatewayId walletName userAccountName
             canReceiveMoney d).
End WalletCheck.

Module OutstandingTransaction.
Record t := Build
  { transactionId : Value; datetime : Value; timestamp : Value;
    description : Value; amount : option Num.Number;
    balance : option Num.Number; referenceNo : Value; opTypeId : Value;
    status : Value; createdAt : Value }.
Definition numberOrNull (x : Value) : M (option Num.Number) :=
  match x with
  | VUndefined | VNull => ret None
  | _ => n <- parseFloat x ;; ret (Some n)
  end.
Definition new (transactionId datetime timestamp description amount balance
                referenceNo opTypeId status createdAt : Value) : M t :=
  a <- numberOrNull amount ;;
  b <- numberOrNull balance ;;
  ret (Build transactionId datetime timestamp description a b referenceNo
             opTypeId status createdAt).
End OutstandingTransaction.

Module OutstandingTransactions.
Record t := Build
  { outstandingCredit : Num.Number; outstandingDebit : Num.Number;
    responseTime : Date;
    outstandingTransactions : list OutstandingTransaction.t }.
Definition new (outstandingCredit outstandingDebit responseTime : Value)
               (outstandingTransactions : list OutstandingTransaction.t) : M t :=
  oc <- parseFloat outstandingCredit ;;
  od <- parseFloat outstandingDebit ;;
  d <- newDate responseTime ;;
  ret (Build oc od d outstandingTransactions).
End OutstandingTransactions.

(* ===================================================================== *)
(** ** The host: randomness, clock and network                           *)
(* ===================================================================== *)

Module Host.

(** The generator behind [crypto.randomBytes]: an unbounded stream of
    octets and the position of the next one. *)
Record Rng := { stream : nat -> Z; position : nat }.

Definition randomBytes (n : nat) (g : Rng) : list Octets.octet * Rng :=
  (map (fun i => stream g i mod 256) (seq (position g) n),
   {| stream := stream g; position := position g + n |}).

(** What [fetch] is called with; [body] is the object that
    [JSON.stringify] serialises. *)
Record Request := { url : string; method : string; requestHeaders : Obj; body : Obj }.

(** What [fetch] resolves to: [json] is [JSON.parse(await response.text())],
    [replyHeaders] the pairs [response.headers.forEach] visits in order. *)
Record Reply := { json : M Value; replyHeaders : list (string * string); status : Z }.

Record Env := { rng : Rng; now : Z; network : Request -> M Reply }.

(** *** The [Headers] of a response

    A response arrives with a list of headers, the names in whatever
    capitalization the server wrote them.  The [Headers] object of [fetch]
    matches names without regard to the case of the letters A to Z, and
    [forEach] visits the list sorted and combined: every name once, in lower
    case, in ascending order, with the values received under that name
    joined by a comma and a space.  Only [set-cookie] is visited once per
    value. *)
Definition lowerUnit (c : ascii) : ascii :=
  let u := Z.of_N (N_of_ascii c) in
  if (65 <=? u) && (u <=? 90) then ascii_of_N (Z.to_N (u + 32)) else c.

Fixpoint lowercase (s : string) : string :=
  match s with
  | EmptyString => EmptyString
  | String c rest => String (lowerUnit c) (lowercase rest)
  end.

(** The values received under a name, in the order received. *)
Definition valuesOf (name : string) (raw : list (string * string)) : list string :=
  map snd (filter (fun kv => String.eqb (lowercase (fst kv)) name) raw).

Definition headerNames (raw : list (string * string)) : list string :=
  sort (nodup String.string_dec (map (fun kv => lowercase (fst kv)) raw)).

(** The entries visited for one name. *)
Definition visited (raw : list (string * string)) (name : string)
  : list (string * string) :=
  if String.eqb name "set-cookie"
  then map (fun value => (name, value)) (valuesOf name raw)
  else [(name, String.concat ", " (valuesOf name raw))].

(** The pairs [response.headers.forEach] visits, in order. *)
Definition forEach (raw : list (string * string)) : list (string * string) :=
  flat_map (visited raw) (headerNames raw).

(** The same headers with every name written in lower case. *)
Definition lowered (raw : list (string * string)) : list (string * string) :=
  map (fun kv => (lowercase (fst kv), snd kv)) raw.

(** [response.headers.get(name)]: the combined value, or nothing. *)
Definition headerValue (name : string) (raw : list (string * string)) : option string :=
  match valuesOf (lowercase name) raw with
  | [] => None
  | values => Some (String.concat ", " values)
  end.

(** What a server's reply is once [fetch] has resolved: the parsed body,
    the headers as [forEach] visits them, the status. *)
Definition received (body : M Value) (raw : list (string * string)) (status : Z) : Reply :=
  {| json := body; replyHeaders := forEach raw; status := status |}.

End Host.

(* ===================================================================== *)
(** ** GPay: the client                                                  *)
(* ===================================================================== *)

Module GPay.
Import Host.

Definition BaseUrl_STAGING : string :=
  "https://gpay-staging.libyaguide.net/banking/api/onlinewallet/v1".
Definition BaseUrl_PRODUCTION : string :=
  "https://gpay.ly/banking/api/onlinewallet/v1".
Definition BaseUrl_DEV : string :=
  "http://localhost:8080/banking/api/onlinewallet/v1".

(** The frozen table [BaseUrl]. *)
Definition BaseUrl : list (string * string) :=
  [ ("STAGING", BaseUrl_STAGING);
    ("PRODUCTION", BaseUrl_PRODUCTION);
    ("DEV", BaseUrl_DEV) ].

Record Client := NewClient
  { apiKey : string; secretKey : string; password : string;
    baseUrl : string; language : string }.

(** [Object.values(BaseUrl).includes(baseUrl)] *)
Definition includes (x : string) (l : list string) : bool :=
  existsb (String.eqb x) l.

(** The constructor; [language] is [None] when the argument is omitted. *)
Definition constructor (apiKey secretKey password baseUrl : string)
                       (language : option string) : M Client :=
  if negb (includes baseUrl (map snd BaseUrl)) then
    throw (Error "Invalid baseUrl. Use BaseUrl.STAGING or BaseUrl.PRODUCTION.")
  else
    ret (NewClient apiKey secretKey password baseUrl
           (match language with Some l => l | None => "en" end)).

Definition generateSalt (g : Rng) : string * Rng :=
  let '(bytes, g') := randomBytes 32 g in (Octets.base64 bytes, g').

(** [salt + password], the password being a string *)
Definition generateHashToken (salt : Value) (password : string) : M string :=
  s <- ToString salt ;; ret (s ++ password)%string.

(** [Object.keys(parameters).sort().reduce(...)] *)
Definition sortedParams (parameters : Obj) : Obj :=
  fold_left (fun obj key => assign obj key (get parameters key))
            (sort (keys parameters)) [].

(** One [`${key}=${value == null ? '' : value}`] *)
Definition pair (kv : string * Value) : M string :=
  let '(key, value) := kv in
  s <- (if isNullish value then ret "" else ToString value) ;;
  ret (key ++ "=" ++ s)%string.

Definition queryString (parameters : Obj) : M string :=
  parts <- mapM pair (entries (sortedParams parameters)) ;;
  ret (String.concat "&" parts).

Definition generateVerificationHash (this : Client) (hashToken : string)
                                    (parameters : Obj) : M string :=
  qs <- queryString parameters ;;
  let verificationString := (hashToken ++ qs)%string in
  ret (Octets.base64
         (Octets.hmacSha256 (Octets.utf8 (secretKey this))
                            (Octets.utf8 verificationString))).

Record SendResult := { response : Value; headers : Obj; code : Z }.

(** The headers of the outgoing request. *)
Definition signedHeaders (this : Client) (salt verificationHash : string) : Obj :=
  literal [ ("Authorization", VString ("Bearer " ++ apiKey this));
            ("Accept-Language", VString (language this));
            ("X-Signature-Salt", VString salt);
            ("X-Signature-Hash", VString verificationHash);
            ("Content-Type", VString "application/json") ].

(** The first three statements of [sendRequest] and the arguments of its
    [fetch] call. *)
Definition signedRequest (this : Client) (env : Env) (endpoint : string)
                         (parameters : Obj) : M Request :=
  let '(salt, _) := generateSalt (rng env) in
  hashToken <- generateHashToken (VString salt) (password this) ;;
  verificationHash <- generateVerificationHash this hashToken parameters ;;
  ret {| url := baseUrl this ++ endpoint;
         method := "POST";
         requestHeaders := signedHeaders this salt verificationHash;
         body := parameters |}.

Definition sendRequest (this : Client) (env : Env) (endpoint : string)
                       (parameters : Obj) : M SendResult :=
  request <- signedRequest this env endpoint parameters ;;
  reply <- network env request ;;
  let headers := fold_left (fun h kv => assign h (fst kv) (VString (snd kv)))
                           (replyHeaders reply) [] in
  responseJson <- json reply ;;
  if negb (ToBoolean responseJson) then
    throw (Error "Invalid response from GPay API: No JSON response")
  else
    error <- getProperty responseJson "error" ;;
    if ToBoolean error then
      message <- getProperty error "message" ;;
      let errorMsg := or message (VString "Unknown error") in
      code <- getProperty error "code" ;;
      let errorCode := or code (VString "UNKNOWN_CODE") in
      c <- ToString errorCode ;;
      m <- ToString errorMsg ;;
      throw (Error ("GPay API Error (" ++ c ++ "): " ++ m))
    else
      ret {| response := responseJson; headers := headers; code := status reply |}.

Definition verifyResponse (this : Client) (headers : Obj) (responseFields : Obj)
  : M unit :=
  let receivedHash := or (get headers "x-signature-hash") (get headers "X-Signature-Hash") in
  let receivedSalt := or (get headers "x-signature-salt") (get headers "X-Signature-Salt") in
  if negb (ToBoolean receivedHash) || negb (ToBoolean receivedSalt) then
    throw (Error "Missing X-Signature-Hash or X-Signature-Salt in response headers")
  else
    hashToken <- generateHashToken receivedSalt (password this) ;;
    verificationHash <- generateVerificationHash this hashToken responseFields ;;
    if negb (strictEqString verificationHash receivedHash) then
      throw (Error "Response verification failed: hash mismatch")
    else ret tt.

(** [{k1: data.k1, k2: data.k2, ...}], the properties read in order. *)
Definition pick (data : Value) (names : list string) : M Obj :=
  l <- mapM (fun k => v <- getProperty data k ;; ret (k, v)) names ;;
  ret (literal l).

(** [Date.now().toString()] *)
Definition timestamp (env : Env) : Value :=
  VString (Num.toString (Num.ofZ (now env))).

(** *** The seven operations *)

Definition balanceFields : list string := ["balance"; "response_timestamp"].

Definition getBalance (this : Client) (env : Env) : M Balance.t :=
  let endpoint := "/info/balance" in
  let parameters := literal [("request_timestamp", timestamp env)] in
  result <- sendRequest this env endpoint parameters ;;
  data <- getProperty (response result) "data" ;;
  fields <- pick data balanceFields ;;
  check verifyResponse this (headers result) fields ;;
  balance <- getProperty data "balance" ;;
  response_timestamp <- getProperty data "response_timestamp" ;;
  Balance.new balance response_timestamp.

Definition paymentRequestFields : list string :=
  [ "requester_username"; "request_id"; "request_time"; "amount";
    "reference_no"; "response_timestamp" ].

Definition createPaymentRequest (this : Client) (env : Env)
                                (amount referenceNo description : Value)
  : M PaymentRequest.t :=
  let endpoint := "/payment/create-payment-request" in
  amountString <- toStringMethod amount ;;
  let parameters := literal [ ("amount", VString amountString);
                              ("reference_no", referenceNo);
                              ("description", description);
                              ("request_timestamp", timestamp env) ] in
  result <- sendRequest this env endpoint parameters ;;
  data <- getProperty (response result) "data" ;;
  fields <- pick data paymentRequestFields ;;
  check verifyResponse this (headers result) fields ;;
  requester_username <- getProperty data "requester_username" ;;
  request_id <- getProperty data "request_id" ;;
  request_time <- getProperty data "request_time" ;;
  amount <- getProperty data "amount" ;;
  reference_no <- getProperty data "reference_no" ;;
  response_timestamp <- getProperty data "response_timestamp" ;;
  PaymentRequest.new requester_username request_id request_time amount
                     reference_no response_timestamp.

Definition paymentStatusFields : list string :=
  [ "request_id"; "transaction_id"; "amount"; "payment_timestamp";
    "reference_no"; "description"; "is_paid"; "response_timestamp" ].

Definition checkPaymentStatus (this : Client) (env : Env) (requestId : Value)
  : M PaymentStatus.t :=
  let endpoint := "/payment/check-payment-status" in
  let parameters := literal [ ("request_id", requestId);
                              ("request_timestamp", timestamp env) ] in
  result <- sendRequest this env endpoint parameters ;;
  data <- getProperty (response result) "data" ;;
  fields <- pick data paymentStatusFields ;;
  check verifyResponse this (headers result) fields ;;
  request_id <- getProperty data "request_id" ;;
  transaction_id <- getProperty data "transaction_id" ;;
  amount <- getProperty data "amount" ;;
  payment_timestamp <- getProperty data "payment_timestamp" ;;
  reference_no <- getProperty data "reference_no" ;;
  description <- getProperty data "description" ;;
  is_paid <- getProperty data "is_paid" ;;
  response_timestamp <- getProperty data "response_timestamp" ;;
  PaymentStatus.new request_id transaction_id amount payment_timestamp
                    reference_no description is_paid response_timestamp.

Definition sendMoneyFields : list string :=
  [ "amount"; "sender_fee"; "transaction_id"; "old_balance"; "new_balance";
    "timestamp"; "reference_no"; "response_timestamp" ].

Definition sendMoney (this : Client) (env : Env)
                     (amount walletGatewayId referenceNo description : Value)
  : M SendMoneyResult.t :=
  let endpoint := "/payment/send-money" in
  amountString <- toStringMethod amount ;;
  let parameters := literal [ ("amount", VString amountString);
                              ("wallet_gateway_id", walletGatewayId);
                              ("reference_no", referenceNo);
                              ("description", description);
                              ("request_timestamp", timestamp env) ] in
  result <- sendRequest this env endpoint parameters ;;
  data <- getProperty (response result) "data" ;;
  fields <- pick data sendMoneyFields ;;
  check verifyResponse this (headers result) fields ;;
  amount <- getProperty data "amount" ;;
  sender_fee <- getProperty data "sender_fee" ;;
  transaction_id <- getProperty data "transaction_id" ;;
  old_balance <- getProperty data "old_balance" ;;
  new_balance <- getProperty data "new_balance" ;;
  timestamp <- getProperty data "timestamp" ;;
  reference_no <- getProperty data "reference_no" ;;
  response_timestamp <- getProperty data "response_timestamp" ;;
  SendMoneyResult.new amount sender_fee transaction_id old_balance new_balance
                      timestamp reference_no response_timestamp.

Definition statementFields : list string :=
  [ "available_balance"; "outstanding_credit"; "outstanding_debit";
    "day_balance"; "day_total_in"; "day_total_out"; "response_timestamp" ].

(** [tx => new StatementTransaction(tx.transaction_id, ...)] *)
Definition statementRow (tx : Value) : M StatementTransaction.t :=
  transaction_id <- getProperty tx "transaction_id" ;;
  datetime <- getProperty tx "datetime" ;;
  timestamp <- getProperty tx "timestamp" ;;
  description <- getProperty tx "description" ;;
  amount <- getProperty tx "amount" ;;
  balance <- getProperty tx "balance" ;;
  reference_no <- getProperty tx "reference_no" ;;
  op_type_id <- getProperty tx "op_type_id" ;;
  status <- getProperty tx "status" ;;
  created_at <- getProperty tx "created_at" ;;
  StatementTransaction.new transaction_id datetime timestamp description
                           amount balance reference_no op_type_id status
                           created_at.

Definition getStatement (this : Client) (env : Env) (date : Value)
  : M Statement.t :=
  let endpoint := "/info/statement" in
  let parameters := literal [ ("date", date);
                              ("request_timestamp", timestamp env) ] in
  result <- sendRequest this env endpoint parameters ;;
  data <- getProperty (response result) "data" ;;
  fields <- pick data statementFields ;;
  check verifyResponse this (headers result) fields ;;
  day_statement <- getProperty data "day_statement" ;;
  dayStatement <- match day_statement with
                  | VArray rows => mapM statementRow rows
                  | _ => ret []
                  end ;;
  available_balance <- getProperty data "available_balance" ;;
  outstanding_credit <- getProperty data "outstanding_credit" ;;
  outstanding_debit <- getProperty data "outstanding_debit" ;;
  day_balance <- getProperty data "day_balance" ;;
  day_total_in <- getProperty data "day_total_in" ;;
  day_total_out <- getProperty data "day_total_out" ;;
  response_timestamp <- getProperty data "response_timestamp" ;;
  Statement.new available_balance outstanding_credit outstanding_debit
                day_balance day_total_in day_total_out response_timestamp
                dayStatement.

Definition walletCheckFields : list string :=
  [ "exists"; "wallet_gateway_id"; "wallet_name"; "user_account_name";
    "can_receive_money"; "response_timestamp" ].

Definition checkWallet (this : Client) (env : Env) (walletGatewayId : Value)
  : M WalletCheck.t :=
  let endpoint := "/info/check-wallet" in
  let parameters := literal [ ("wallet_gateway_id", walletGatewayId);
                              ("request_timestamp", timestamp env) ] in
  result <- sendRequest this env endpoint parameters ;;
  data <- getProperty (response result) "data" ;;
  fields <- pick data walletCheckFields ;;
  check verifyResponse this (headers result) fields ;;
  exists_ <- getProperty data "exists" ;;
  wallet_gateway_id <- getProperty data "wallet_gateway_id" ;;
  wallet_name <- getProperty data "wallet_name" ;;
  user_account_name <- getProperty data "user_account_name" ;;
  can_receive_money <- getProperty data "can_receive_money" ;;
  response_timestamp <- getProperty data "response_timestamp" ;;
  WalletCheck.new exists_ wallet_gateway_id wallet_name user_account_name
                  can_receive_money response_timestamp.

Definition outstandingFields : list string :=
  [ "outstanding_credit"; "outstanding_debit"; "response_timestamp" ].

(** [tx => new OutstandingTransaction(tx.transaction_id, ...)] *)
Definition outstandingRow (tx : Value) : M OutstandingTransaction.t :=
  transaction_id <- getProperty tx "transaction_id" ;;
  datetime <- getProperty tx "datetime" ;;
  timestamp <- getProperty tx "timestamp" ;;
  description <- getProperty tx "description" ;;
  amount <- getProperty tx "amount" ;;
  balance <- getProperty tx "balance" ;;
  reference_no <- getProperty tx "reference_no" ;;
  op_type_id <- getProperty tx "op_type_id" ;;
  status <- getProperty tx "status" ;;
  created_at <- getProperty tx "created_at" ;;
  OutstandingTransaction.new transaction_id datetime timestamp description
                             amount balance reference_no op_type_id status
                             created_at.

Definition getOutstandingTransactions (this : Client) (env : Env)
  : M OutstandingTransactions.t :=
  let endpoint := "/info/outstanding-transactions" in
  let parameters := literal [("request_timestamp", timestamp env)] in
  result <- sendRequest this env endpoint parameters ;;
  data <- getProperty (response result) "data" ;;
  fields <- pick data outstandingFields ;;
  check verifyResponse this (headers result) fields ;;
  outstanding_transactions <- getProperty data "outstanding_transactions" ;;
  outstandingTransactions <- match outstanding_transactions with
                             | VArray rows => mapM outstandingRow rows
                             | _ => ret []
                             end ;;
  outstanding_credit <- getProperty data "outstanding_credit" ;;
  outstanding_debit <- getProperty data "outstanding_debit" ;;
  response_timestamp <- getProperty data "response_timestamp" ;;
  OutstandingTransactions.new outstanding_credit outstanding_debit
                              response_timestamp outstandingTransactions.

(** *** The operations under one name, to state properties of all seven *)

Inductive Call :=
| GetBalance
| CreatePaymentRequest (amount referenceNo description : Value)
| CheckPaymentStatus (requestId : Value)
| SendMoney (amount walletGatewayId referenceNo description : Value)
| GetStatement (date : Value)
| CheckWallet (walletGatewayId : Value)
| GetOutstandingTransactions.

Inductive ResultRecord :=
| IsBalance (r : Balance.t)
| IsPaymentRequest (r : PaymentRequest.t)
| IsPaymentStatus (r : PaymentStatus.t)
| IsSendMoneyResult (r : SendMoneyResult.t)
| IsStatement (r : Statement.t)
| IsWalletCheck (r : WalletCheck.t)
| IsOutstandingTransactions (r : OutstandingTransactions.t).

Definition perform (this : Client) (env : Env) (call : Call) : M ResultRecord :=
  match call with
  | GetBalance => r <- getBalance this env ;; ret (IsBalance r)
  | CreatePaymentRequest a r d =>
      r <- createPaymentRequest this env a r d ;; ret (IsPaymentRequest r)
  | CheckPaymentStatus i =>
      r <- checkPaymentStatus this env i ;; ret (IsPaymentStatus r)
  | SendMoney a w r d =>
      r <- sendMoney this env a w r d ;; ret (IsSendMoneyResult r)
  | GetStatement d => r <- getStatement this env d ;; ret (IsStatement r)
  | CheckWallet w => r <- checkWallet this env w ;; ret (IsWalletCheck r)
  | GetOutstandingTransactions =>
      r <- getOutstandingTransactions this env ;; ret (IsOutstandingTransactions r)
  end.

(** The response fields each operation hands to [verifyResponse]. *)
Definition signedResponseFields (call : Call) : list string :=
  match call with
  | GetBalance => balanceFields
  | CreatePaymentRequest _ _ _ => paymentRequestFields
  | CheckPaymentStatus _ => paymentStatusFields
  | SendMoney _ _ _ _ => sendMoneyFields
  | GetStatement _ => statementFields
  | CheckWallet _ => walletCheckFields
  | GetOutstandingTransactions => outstandingFields
  end.

(** The endpoint and the parameter map each operation sends. *)
Definition endpointOf (call : Call) : string :=
  match call with
  | GetBalance => "/info/balance"
  | CreatePaymentRequest _ _ _ => "/payment/create-payment-request"
  | CheckPaymentStatus _ => "/payment/check-payment-status"
  | SendMoney _ _ _ _ => "/payment/send-money"
  | GetStatement _ => "/info/statement"
  | CheckWallet _ => "/info/check-wallet"
  | GetOutstandingTransactions => "/info/outstanding-transactions"
  end.

Definition parametersOf (env : Env) (call : Call) : M Obj :=
  match call with
  | GetBalance | GetOutstandingTransactions =>
      ret (literal [("request_timestamp", timestamp env)])
  | CreatePaymentRequest amount referenceNo description =>
      amountString <- toStringMethod amount ;;
      ret (literal [ ("amount", VString amountString);
                     ("reference_no", referenceNo);
                     ("description", description);
                     ("request_timestamp", timestamp env) ])
  | CheckPaymentStatus requestId =>
      ret (literal [ ("request_id", requestId);
                     ("request_timestamp", timestamp env) ])
  | SendMoney amount walletGatewayId referenceNo description =>
      amountString <- toStringMethod amount ;;
      ret (literal [ ("amount", VString amountString);
                     ("wallet_gateway_id", walletGatewayId);
                     ("reference_no", referenceNo);
                     ("description", description);
                     ("request_timestamp", timestamp env) ])
  | GetStatement date =>
      ret (literal [ ("date", date); ("request_timestamp", timestamp env) ])
  | CheckWallet walletGatewayId =>
      ret (literal [ ("wallet_gateway_id", walletGatewayId);
                     ("request_timestamp", timestamp env) ])
  end.

(** *** The enumerations at the end of the source file *)

(** The frozen table [TransactionStatus]: names to codes and codes to names. *)
Definition TransactionStatus : Obj :=
  literal [ ("PENDING", VNumber (Num.ofZ 0));
            ("COMPLETED", VNumber (Num.ofZ 1));
            ("APPLIED", VNumber (Num.ofZ 2));
            ("0", VString "PENDING");
            ("1", VString "COMPLETED");
            ("2", VString "APPLIED") ].

(** The frozen table [OperationType]. *)
Definition OperationType : Obj :=
  literal [ ("DIRECT_TRANSFER", VNumber (Num.ofZ 1));
            ("PAYMENT_REQUEST", VNumber (Num.ofZ 2));
            ("BANK_DEPOSIT", VNumber (Num.ofZ 3));
            ("BANK_WITHDRAW", VNumber (Num.ofZ 4));
            ("TRANSACTION_FEE", VNumber (Num.ofZ 5));
            ("LOCAL_TRANSFER", VNumber (Num.ofZ 6));
            ("1", VString "DIRECT_TRANSFER");
            ("2", VString "PAYMENT_REQUEST");
            ("3", VString "BANK_DEPOSIT");
            ("4", VString "BANK_WITHDRAW");
            ("5", VString "TRANSACTION_FEE");
            ("6", VString "LOCAL_TRANSFER") ].

End GPay.

(* ===================================================================== *)
(** ** Definitions used to state the properties                           *)
(* ===================================================================== *)

Import Host GPay.

Definition ascending (x y : string) : Prop := String.leb x y = true.

(** The values of a parameter map as the specification types it: scalars. *)
Definition isScalar (v : Value) : Prop :=
  match v with
  | VArray _ | VObject _ => False
  | _ => True
  end.

Definition scalarValued (o : Obj) : Prop := Forall (fun kv => isScalar (snd kv)) o.

(** The query string as the specification words it: the keys sorted
    ascending, each entry written [key=value], the entries joined by [&]. *)
Definition canonicalQueryString (parameters : Obj) : M string :=
  parts <- mapM pair (map (fun k => (k, get parameters k)) (sort (keys parameters))) ;;
  ret (String.concat "&" parts).

(** A key that is neither an array index nor [__proto__]. *)
Definition plainKey (k : string) : Prop :=
  arrayIndex k = None /\ k <> "__proto__".

Definition missingSignature : Exn :=
  Error "Missing X-Signature-Hash or X-Signature-Salt in response headers".

Definition hashMismatch : Exn :=
  Error "Response verification failed: hash mismatch".

(** A header that one of the two spellings gives the empty string, and
    neither gives anything else. *)
Definition presentButEmpty (headers : Obj) (lower upper : string) : Prop :=
  (lookup lower headers = Some (VString "")
   /\ (lookup upper headers = None \/ lookup upper headers = Some (VString "")))
  \/ (lookup lower headers = None /\ lookup upper headers = Some (VString "")).

Definition invalidBaseUrl : Exn :=
  Error "Invalid baseUrl. Use BaseUrl.STAGING or BaseUrl.PRODUCTION.".

(** The Number 49.9: the binary64 value nearest to 499/10. *)
Definition fortyNinePointNine : Num.Number := Num.ofDecimal false 499 (-1).

(** What [sendRequest] raises on the envelope [{code, message}]. *)
Definition remoteError (envelope : Obj) : Exn :=
  match ToString (or (get envelope "code") (VString "UNKNOWN_CODE")) with
  | inl e => e
  | inr c =>
      match ToString (or (get envelope "message") (VString "Unknown error")) with
      | inl e => e
      | inr m => Error ("GPay API Error (" ++ c ++ "): " ++ m)
      end
  end.

Definition refusal (code message : Value) : Value :=
  VObject [ ("error", VObject [("code", code); ("message", message)]) ].

(** A client, a host and a parameter map to run the theorems on. *)
Definition demoClient : Client :=
  NewClient "api-key" "k" "p" BaseUrl_PRODUCTION "en".

Definition demoParameters : Obj :=
  literal [ ("balance", VNumber (Num.ofZ 100));
            ("response_timestamp", VNumber (Num.ofZ 1700000000000)) ].

Definition offline : Env :=
  {| rng := {| stream := fun i => Z.of_nat i; position := 0 |};
     now := 1700000000000;
     network := fun _ => throw (Rejected "offline") |}.

(** A host whose network answers every request with the given body and
    headers. *)
Definition answering (body : Value) (replyHeaders : list (string * string)) : Env :=
  {| rng := {| stream := fun i => Z.of_nat i; position := 0 |};
     now := 1700000000000;
     network := fun _ => ret {| json := ret body;
                                replyHeaders := replyHeaders;
                                status := 200 |} |}.

(** A signed balance response for [demoClient]. *)
Definition balanceReply : Env :=
  answering
    (VObject [ ("data", VObject [ ("balance", VNumber (Num.ofZ 100));
                                  ("response_timestamp", VNumber (Num.ofZ 1700000000000)) ]) ])
    [ ("x-signature-salt", "S");
      ("x-signature-hash", "RHZM6/DpI3BmAVe77XPFMZYu93EseFGR20wV+mlxPWI=") ].

(** A statement response for [demoClient]: the signature covers the seven
    summary fields, not the rows. *)
Definition statementSummary : list (string * Value) :=
  [ ("available_balance", VString "120.50"); ("outstanding_credit", VString "0");
    ("outstanding_debit", VString "0"); ("day_balance", VString "120.50");
    ("day_total_in", VString "49.90"); ("day_total_out", VString "0");
    ("response_timestamp", VString "1700000000000") ].

Definition statementSignature : string :=
  Eval vm_compute in
    match generateVerificationHash demoClient "Sp" (literal statementSummary) with
    | inr hash => hash
    | inl _ => ""
    end.

Definition statementReply (rows : Value) : Env :=
  answering
    (VObject [ ("data", VObject (statementSummary ++ [("day_statement", rows)])) ])
    [ ("x-signature-salt", "S"); ("x-signature-hash", statementSignature) ].

Definition statementRowOf (amount : Value) : Value :=
  VObject [ ("transaction_id", VString "tx-1"); ("amount", amount) ].

(** [o[key]] with a key of any type: the key is converted to a string. *)
Definition member (o : Obj) (key : Value) : M Value :=
  k <- ToString key ;; ret (get o k).

(** The value of the last pair named [k] in a list of header pairs. *)
Fixpoint lastValue (k : string) (l : list (string * string)) : option string :=
  match l with
  | [] => None
  | (k', v) :: rest =>
      match lastValue k rest with
      | Some x => Some x
      | None => if String.eqb k k' then Some v else None
      end
  end.

(** A parameter map with every null and undefined value replaced by the
    empty string. *)
Definition emptied (v : Value) : Value := if isNullish v then VString "" else v.

Definition mapValues (f : Value -> Value) (o : Obj) : Obj :=
  map (fun kv => (fst kv, f (snd kv))) o.

(** The query string of a list of entries taken in the order given. *)
Definition joined (l : list (string * Value)) : M string :=
  parts <- mapM pair l ;; ret (String.concat "&" parts).

(** The header table [sendRequest] builds from the pairs of a reply. *)
Definition collected (pairs : list (string * string)) : Obj :=
  fold_left (fun h kv => assign h (fst kv) (VString (snd kv))) pairs [].

Definition invalidResponse : Exn :=
  Error "Invalid response from GPay API: No JSON response".

Definition unknownRemoteError : Exn :=
  Error "GPay API Error (UNKNOWN_CODE): Unknown error".

(** What the verifier reads from a header table. *)
Definition receivedHash (headers : Obj) : Value :=
  or (get headers "x-signature-hash") (get headers "X-Signature-Hash").

Definition receivedSalt (headers : Obj) : Value :=
  or (get headers "x-signature-salt") (get headers "X-Signature-Salt").

(** What a computation may raise: every error of [c] satisfies [P]. *)
Definition raises {A} (P : Exn -> Prop) (c : M A) : Prop :=
  forall e, c = inl e -> P e.

Definition isTypeError (e : Exn) : Prop := e = TypeError.

(** The errors the client raises itself: a TypeError of the language, and
    the four kinds of [Error] it constructs after construction time. *)
Inductive clientError : Exn -> Prop :=
| IsTypeError : clientError TypeError
| IsInvalidResponse : clientError invalidResponse
| IsRemoteError (c m : string) :
    clientError (Error ("GPay API Error (" ++ c ++ "): " ++ m))
| IsMissingSignature : clientError missingSignature
| IsHashMismatch : clientError hashMismatch.

(** The errors of the host: a rejected [fetch], or a failure to read the
    body of the reply as JSON. *)
Definition hostError (env : Env) (e : Exn) : Prop :=
  (exists request, network env request = inl e)
  \/ (exists request reply, network env request = inr reply /\ json reply = inl e).

(** [v.k] once [v] is known to be neither undefined nor null. *)
Definition read (v : Value) (k : string) : Value :=
  match v with
  | VObject o => get o k
  | _ => VUndefined
  end.

(** A value that ToString converts. *)
Definition prints (v : Value) : Prop := exists s, ToString v = inr s.

(** An element of the rows array from which a row record can be built:
    its [amount] and [balance] can be read and converted. *)
Definition buildableRow (tx : Value) : Prop :=
  exists amount balance,
    getProperty tx "amount" = inr amount
    /\ getProperty tx "balance" = inr balance
    /\ prints amount /\ prints balance.

Definition buildableRows (v : Value) : Prop :=
  match v with
  | VArray rows => Forall buildableRow rows
  | _ => True
  end.

(** The property of the data that holds the rows, for the two operations
    that have rows. *)
Definition rowsKey (call : Call) : option string :=
  match call with
  | GetStatement _ => Some "day_statement"
  | GetOutstandingTransactions => Some "outstanding_transactions"
  | _ => None
  end.

(** A host that answers as [env] does, but with the HTTP status [c] on
    every reply. *)
Definition withStatus (c : Z) (env : Env) : Env :=
  {| rng := rng env;
     now := now env;
     network := fun request =>
                  reply <- network env request ;;
                  ret {| json := json reply;
                         replyHeaders := replyHeaders reply;
                         status := c |} |}.

(** The record of an operation as a function of the fields that were
    verified and, for the two operations with rows, of the value of the
    rows property. *)
Definition recordOf (call : Call) (fields : Obj) (rows : Value) : M ResultRecord :=
  let field := get fields in
  match call with
  | GetBalance =>
      r <- Balance.new (field "balance") (field "response_timestamp") ;;
      ret (IsBalance r)
  | CreatePaymentRequest _ _ _ =>
      r <- PaymentRequest.new (field "requester_username") (field "request_id")
             (field "request_time") (field "amount") (field "reference_no")
             (field "response_timestamp") ;;
      ret (IsPaymentRequest r)
  | CheckPaymentStatus _ =>
      r <- PaymentStatus.new (field "request_id") (field "transaction_id")
             (field "amount") (field "payment_timestamp") (field "reference_no")
             (field "description") (field "is_paid") (field "response_timestamp") ;;
      ret (IsPaymentStatus r)
  | SendMoney _ _ _ _ =>
      r <- SendMoneyResult.new (field "amount") (field "sender_fee")
             (field "transaction_id") (field "old_balance") (field "new_balance")
             (field "timestamp") (field "reference_no") (field "response_timestamp") ;;
      ret (IsSendMoneyResult r)
  | GetStatement _ =>
      dayStatement <- match rows with
                      | VArray l => mapM statementRow l
                      | _ => ret []
                      end ;;
      r <- Statement.new (field "available_balance") (field "outstanding_credit")
             (field "outstanding_debit") (field "day_balance") (field "day_total_in")
             (field "day_total_out") (field "response_timestamp") dayStatement ;;
      ret (IsStatement r)
  | CheckWallet _ =>
      r <- WalletCheck.new (field "exists") (field "wallet_gateway_id")
             (field "wallet_name") (field "user_account_name")
             (field "can_receive_money") (field "response_timestamp") ;;
      ret (IsWalletCheck r)
  | GetOutstandingTransactions =>
      outstandingTransactions <- match rows with
                                 | VArray l => mapM outstandingRow l
                                 | _ => ret []
                                 end ;;
      r <- OutstandingTransactions.new (field "outstanding_credit")
             (field "outstanding_debit") (field "response_timestamp")
             outstandingTransactions ;;
      ret (IsOutstandingTransactions r)
  end.

(** The value of the rows property of the data, undefined for an operation
    without rows. *)
Definition rowsOf (call : Call) (data : Value) : Value :=
  match rowsKey call with
  | Some key => read data key
  | None => VUndefined
  end.

Definition hostOrClientError (env : Env) (e : Exn) : Prop :=
  hostError env e \/ clientError e.

(* ===================================================================== *)
(** ** Proof tools                                                       *)
(* ===================================================================== *)

Arguments Octets.sha256 : simpl never.
Arguments Octets.hmacSha256 : simpl never.
Arguments Octets.base64 : simpl never.
Arguments Octets.utf8 : simpl never.
Arguments Num.toString : simpl never.
Arguments Num.ofDecimal : simpl never.
Arguments Num.parseFloatString : simpl never.
Arguments Num.stringToNumber : simpl never.
Arguments TimeClip : simpl never.

(* ===================================================================== *)
(** ** Conformance of the primitives                                     *)
(* ===================================================================== *)

(** Published test vectors: FIPS 180-4 (constants, one and two blocks),
    RFC 4231 test cases 1 and 2, RFC 4648 section 10; then the conversions
    of numbers against the values Node prints. *)

Example sha256_constants :
  Octets.cA Octets.initialChain = 0x6a09e667
  /\ Octets.cH Octets.initialChain = 0x5be0cd19
  /\ nth 0 Octets.roundConstants 0 = 0x428a2f98
  /\ nth 63 Octets.roundConstants 0 = 0xc67178f2.
Proof. vm_compute. repeat split; reflexivity. Qed.

Example sha256_abc :
  Octets.hex (Octets.sha256 (Octets.utf8 "abc"))
  = "ba7816bf8f01cfea414140de5dae2223b00361a396177a9cb410ff61f20015ad".
Proof. vm_compute. reflexivity. Qed.

Example sha256_empty :
  Octets.hex (Octets.sha256 [])
  = "e3b0c44298fc1c149afbf4c8996fb92427ae41e4649b934ca495991b7852b855".
Proof. vm_compute. reflexivity. Qed.

Example sha256_two_blocks :
  Octets.hex (Octets.sha256
    (Octets.utf8 "abcdbcdecdefdefgefghfghighijhijkijkljklmklmnlmnomnopnopq"))
  = "248d6a61d20638b8e5c026930c3e6039a33ce45964ff2167f6ecedd419db06c1".
Proof. vm_compute. reflexivity. Qed.

Example hmac_rfc4231_case1 :
  Octets.hex (Octets.hmacSha256 (repeat 11 20) (Octets.utf8 "Hi There"))
  = "b0344c61d8db38535ca8afceaf0bf12b881dc200c9833da726e9376c2e32cff7".
Proof. vm_compute. reflexivity. Qed.

Example hmac_rfc4231_case2 :
  Octets.hex (Octets.hmacSha256 (Octets.utf8 "Jefe")
                                (Octets.utf8 "what do ya want for nothing?"))
  = "5bdcc146bf60754e6a042426089575c75a003f089d2739839dec58b964ec3843".
Proof. vm_compute. reflexivity. Qed.

Example base64_rfc4648 :
  map (fun s => Octets.base64 (Octets.utf8 s)) ["f"; "fo"; "foo"; "foob"; "fooba"; "foobar"]
  = ["Zg=="; "Zm8="; "Zm9v"; "Zm9vYg=="; "Zm9vYmE="; "Zm9vYmFy"].
Proof. vm_compute. reflexivity. Qed.

Example number_toString_samples :
  map Num.toString
    [ Num.ofZ 100; Num.ofZ 1700000000000; Num.ofDecimal false 499 (-1);
      Num.ofDecimal false 1 (-1); Num.ofDecimal false 1 21;
      Num.ofDecimal false 123456789012345678901 0; Num.ofDecimal true 5 (-324);
      Num.ofDecimal false 1 (-7); Num.ofDecimal false 17976931348623157 292;
      Num.ofDecimal false 9007199254740993 0 ]
  = [ "100"; "1700000000000"; "49.9"; "0.1"; "1e+21"; "123456789012345680000";
      "-5e-324"; "1e-7"; "1.7976931348623157e+308"; "9007199254740992" ].
Proof. vm_compute. reflexivity. Qed.

Example parseFloat_samples :
  map (fun s => Num.toString (Num.parseFloatString s))
    [ "49.90"; "null"; "  -3.5e2xyz"; ".5"; "5."; "1e+"; "Infinityx"; "0x10"; "" ]
  = [ "49.9"; "NaN"; "-350"; "0.5"; "5"; "1"; "Infinity"; "0"; "NaN" ].
Proof. vm_compute. reflexivity. Qed.

Example stringToNumber_samples :
  map (fun s => Num.toString (Num.stringToNumber s))
    [ "1700000000000"; ""; "  42  "; "0x1F"; "12abc"; "null"; "-0x10" ]
  = [ "1700000000000"; "0"; "42"; "31"; "NaN"; "NaN"; "NaN" ].
Proof. vm_compute. reflexivity. Qed.

(* ===================================================================== *)
(** ** Facts about the order on strings and about [sort]                 *)
(* ===================================================================== *)

Section StringOrder.

Lemma leb_refl (s : string) : String.leb s s = true.
Proof.
  destruct (String.leb_total s s); assumption.
Qed.

Lemma leb_trans (s1 s2 s3 : string) :
  String.leb s1 s2 = true -> String.leb s2 s3 = true -> String.leb s1 s3 = true.
Proof.
  unfold String.leb. revert s2 s3.
  induction s1 as [|a s1 IH]; intros [|b s2] [|c s3]; simpl; try congruence.
  unfold Ascii.compare.
  destruct (N.compare_spec (N_of_ascii a) (N_of_ascii b)) as [Hab|Hab|Hab];
    destruct (N.compare_spec (N_of_ascii b) (N_of_ascii c)) as [Hbc|Hbc|Hbc];
    destruct (N.compare_spec (N_of_ascii a) (N_of_ascii c)) as [Hac|Hac|Hac];
    try congruence; try lia.
  apply IH.
Qed.

Lemma leb_false_flip (x y : string) : String.leb x y = false -> String.leb y x = true.
Proof.
  intros H. destruct (String.leb_total x y) as [H'|H']; congruence.
Qed.

(** Two insertions commute: the arrangement does not depend on the order
    in which the keys arrive. *)
Lemma insertSorted_comm (x y : string) (l : list string) :
  insertSorted x (insertSorted y l) = insertSorted y (insertSorted x l).
Proof.
  induction l as [|z l IH]; simpl.
  - destruct (String.leb x y) eqn:Hxy, (String.leb y x) eqn:Hyx; try reflexivity.
    + rewrite (String.leb_antisym _ _ Hxy Hyx). reflexivity.
    + apply leb_false_flip in Hxy. congruence.
  - destruct (String.leb y z) eqn:Hyz, (String.leb x z) eqn:Hxz; simpl;
      rewrite ?Hyz, ?Hxz.
    + destruct (String.leb x y) eqn:Hxy, (String.leb y x) eqn:Hyx; try reflexivity.
      * rewrite (String.leb_antisym _ _ Hxy Hyx). reflexivity.
      * apply leb_false_flip in Hxy. congruence.
    + destruct (String.leb x y) eqn:Hxy.
      * rewrite (leb_trans _ _ _ Hxy Hyz) in Hxz. discriminate.
      * reflexivity.
    + destruct (String.leb y x) eqn:Hyx.
      * rewrite (leb_trans _ _ _ Hyx Hxz) in Hyz. discriminate.
      * reflexivity.
    + rewrite IH. reflexivity.
Qed.

Lemma sort_Permutation_eq (l1 l2 : list string) :
  Permutation l1 l2 -> sort l1 = sort l2.
Proof.
  induction 1 as [| x l l' _ IH | x y l | l l' l'' _ IH1 _ IH2]; simpl.
  - reflexivity.
  - rewrite IH. reflexivity.
  - apply insertSorted_comm.
  - congruence.
Qed.

Lemma insertSorted_Permutation (x : string) (l : list string) :
  Permutation (x :: l) (insertSorted x l).
Proof.
  induction l as [|y l IH]; simpl.
  - reflexivity.
  - destruct (String.leb x y).
    + reflexivity.
    + rewrite perm_swap. apply perm_skip. exact IH.
Qed.

Lemma sort_Permutation (l : list string) : Permutation l (sort l).
Proof.
  induction l as [|x l IH]; simpl.
  - reflexivity.
  - rewrite <- insertSorted_Permutation. apply perm_skip. exact IH.
Qed.

Lemma insertSorted_Sorted (x : string) (l : list string) :
  Sorted ascending l -> Sorted ascending (insertSorted x l).
Proof.
  induction 1 as [|y l Hl IH Hy]; simpl.
  - repeat constructor.
  - destruct (String.leb x y) eqn:Hxy.
    + constructor; [constructor; assumption | constructor; exact Hxy].
    + constructor; [exact IH |].
      apply leb_false_flip in Hxy.
      destruct Hy as [|z l' Hz]; simpl.
      * constructor. exact Hxy.
      * destruct (String.leb x z); constructor; assumption.
Qed.

Lemma sort_Sorted (l : list string) : Sorted ascending (sort l).
Proof.
  induction l as [|x l IH]; simpl.
  - constructor.
  - apply insertSorted_Sorted. exact IH.
Qed.

End StringOrder.

(* ===================================================================== *)
(** ** Facts about objects                                               *)
(* ===================================================================== *)

Section Objects.

Lemma lookup_None (k : string) (o : Obj) :
  lookup k o = None <-> ~ In k (keys o).
Proof.
  induction o as [|[k' v] o IH]; simpl.
  - tauto.
  - destruct (String.eqb_spec k k') as [->|Hne].
    + split; [discriminate | intros H; exfalso; apply H; left; reflexivity].
    + rewrite IH. split.
      * intros H [E|I]; [congruence | tauto].
      * tauto.
Qed.

Lemma lookup_In (k : string) (v : Value) (o : Obj) :
  NoDup (keys o) -> In (k, v) o -> lookup k o = Some v.
Proof.
  induction o as [|[k' v'] o IH]; simpl; intros Hnd Hin.
  - contradiction.
  - inversion Hnd as [|? ? Hfresh Hnd']; subst.
    destruct Hin as [E|Hin].
    + inversion E; subst. rewrite String.eqb_refl. reflexivity.
    + destruct (String.eqb_spec k k') as [->|Hne].
      * exfalso. apply Hfresh. apply (in_map fst) in Hin. exact Hin.
      * apply IH; assumption.
Qed.

Lemma lookup_Some_In (k : string) (v : Value) (o : Obj) :
  lookup k o = Some v -> In (k, v) o.
Proof.
  induction o as [|[k' v'] o IH]; simpl; intros H.
  - discriminate.
  - destruct (String.eqb_spec k k') as [->|Hne].
    + inversion H; subst. left. reflexivity.
    + right. apply IH. exact H.
Qed.

(** Two arrangements of the same properties answer every read alike. *)
Lemma lookup_Permutation (k : string) (o1 o2 : Obj) :
  NoDup (keys o1) -> Permutation o1 o2 -> lookup k o1 = lookup k o2.
Proof.
  intros Hnd Hp.
  assert (Hnd2 : NoDup (keys o2)).
  { unfold keys. eapply Permutation_NoDup; [apply Permutation_map; exact Hp | exact Hnd]. }
  destruct (lookup k o1) as [v|] eqn:H1.
  - symmetry. apply lookup_In; [exact Hnd2 |].
    eapply Permutation_in; [exact Hp |]. apply lookup_Some_In. exact H1.
  - symmetry. apply lookup_None. apply lookup_None in H1.
    intros Hin. apply H1. unfold keys in *.
    eapply Permutation_in; [symmetry; apply Permutation_map; exact Hp | exact Hin].
Qed.

Lemma get_Permutation (k : string) (o1 o2 : Obj) :
  NoDup (keys o1) -> Permutation o1 o2 -> get o1 k = get o2 k.
Proof.
  intros Hnd Hp. unfold get. rewrite (lookup_Permutation k o1 o2 Hnd Hp). reflexivity.
Qed.

Lemma lookup_app_fresh (k k' : string) (v : Value) (o : Obj) :
  lookup k o = None -> k <> k' -> lookup k (o ++ [(k', v)]) = None.
Proof.
  induction o as [|[k0 v0] o IH]; simpl; intros H Hne.
  - destruct (String.eqb_spec k k'); [contradiction | reflexivity].
  - destruct (String.eqb k k0); [discriminate | apply IH; assumption].
Qed.

Lemma insertIndex_Permutation (i : Z) (k : string) (v : Value) (o : Obj) :
  Permutation ((k, v) :: o) (insertIndex i k v o).
Proof.
  induction o as [|[k' v'] o IH]; simpl.
  - reflexivity.
  - destruct (arrayIndex k') as [j|]; [destruct (i <? j) |]; try reflexivity.
    rewrite perm_swap. apply perm_skip. exact IH.
Qed.

(** Defining a key the object does not have adds one property and moves
    none out. *)
Lemma defineOwn_fresh (o : Obj) (k : string) (v : Value) :
  lookup k o = None -> Permutation ((k, v) :: o) (defineOwn o k v).
Proof.
  intros H. unfold defineOwn. rewrite H.
  destruct (arrayIndex k) as [i|].
  - apply insertIndex_Permutation.
  - apply Permutation_cons_append.
Qed.

Lemma fold_defineOwn_Permutation (l : list (string * Value)) (acc : Obj) :
  NoDup (map fst l ++ keys acc) ->
  Permutation (l ++ acc)
              (fold_left (fun o kv => defineOwn o (fst kv) (snd kv)) l acc).
Proof.
  revert acc. induction l as [|[k v] l IH]; simpl; intros acc Hnd.
  - reflexivity.
  - inversion Hnd as [|? ? Hfresh Hnd']; subst.
    assert (Hk : lookup k acc = None).
    { apply lookup_None. intros Hin. apply Hfresh. apply in_or_app. right. exact Hin. }
    pose proof (defineOwn_fresh acc k v Hk) as Hp.
    rewrite <- IH.
    + rewrite <- Hp. apply Permutation_middle.
    + eapply Permutation_NoDup; [| exact Hnd].
      etransitivity; [apply Permutation_middle |].
      apply Permutation_app_head.
      exact (Permutation_map fst Hp).
Qed.

(** An object literal with distinct keys holds exactly the listed
    properties, in some order. *)
Lemma literal_Permutation (l : list (string * Value)) :
  NoDup (map fst l) -> Permutation l (literal l).
Proof.
  intros Hnd. unfold literal.
  rewrite <- fold_defineOwn_Permutation.
  - rewrite app_nil_r. reflexivity.
  - simpl. rewrite app_nil_r. exact Hnd.
Qed.

Lemma literal_NoDup (l : list (string * Value)) :
  NoDup (map fst l) -> NoDup (keys (literal l)).
Proof.
  intros Hnd. unfold keys.
  eapply Permutation_NoDup; [apply Permutation_map, literal_Permutation; exact Hnd | exact Hnd].
Qed.

End Objects.

(* ===================================================================== *)
(** ** Facts about the signer and the verifier                           *)
(* ===================================================================== *)

Section Monad.

Lemma bind_inr {A B} (c : M A) (k : A -> M B) (b : B) :
  bind c k = inr b -> exists a, c = inr a /\ k a = inr b.
Proof.
  destruct c as [e|a]; simpl; intros H; [discriminate H |].
  exists a. split; [reflexivity | exact H].
Qed.

Lemma bind_ret {A B} (a : A) (k : A -> M B) : bind (inr a) k = k a.
Proof. reflexivity. Qed.

Lemma bind_throw {A B} (e : Exn) (k : A -> M B) : bind (inl e) k = inl e.
Proof. reflexivity. Qed.

Lemma inr_injective {A B} (x y : B) : @inr A B x = inr y -> x = y.
Proof. intros H. injection H. trivial. Qed.

Lemma inl_injective {A B} (x y : A) : @inl A B x = inl y -> x = y.
Proof. intros H. injection H. trivial. Qed.

End Monad.

(** Opens every [bind] of a hypothesis [H : ... = inr _], newest result
    last, and rewrites the final [ret]. *)
Ltac open_binds H :=
  repeat match type of H with
         | bind _ _ = inr _ =>
             let a := fresh "a" in
             let Ha := fresh "Ha" in
             apply bind_inr in H; destruct H as [a [Ha H]]
         end;
  try (apply inr_injective in H).

Tactic Notation "step" hyp(H) "as" ident(x) ident(Hx) :=
  apply bind_inr in H; destruct H as [x [Hx H]].

Ltac unfold_operation :=
  unfold getBalance, createPaymentRequest, checkPaymentStatus, sendMoney,
         getStatement, checkWallet, getOutstandingTransactions.

Section Signing.

Lemma base64_nonempty (l : list Octets.octet) :
  l <> [] -> Octets.base64 l <> "".
Proof.
  destruct l as [|a [|b [|c rest]]]; intros H E;
    [apply H; reflexivity | discriminate E ..].
Qed.

Lemma octetsOfChain_length (c : Octets.chain) :
  List.length (Octets.octetsOfChain c) = 32%nat.
Proof. reflexivity. Qed.

Lemma sha256_length (msg : list Octets.octet) :
  List.length (Octets.sha256 msg) = 32%nat.
Proof. unfold Octets.sha256. apply octetsOfChain_length. Qed.

Lemma hmacSha256_length (key msg : list Octets.octet) :
  List.length (Octets.hmacSha256 key msg) = 32%nat.
Proof. unfold Octets.hmacSha256. apply sha256_length. Qed.

Lemma randomBytes_length (n : nat) (g : Rng) :
  List.length (fst (randomBytes n g)) = n.
Proof. unfold randomBytes. simpl. rewrite length_map, length_seq. reflexivity. Qed.

Lemma nonempty_of_length {A} (l : list A) (n : nat) :
  List.length l = S n -> l <> [].
Proof. destruct l; simpl; congruence. Qed.

(** A salt is the base64 form of thirty-two octets: never empty. *)
Lemma generateSalt_nonempty (g : Rng) : fst (generateSalt g) <> "".
Proof.
  unfold generateSalt.
  pose proof (randomBytes_length 32 g) as Hlen.
  destruct (randomBytes 32 g) as [bytes g']. simpl in *.
  apply base64_nonempty. apply (nonempty_of_length _ 31). exact Hlen.
Qed.

(** Neither is a signature. *)
Lemma generateVerificationHash_nonempty this hashToken parameters hash :
  generateVerificationHash this hashToken parameters = inr hash -> hash <> "".
Proof.
  unfold generateVerificationHash, bind, ret.
  destruct (queryString parameters) as [e|qs]; intros H; [discriminate H |].
  apply inr_injective in H. rewrite <- H.
  apply base64_nonempty.
  apply (nonempty_of_length _ 31). apply hmacSha256_length.
Qed.

Lemma ToBoolean_VString (s : string) : s <> "" -> ToBoolean (VString s) = true.
Proof.
  intros H. simpl. destruct (String.eqb_spec s ""); [contradiction | reflexivity].
Qed.

(** The verifier accepts whatever headers give it a salt and the signature
    computed with that salt. *)
Lemma verifyResponse_accepts this headers fields salt hash :
  or (get headers "x-signature-hash") (get headers "X-Signature-Hash") = VString hash ->
  or (get headers "x-signature-salt") (get headers "X-Signature-Salt") = VString salt ->
  salt <> "" ->
  generateVerificationHash this (salt ++ password this) fields = inr hash ->
  verifyResponse this headers fields = inr tt.
Proof.
  intros Hh Hs Hsalt Hsig.
  unfold verifyResponse. rewrite Hh, Hs.
  rewrite (ToBoolean_VString hash (generateVerificationHash_nonempty _ _ _ _ Hsig)).
  rewrite (ToBoolean_VString salt Hsalt). simpl.
  rewrite Hsig. simpl. rewrite String.eqb_refl. reflexivity.
Qed.

Lemma signedHeaders_hash this salt hash :
  or (get (signedHeaders this salt hash) "x-signature-hash")
     (get (signedHeaders this salt hash) "X-Signature-Hash") = VString hash.
Proof. reflexivity. Qed.

Lemma signedHeaders_salt this salt hash :
  or (get (signedHeaders this salt hash) "x-signature-salt")
     (get (signedHeaders this salt hash) "X-Signature-Salt") = VString salt.
Proof. reflexivity. Qed.

(** What [signedRequest] yields when it yields a request. *)
Lemma signedRequest_inr this env endpoint parameters request :
  signedRequest this env endpoint parameters = inr request ->
  exists hash,
    generateVerificationHash this
      (fst (generateSalt (rng env)) ++ password this) parameters = inr hash
    /\ request = {| url := baseUrl this ++ endpoint;
                    method := "POST";
                    requestHeaders :=
                      signedHeaders this (fst (generateSalt (rng env))) hash;
                    body := parameters |}.
Proof.
  unfold signedRequest.
  destruct (generateSalt (rng env)) as [salt g']. simpl.
  destruct (generateVerificationHash this (salt ++ password this) parameters)
    as [e|hash]; simpl; intros H; [discriminate H |].
  apply inr_injective in H. rewrite <- H.
  exists hash. split; reflexivity.
Qed.

Lemma ToString_scalar (v : Value) : isScalar v -> exists s, ToString v = inr s.
Proof.
  destruct v; simpl; intros H; try contradiction; eexists; reflexivity.
Qed.

Lemma pair_scalar (kv : string * Value) :
  isScalar (snd kv) -> exists s, pair kv = inr s.
Proof.
  destruct kv as [k v]. simpl. intros H. unfold pair.
  destruct (isNullish v).
  - eexists. reflexivity.
  - destruct (ToString_scalar v H) as [s Hs]. rewrite Hs. eexists. reflexivity.
Qed.

Lemma mapM_inr {A B} (f : A -> M B) (l : list A) :
  Forall (fun a => exists b, f a = inr b) l -> exists bs, mapM f l = inr bs.
Proof.
  induction 1 as [|a l [b Hb] _ [bs Hbs]]; simpl.
  - eexists. reflexivity.
  - rewrite Hb, bind_ret, Hbs. eexists. reflexivity.
Qed.

Lemma get_scalar (o : Obj) (k : string) : scalarValued o -> isScalar (get o k).
Proof.
  intros Ho. unfold get. destruct (lookup k o) as [v|] eqn:E; [| exact I].
  apply lookup_Some_In in E. unfold scalarValued in Ho. rewrite Forall_forall in Ho.
  exact (Ho _ E).
Qed.

Lemma replace_scalar (o : Obj) (k : string) (v : Value) :
  scalarValued o -> isScalar v -> scalarValued (replace k v o).
Proof.
  unfold scalarValued.
  induction 1 as [|[k' v'] o Hv' Ho IH]; simpl; intros Hv.
  - constructor.
  - destruct (String.eqb k k'); constructor; simpl; auto.
Qed.

Lemma insertIndex_scalar (i : Z) (o : Obj) (k : string) (v : Value) :
  scalarValued o -> isScalar v -> scalarValued (insertIndex i k v o).
Proof.
  unfold scalarValued.
  induction 1 as [|[k' v'] o Hv' Ho IH]; simpl; intros Hv.
  - repeat constructor. exact Hv.
  - destruct (arrayIndex k') as [j|]; [destruct (i <? j) |];
    repeat (constructor; simpl; auto).
Qed.

Lemma assign_scalar (o : Obj) (k : string) (v : Value) :
  scalarValued o -> isScalar v -> scalarValued (assign o k v).
Proof.
  intros Ho Hv. unfold assign, defineOwn.
  destruct (String.eqb k "__proto__"); [exact Ho |].
  destruct (lookup k o).
  - apply replace_scalar; assumption.
  - destruct (arrayIndex k).
    + apply insertIndex_scalar; assumption.
    + apply Forall_app. split; [exact Ho | repeat constructor; exact Hv].
Qed.

Lemma sortedParams_scalar (parameters : Obj) :
  scalarValued parameters -> scalarValued (sortedParams parameters).
Proof.
  intros Hp. unfold sortedParams.
  assert (H : forall L acc, scalarValued acc ->
            scalarValued (fold_left (fun obj key => assign obj key (get parameters key)) L acc)).
  { induction L as [|k L IH]; simpl; intros acc Hacc.
    - exact Hacc.
    - apply IH. apply assign_scalar; [exact Hacc | apply get_scalar; exact Hp]. }
  apply H. constructor.
Qed.

(** Signing a map of scalars always produces a request. *)
Lemma signedRequest_scalar this env endpoint parameters :
  scalarValued parameters ->
  exists request, signedRequest this env endpoint parameters = inr request.
Proof.
  intros Hp. unfold signedRequest.
  destruct (generateSalt (rng env)) as [salt g'].
  unfold generateHashToken. simpl ToString. rewrite !bind_ret.
  unfold generateVerificationHash, queryString, entries.
  destruct (mapM_inr pair (sortedParams parameters)) as [parts Hparts].
  { apply sortedParams_scalar in Hp. unfold scalarValued in Hp.
    eapply Forall_impl; [| exact Hp]. intros kv. apply pair_scalar. }
  rewrite Hparts, !bind_ret. eexists. reflexivity.
Qed.

End Signing.

(* ===================================================================== *)
(** ** The claims                                                        *)
(* ===================================================================== *)

(** C1.  Round trip of the signer and the verifier, for every parameter
    map, password and secret key: whenever the first three statements of
    [sendRequest] (generateSalt, generateHashToken,
    generateVerificationHash) sign a parameter map, [verifyResponse], given
    the headers that carry that salt and signature and the same map as the
    response fields, returns without an error.  This holds for the headers
    under the names the client writes (X-Signature-Salt, X-Signature-Hash)
    and under their lowercase forms.  Signing does produce such headers for
    every map of scalars. *)
Theorem C1_sign_then_verify this env endpoint parameters :
  (forall request,
      signedRequest this env endpoint parameters = inr request ->
      verifyResponse this (requestHeaders request) parameters = inr tt
      /\ verifyResponse this
           (literal [ ("x-signature-salt", get (requestHeaders request) "X-Signature-Salt");
                      ("x-signature-hash", get (requestHeaders request) "X-Signature-Hash") ])
           parameters = inr tt)
  /\ (scalarValued parameters ->
      exists request, signedRequest this env endpoint parameters = inr request).
Proof.
  split; [| apply signedRequest_scalar].
  intros request H.
  apply signedRequest_inr in H. destruct H as [hash [Hsig ->]]. simpl.
  split.
  - eapply verifyResponse_accepts.
    + apply signedHeaders_hash.
    + apply signedHeaders_salt.
    + apply generateSalt_nonempty.
    + exact Hsig.
  - eapply verifyResponse_accepts with (salt := fst (generateSalt (rng env))) (hash := hash).
    + pose proof (generateVerificationHash_nonempty _ _ _ _ Hsig) as Hne.
      change (or (VString hash) VUndefined = VString hash).
      unfold or. rewrite (ToBoolean_VString hash Hne). reflexivity.
    + change (or (VString (fst (generateSalt (rng env)))) VUndefined
              = VString (fst (generateSalt (rng env)))).
      unfold or. rewrite (ToBoolean_VString _ (generateSalt_nonempty (rng env))). reflexivity.
    + apply generateSalt_nonempty.
    + exact Hsig.
Qed.

Lemma C1_sign_then_verify_witness :
  exists request,
    signedRequest demoClient offline "/info/balance" demoParameters = inr request
    /\ verifyResponse demoClient (requestHeaders request) demoParameters = inr tt.
Proof.
  destruct (signedRequest demoClient offline "/info/balance" demoParameters)
    as [e|request] eqn:E.
  - exfalso. vm_compute in E. discriminate E.
  - exists request. split; [reflexivity |].
    exact (proj1 (proj1 (C1_sign_then_verify _ _ _ _) _ E)).
Defined.

(** The same signature, as Node prints it. *)
Example signature_of_the_scenario :
  generateVerificationHash demoClient "Sp" demoParameters
  = inr "RHZM6/DpI3BmAVe77XPFMZYu93EseFGR20wV+mlxPWI=".
Proof. vm_compute. reflexivity. Qed.

(** *** Canonical query string *)

Section Canonical.

Lemma fold_assign_plain (g : string -> Value) (L : list string) (acc : Obj) :
  NoDup L ->
  (forall k, In k L -> plainKey k /\ lookup k acc = None) ->
  fold_left (fun obj key => assign obj key (g key)) L acc
  = acc ++ map (fun k => (k, g k)) L.
Proof.
  revert acc. induction L as [|k L IH]; simpl; intros acc Hnd Hall.
  - rewrite app_nil_r. reflexivity.
  - inversion Hnd as [|? ? Hfresh Hnd']; subst.
    destruct (Hall k (or_introl eq_refl)) as [[Hidx Hproto] Hk].
    assert (Hstep : assign acc k (g k) = acc ++ [(k, g k)]).
    { unfold assign, defineOwn.
      destruct (String.eqb_spec k "__proto__") as [E|_]; [contradiction |].
      rewrite Hk, Hidx. reflexivity. }
    rewrite Hstep, IH.
    + rewrite <- app_assoc. reflexivity.
    + exact Hnd'.
    + intros k' Hin. destruct (Hall k' (or_intror Hin)) as [Hplain Hk'].
      split; [exact Hplain |].
      apply lookup_app_fresh; [exact Hk' |].
      intros ->. contradiction.
Qed.

Lemma sortedParams_plain (parameters : Obj) :
  NoDup (keys parameters) ->
  (forall k, In k (keys parameters) -> plainKey k) ->
  sortedParams parameters
  = map (fun k => (k, get parameters k)) (sort (keys parameters)).
Proof.
  intros Hnd Hplain. unfold sortedParams.
  rewrite fold_assign_plain.
  - reflexivity.
  - eapply Permutation_NoDup; [apply sort_Permutation | exact Hnd].
  - intros k Hin. split; [| reflexivity].
    apply Hplain. eapply Permutation_in; [symmetry; apply sort_Permutation | exact Hin].
Qed.

Lemma fold_assign_ext (g1 g2 : string -> Value) (L : list string) (acc : Obj) :
  (forall k, g1 k = g2 k) ->
  fold_left (fun obj key => assign obj key (g1 key)) L acc
  = fold_left (fun obj key => assign obj key (g2 key)) L acc.
Proof.
  intros Hext. revert acc. induction L as [|k L IH]; simpl; intros acc.
  - reflexivity.
  - rewrite Hext. apply IH.
Qed.

(** The sorted copy of a parameter map depends on its properties only,
    not on the order they were defined in. *)
Lemma sortedParams_Permutation (o1 o2 : Obj) :
  NoDup (keys o1) -> Permutation o1 o2 -> sortedParams o1 = sortedParams o2.
Proof.
  intros Hnd Hp. unfold sortedParams.
  rewrite (sort_Permutation_eq (keys o1) (keys o2)).
  - apply fold_assign_ext. intros k. apply get_Permutation; assumption.
  - unfold keys. apply Permutation_map. exact Hp.
Qed.

End Canonical.

(** C3.  The code at the parameter map {"9": "a", "10": "b"}.  The keys
    sorted ascending by code unit are "10", "9", and the claim's query
    string is "10=b&9=a".  [generateVerificationHash] sorts the keys, but
    copies them into a fresh object and reads that object back: an object
    lists its array-index keys first, in numeric order, so the string fed
    to the HMAC is "9=a&10=b". *)
Theorem C3_query_string_on_index_keys :
  let parameters := literal [("9", VString "a"); ("10", VString "b")] in
  sort (keys parameters) = ["10"; "9"]
  /\ keys (sortedParams parameters) = ["9"; "10"]
  /\ queryString parameters = inr "9=a&10=b"
  /\ canonicalQueryString parameters = inr "10=b&9=a"
  /\ queryString parameters <> canonicalQueryString parameters.
Proof.
  vm_compute. repeat split. discriminate.
Qed.

(** Where the sorted order survives.  For every parameter map whose keys
    are neither array indices nor [__proto__] (every map the seven
    operations send or verify), the query string fed to the HMAC is formed
    by sorting the keys ascending by code unit and joining the entries as
    [key=value] with [&]; a null or absent (undefined) value serialises as
    [key=], and a string value is inserted verbatim, with no URL-encoding or
    escaping. *)
Lemma queryString_canonical_on_plain_keys parameters :
  NoDup (keys parameters) ->
  (forall k, In k (keys parameters) -> plainKey k) ->
  queryString parameters = canonicalQueryString parameters
  /\ Sorted ascending (sort (keys parameters))
  /\ Permutation (keys parameters) (sort (keys parameters))
  /\ (forall k, pair (k, VNull) = inr (k ++ "=")%string)
  /\ (forall k, pair (k, VUndefined) = inr (k ++ "=")%string)
  /\ (forall k s, pair (k, VString s) = inr (k ++ "=" ++ s)%string)
  /\ (forall k x, pair (k, VNumber x) = inr (k ++ "=" ++ Num.toString x)%string)
  /\ (forall k b, pair (k, VBoolean b)
                  = inr (k ++ "=" ++ (if b then "true" else "false"))%string).
Proof.
  intros Hnd Hplain. repeat split.
  - unfold queryString, canonicalQueryString, entries.
    rewrite sortedParams_plain by assumption. reflexivity.
  - apply sort_Sorted.
  - apply sort_Permutation.
Qed.

Example queryString_of_unsorted_parameters :
  queryString (literal [ ("b", VString "x&y=z"); ("a", VNull); ("B", VUndefined) ])
  = inr "B=&a=&b=x&y=z".
Proof.
  destruct (queryString_canonical_on_plain_keys
              (literal [ ("b", VString "x&y=z"); ("a", VNull); ("B", VUndefined) ]))
    as [H _].
  - vm_compute. repeat constructor; simpl; intuition discriminate.
  - intros k Hin. vm_compute in Hin.
    destruct Hin as [<-|[<-|[<-|[]]]]; (split; [vm_compute; reflexivity | discriminate]).
  - rewrite H. vm_compute. reflexivity.
Qed.

(** *** The signature formula *)

(** The signature is the base64 form of the HMAC-SHA256, under the secret
    key, of the salt, the password and the query string, in that order. *)
Lemma signature_is_hmac_of_token_and_queryString this salt password parameters :
  (hashToken <- generateHashToken salt password ;;
   generateVerificationHash this hashToken parameters)
  = (s <- ToString salt ;;
     qs <- queryString parameters ;;
     ret (Octets.base64
            (Octets.hmacSha256 (Octets.utf8 (secretKey this))
                               (Octets.utf8 ((s ++ password) ++ qs)%string)))).
Proof.
  unfold generateHashToken, generateVerificationHash, bind, ret.
  destruct (ToString salt) as [e|s]; reflexivity.
Qed.

(** With the canonical query string of the specification, the formula of
    C2 holds on every map whose keys are neither array indices nor
    [__proto__]. *)
Lemma signature_formula_on_plain_keys this (salt password : string) parameters :
  NoDup (keys parameters) ->
  (forall k, In k (keys parameters) -> plainKey k) ->
  (hashToken <- generateHashToken (VString salt) password ;;
   generateVerificationHash this hashToken parameters)
  = (qs <- canonicalQueryString parameters ;;
     ret (Octets.base64
            (Octets.hmacSha256 (Octets.utf8 (secretKey this))
                               (Octets.utf8 ((salt ++ password) ++ qs)%string)))).
Proof.
  intros Hnd Hplain. rewrite signature_is_hmac_of_token_and_queryString.
  cbn [ToString]. rewrite bind_ret.
  destruct (queryString_canonical_on_plain_keys parameters Hnd Hplain) as [-> _].
  reflexivity.
Qed.

(** The scenario of the specification: salt "S", password "p", secret key
    "k" and the parameters {balance: 100, response_timestamp:
    1700000000000}. *)
Example signature_formula_of_the_scenario :
  forall apiKey baseUrl language,
    let this := NewClient apiKey "k" "p" baseUrl language in
    generateHashToken (VString "S") (password this) = inr "Sp"
    /\ generateVerificationHash this "Sp"
         (literal [ ("balance", VNumber (Num.ofZ 100));
                    ("response_timestamp", VNumber (Num.ofZ 1700000000000)) ])
       = inr (Octets.base64
                (Octets.hmacSha256
                   (Octets.utf8 "k")
                   (Octets.utf8 "Spbalance=100&response_timestamp=1700000000000"))).
Proof. intros apiKey baseUrl language. split; vm_compute; reflexivity. Qed.

(** C2.  The code at the parameter map {"9": "a", "10": "b"}, with salt
    "S", password "p" and secret key "k".  The formula of the claim gives
    base64(HMAC-SHA256("k", "Sp" + "10=b&9=a")), the canonical query string
    having the keys sorted by code unit.  [generateVerificationHash]
    returns base64(HMAC-SHA256("k", "Sp" + "9=a&10=b")): the key, the MAC
    and the hash token are those of the claim, the query string is not
    (the defect of C3). *)
Theorem C2_signature_on_index_keys :
  let this := NewClient "api-key" "k" "p" BaseUrl_PRODUCTION "en" in
  let parameters := literal [("9", VString "a"); ("10", VString "b")] in
  generateHashToken (VString "S") (password this) = inr "Sp"
  /\ generateVerificationHash this "Sp" parameters
     = inr (Octets.base64
              (Octets.hmacSha256 (Octets.utf8 "k") (Octets.utf8 "Sp9=a&10=b")))
  /\ (qs <- canonicalQueryString parameters ;;
      ret (Octets.base64
             (Octets.hmacSha256 (Octets.utf8 (secretKey this))
                                (Octets.utf8 ("Sp" ++ qs)%string))))
     = inr (Octets.base64
              (Octets.hmacSha256 (Octets.utf8 "k") (Octets.utf8 "Sp10=b&9=a")))
  /\ Octets.base64 (Octets.hmacSha256 (Octets.utf8 "k") (Octets.utf8 "Sp9=a&10=b"))
     <> Octets.base64 (Octets.hmacSha256 (Octets.utf8 "k") (Octets.utf8 "Sp10=b&9=a")).
Proof.
  vm_compute. repeat split. discriminate.
Qed.

(** C8.  Signing does not depend on the order in which the parameters are
    written: two association lists with distinct keys and the same pairs in
    different orders, written as object literals, get the same signature
    under the same hash token and secret key. *)
Theorem C8_order_independent this hashToken l1 l2 :
  NoDup (map fst l1) ->
  Permutation l1 l2 ->
  generateVerificationHash this hashToken (literal l1)
  = generateVerificationHash this hashToken (literal l2).
Proof.
  intros Hnd Hp.
  assert (Hnd2 : NoDup (map fst l2)).
  { eapply Permutation_NoDup; [apply Permutation_map; exact Hp | exact Hnd]. }
  unfold generateVerificationHash, queryString.
  rewrite (sortedParams_Permutation (literal l1) (literal l2)).
  - reflexivity.
  - apply literal_NoDup. exact Hnd.
  - rewrite <- (literal_Permutation l1 Hnd), <- (literal_Permutation l2 Hnd2). exact Hp.
Qed.

Lemma C8_order_independent_witness :
  generateVerificationHash demoClient "Sp"
    (literal [("b", VNumber (Num.ofZ 2)); ("a", VNumber (Num.ofZ 1))])
  = generateVerificationHash demoClient "Sp"
      (literal [("a", VNumber (Num.ofZ 1)); ("b", VNumber (Num.ofZ 2))]).
Proof.
  apply C8_order_independent.
  - simpl. repeat constructor; simpl; intuition discriminate.
  - apply perm_swap.
Defined.

(** *** Signature headers *)

Section Headers.

Lemma get_absent (o : Obj) (k : string) : lookup k o = None -> get o k = VUndefined.
Proof. intros H. unfold get. rewrite H. reflexivity. Qed.

Lemma get_present (o : Obj) (k : string) (v : Value) :
  lookup k o = Some v -> get o k = v.
Proof. intros H. unfold get. rewrite H. reflexivity. Qed.

(** The verifier stops at its first test when what it read for the hash,
    or for the salt, is falsy. *)
Lemma verifyResponse_missing this headers fields :
  ToBoolean (or (get headers "x-signature-hash") (get headers "X-Signature-Hash")) = false
  \/ ToBoolean (or (get headers "x-signature-salt") (get headers "X-Signature-Salt")) = false ->
  verifyResponse this headers fields = inl missingSignature.
Proof.
  intros H. unfold verifyResponse.
  destruct H as [H|H]; rewrite H; simpl.
  - reflexivity.
  - rewrite orb_true_r. reflexivity.
Qed.

(** A header that is absent or empty under both spellings reads as falsy. *)
Lemma or_falsy (headers : Obj) (lower upper : string) :
  (lookup lower headers = None \/ lookup lower headers = Some (VString "")) ->
  (lookup upper headers = None \/ lookup upper headers = Some (VString "")) ->
  ToBoolean (or (get headers lower) (get headers upper)) = false.
Proof.
  intros [Hl|Hl] [Hu|Hu];
    first [rewrite (get_absent _ _ Hl) | rewrite (get_present _ _ _ Hl)];
    first [rewrite (get_absent _ _ Hu) | rewrite (get_present _ _ _ Hu)];
    reflexivity.
Qed.

End Headers.

(** Called by hand with a table of its own making, [verifyResponse] reads
    two spellings of each name and no other.  No response gives such a
    table: the names [sendRequest] copies are in lower case (see
    [forEach_lowercase]). *)
Remark verifyResponse_reads_two_spellings :
  let signature := "RHZM6/DpI3BmAVe77XPFMZYu93EseFGR20wV+mlxPWI=" in
  verifyResponse demoClient
    (literal [ ("X-Signature-Salt", VString "S");
               ("X-Signature-Hash", VString signature) ]) demoParameters
  = inr tt
  /\ verifyResponse demoClient
       (literal [ ("X-SIGNATURE-SALT", VString "S");
                  ("X-SIGNATURE-HASH", VString signature) ]) demoParameters
     = inl missingSignature.
Proof. vm_compute. split; reflexivity. Qed.

(** C10.  A signature header that is present with the empty string as its
    value (under one of the spellings read, no other spelling giving it a
    value) makes [verifyResponse] raise the missing-signature error, the
    error of an absent header, and not a mismatch, whatever the response
    fields are.  More generally, whenever the salt or the hash that the
    verifier reads is the empty string, it raises that error at its first
    test: an empty salt or hash is never fed into the recomputation. *)
Theorem C10_empty_header_is_missing this headers fields :
  (presentButEmpty headers "x-signature-salt" "X-Signature-Salt"
   \/ presentButEmpty headers "x-signature-hash" "X-Signature-Hash" ->
   verifyResponse this headers fields = inl missingSignature
   /\ verifyResponse this headers fields <> inl hashMismatch)
  /\ (or (get headers "x-signature-salt") (get headers "X-Signature-Salt") = VString ""
      \/ or (get headers "x-signature-hash") (get headers "X-Signature-Hash") = VString "" ->
      verifyResponse this headers fields = inl missingSignature).
Proof.
  split.
  - intros H.
    assert (Hm : verifyResponse this headers fields = inl missingSignature).
    { apply verifyResponse_missing.
      destruct H as [H|H]; [right | left]; apply or_falsy;
        destruct H as [[Hl Hu]|[Hl Hu]]; tauto. }
    split; [exact Hm |]. rewrite Hm. discriminate.
  - intros H. apply verifyResponse_missing.
    destruct H as [H|H]; [right | left]; rewrite H; reflexivity.
Qed.

(** The fields of this witness have no string form: recomputing a signature
    over them would raise a TypeError. *)
Lemma C10_empty_header_is_missing_witness :
  let headers := literal [ ("x-signature-salt", VString "");
                           ("x-signature-hash", VString "c2ln") ] in
  let fields := literal [ ("balance", VObject [("toString", VNull)]) ] in
  queryString fields = inl TypeError
  /\ verifyResponse demoClient headers fields = inl missingSignature.
Proof.
  split.
  - vm_compute. reflexivity.
  - apply (proj1 (C10_empty_header_is_missing demoClient _ _)).
    left. left. split; [reflexivity | left; reflexivity].
Defined.

(** *** Construction *)

(** C9.  The code at the base URL "http://localhost:8080/banking/api/
    onlinewallet/v1".  The claim, the documentation of the constructor and
    the message of its error name STAGING and PRODUCTION as the only base
    URLs accepted.  The table [BaseUrl] has a third entry, DEV, and the
    constructor tests membership in the values of the table: it returns a
    client for the DEV URL, which is neither of the two. *)
Theorem C9_constructor_accepts_DEV :
  BaseUrl_DEV = "http://localhost:8080/banking/api/onlinewallet/v1"
  /\ constructor "api-key" "secret" "password" BaseUrl_DEV None
     = inr (NewClient "api-key" "secret" "password" BaseUrl_DEV "en")
  /\ BaseUrl_DEV <> BaseUrl_STAGING
  /\ BaseUrl_DEV <> BaseUrl_PRODUCTION.
Proof. vm_compute. repeat split; discriminate. Qed.

(** What the constructor does on every input: it fails with the
    configuration error exactly when the supplied baseUrl is not one of the
    three values of the table, and otherwise stores the credentials
    unchanged, the language defaulting to "en". *)
Lemma constructor_accepts_the_table apiKey secretKey password baseUrl language :
  (constructor apiKey secretKey password baseUrl language = inl invalidBaseUrl
   <-> ~ In baseUrl [BaseUrl_STAGING; BaseUrl_PRODUCTION; BaseUrl_DEV])
  /\ (In baseUrl [BaseUrl_STAGING; BaseUrl_PRODUCTION; BaseUrl_DEV] ->
      constructor apiKey secretKey password baseUrl language
      = inr (NewClient apiKey secretKey password baseUrl
               (match language with Some l => l | None => "en" end))).
Proof.
  unfold constructor.
  change (map snd BaseUrl) with [BaseUrl_STAGING; BaseUrl_PRODUCTION; BaseUrl_DEV].
  destruct (includes baseUrl [BaseUrl_STAGING; BaseUrl_PRODUCTION; BaseUrl_DEV]) eqn:E;
    unfold includes in E; simpl negb; cbv iota.
  - apply existsb_exists in E. destruct E as [x [Hin Heq]].
    apply String.eqb_eq in Heq. subst x.
    split; [split |]; [discriminate | tauto | reflexivity].
  - assert (Hnot : ~ In baseUrl [BaseUrl_STAGING; BaseUrl_PRODUCTION; BaseUrl_DEV]).
    { intros Hin. assert (Ht : existsb (String.eqb baseUrl)
                                 [BaseUrl_STAGING; BaseUrl_PRODUCTION; BaseUrl_DEV] = true).
      { apply existsb_exists. exists baseUrl. split; [exact Hin | apply String.eqb_refl]. }
      congruence. }
    split; [split |]; [intros _; exact Hnot | reflexivity | contradiction].
Qed.

Example constructor_of_the_scenario :
  constructor "api-key" "secret" "password" BaseUrl_STAGING (Some "ar")
  = inr (NewClient "api-key" "secret" "password" BaseUrl_STAGING "ar")
  /\ constructor "api-key" "secret" "password" "https://example.org" None
     = inl invalidBaseUrl.
Proof.
  split.
  - apply (proj2 (constructor_accepts_the_table
                    "api-key" "secret" "password" BaseUrl_STAGING (Some "ar"))).
    simpl. tauto.
  - apply (proj1 (constructor_accepts_the_table
                    "api-key" "secret" "password" "https://example.org" None)).
    simpl. intuition discriminate.
Qed.

(** *** Numeric fields of the records *)

Example fortyNinePointNine_bits :
  fortyNinePointNine = S754_finite false 7022800668930867 (-47)
  /\ Num.toString fortyNinePointNine = "49.9".
Proof. vm_compute. split; reflexivity. Qed.

(** C7, as the specification states it, fails: the constructor of
    PaymentStatus applies [parseFloat] to the amount with no test for null,
    and [parseFloat(null)] is NaN. *)
Lemma C7_counterexample :
  match PaymentStatus.new (VString "req-1") VNull VNull VNull VNull
                          (VString "order 7") (VBoolean false)
                          (VString "1700000000000") with
  | inr r => PaymentStatus.amount r = Num.NaN
  | inl _ => False
  end.
Proof. vm_compute. reflexivity. Qed.

(** C7, amended.  A numeric field given as the string "49.90" maps to the
    number 49.9 in every record variant: each numeric field is [parseFloat]
    of the value given, except that the amount and the balance of a
    StatementTransaction and of an OutstandingTransaction map null (and
    undefined) to null, never to 0 or NaN.  The other variants (Balance,
    PaymentRequest, PaymentStatus, SendMoneyResult, Statement,
    OutstandingTransactions) have no such test: there a null numeric field
    maps to NaN. *)
Theorem C7_numeric_fields :
  parseFloat (VString "49.90") = inr fortyNinePointNine
  /\ parseFloat VNull = inr Num.NaN
  /\ (forall b t r, Balance.new b t = inr r ->
        parseFloat b = inr (Balance.balance r))
  /\ (forall u i q a n t r, PaymentRequest.new u i q a n t = inr r ->
        parseFloat a = inr (PaymentRequest.amount r))
  /\ (forall i x a p n d s t r, PaymentStatus.new i x a p n d s t = inr r ->
        parseFloat a = inr (PaymentStatus.amount r))
  /\ (forall a f x ob nb s n t r, SendMoneyResult.new a f x ob nb s n t = inr r ->
        parseFloat a = inr (SendMoneyResult.amount r)
        /\ parseFloat f = inr (SendMoneyResult.senderFee r)
        /\ parseFloat ob = inr (SendMoneyResult.oldBalance r)
        /\ parseFloat nb = inr (SendMoneyResult.newBalance r))
  /\ (forall ab oc od db ti to t rows r, Statement.new ab oc od db ti to t rows = inr r ->
        parseFloat ab = inr (Statement.availableBalance r)
        /\ parseFloat oc = inr (Statement.outstandingCredit r)
        /\ parseFloat od = inr (Statement.outstandingDebit r)
        /\ parseFloat db = inr (Statement.dayBalance r)
        /\ parseFloat ti = inr (Statement.dayTotalIn r)
        /\ parseFloat to = inr (Statement.dayTotalOut r))
  /\ (forall oc od t rows r, OutstandingTransactions.new oc od t rows = inr r ->
        parseFloat oc = inr (OutstandingTransactions.outstandingCredit r)
        /\ parseFloat od = inr (OutstandingTransactions.outstandingDebit r))
  /\ (forall i d s c a b n o u k r,
        StatementTransaction.new i d s c a b n o u k = inr r ->
        StatementTransaction.numberOrNull a = inr (StatementTransaction.amount r)
        /\ StatementTransaction.numberOrNull b = inr (StatementTransaction.balance r))
  /\ (forall i d s c a b n o u k r,
        OutstandingTransaction.new i d s c a b n o u k = inr r ->
        OutstandingTransaction.numberOrNull a = inr (OutstandingTransaction.amount r)
        /\ OutstandingTransaction.numberOrNull b = inr (OutstandingTransaction.balance r))
  /\ StatementTransaction.numberOrNull VNull = inr None
  /\ StatementTransaction.numberOrNull VUndefined = inr None
  /\ StatementTransaction.numberOrNull (VString "49.90") = inr (Some fortyNinePointNine)
  /\ OutstandingTransaction.numberOrNull VNull = inr None
  /\ OutstandingTransaction.numberOrNull VUndefined = inr None
  /\ OutstandingTransaction.numberOrNull (VString "49.90") = inr (Some fortyNinePointNine).
Proof.
  split; [vm_compute; reflexivity |].
  split; [vm_compute; reflexivity |].
  split.
  { intros b t r H. unfold Balance.new in H. open_binds H. subst r. assumption. }
  split.
  { intros u i q a n t r H. unfold PaymentRequest.new in H. open_binds H.
    subst r. assumption. }
  split.
  { intros i x a p n d s t r H. unfold PaymentStatus.new in H. open_binds H.
    subst r. assumption. }
  split.
  { intros a f x ob nb s n t r H. unfold SendMoneyResult.new in H. open_binds H.
    subst r. repeat split; assumption. }
  split.
  { intros ab oc od db ti to t rows r H. unfold Statement.new in H. open_binds H.
    subst r. repeat split; assumption. }
  split.
  { intros oc od t rows r H. unfold OutstandingTransactions.new in H. open_binds H.
    subst r. repeat split; assumption. }
  split.
  { intros i d s c a b n o u k r H. unfold StatementTransaction.new in H.
    open_binds H. subst r. split; assumption. }
  split.
  { intros i d s c a b n o u k r H. unfold OutstandingTransaction.new in H.
    open_binds H. subst r. split; assumption. }
  repeat split; vm_compute; reflexivity.
Qed.

Lemma C7_numeric_fields_witness :
  match StatementTransaction.new (VString "tx-1") (VString "2025-06-22 10:00")
          (VString "1750586400000") (VString "transfer") (VString "49.90") VNull
          VNull (VNumber (Num.ofZ 1)) (VNumber (Num.ofZ 2)) (VString "2025-06-22") with
  | inr r => StatementTransaction.amount r = Some fortyNinePointNine
             /\ StatementTransaction.balance r = None
  | inl _ => False
  end.
Proof.
  destruct (StatementTransaction.new (VString "tx-1") (VString "2025-06-22 10:00")
              (VString "1750586400000") (VString "transfer") (VString "49.90") VNull
              VNull (VNumber (Num.ofZ 1)) (VNumber (Num.ofZ 2)) (VString "2025-06-22"))
    as [e|r] eqn:H.
  - vm_compute in H. discriminate H.
  - destruct C7_numeric_fields
      as (_ & _ & _ & _ & _ & _ & _ & _ & Hrow & _ & Hnull & _ & Hstring & _).
    destruct (Hrow _ _ _ _ _ _ _ _ _ _ _ H) as [Ha Hb].
    rewrite Hstring in Ha. rewrite Hnull in Hb.
    apply inr_injective in Ha. apply inr_injective in Hb.
    split; symmetry; assumption.
Defined.

(** *** The operations *)

Section Operations.

Variable this : Client.
Variable env : Env.

(** Whatever [sendRequest] raises, the operation raises. *)
Lemma perform_sendRequest_error call parameters e :
  parametersOf env call = inr parameters ->
  sendRequest this env (endpointOf call) parameters = inl e ->
  perform this env call = inl e.
Proof.
  intros Hp Hsend.
  destruct call; cbv [endpointOf parametersOf] in Hp, Hsend;
    try (step Hp as s Hs);
    apply inr_injective in Hp; subst parameters;
    unfold perform; unfold_operation; cbv zeta;
    try rewrite Hs; rewrite ?bind_ret; rewrite Hsend; reflexivity.
Qed.

(** A record comes out of an operation only through a successful
    [verifyResponse]. *)
Lemma perform_inr call record :
  perform this env call = inr record ->
  exists parameters result data fields,
    parametersOf env call = inr parameters
    /\ sendRequest this env (endpointOf call) parameters = inr result
    /\ getProperty (response result) "data" = inr data
    /\ pick data (signedResponseFields call) = inr fields
    /\ verifyResponse this (headers result) fields = inr tt.
Proof.
  intros H.
  destruct call; unfold perform in H; step H as r Hop; clear H;
    revert Hop; unfold_operation; cbv zeta; intros Hop;
    try match type of Hop with
        | bind (toStringMethod _) _ = _ => step Hop as s Hs
        end;
    step Hop as result Hsend; step Hop as data Hdata; step Hop as fields Hfields;
    step Hop as u Hverify; destruct u;
    eexists; exists result, data, fields;
    (split; [cbv [parametersOf]; try rewrite Hs; reflexivity |]);
    repeat split; assumption.
Qed.

(** A failed verification is the outcome of the operation. *)
Lemma perform_verify_error call parameters result data fields e :
  parametersOf env call = inr parameters ->
  sendRequest this env (endpointOf call) parameters = inr result ->
  getProperty (response result) "data" = inr data ->
  pick data (signedResponseFields call) = inr fields ->
  verifyResponse this (headers result) fields = inl e ->
  perform this env call = inl e.
Proof.
  intros Hp Hsend Hdata Hfields Hverify.
  destruct call; cbv [endpointOf parametersOf signedResponseFields] in Hp, Hsend, Hfields;
    try (step Hp as s Hs);
    apply inr_injective in Hp; subst parameters;
    unfold perform; unfold_operation; cbv zeta;
    try rewrite Hs; rewrite ?bind_ret; rewrite Hsend, bind_ret, Hdata, bind_ret,
      Hfields, bind_ret, Hverify; reflexivity.
Qed.

End Operations.

Example getBalance_of_the_scenario :
  getBalance demoClient balanceReply
  = inr {| Balance.balance := Num.ofZ 100;
           Balance.responseTime := NewDate (Num.ofZ 1700000000000) |}.
Proof. vm_compute. reflexivity. Qed.

(** *** The error envelope *)

(** C6, as the specification states it, fails in one respect: the error
    raised does not always carry the code and the message of the envelope.
    A falsy code (here the number 0) is replaced by UNKNOWN_CODE. *)
Lemma C6_counterexample :
  let env := answering (refusal (VNumber (Num.ofZ 0)) (VString "Insufficient funds")) [] in
  sendRequest demoClient env "/info/balance" (literal [("request_timestamp", timestamp env)])
  = inl (Error "GPay API Error (UNKNOWN_CODE): Insufficient funds")
  /\ Error "GPay API Error (UNKNOWN_CODE): Insufficient funds"
     <> Error "GPay API Error (0): Insufficient funds".
Proof. vm_compute. split; [reflexivity | discriminate]. Qed.

Section Envelope.

Variable this : Client.
Variable env : Env.

Lemma sendRequest_envelope endpoint parameters request reply body envelope :
  signedRequest this env endpoint parameters = inr request ->
  network env request = inr reply ->
  json reply = inr (VObject body) ->
  lookup "error" body = Some (VObject envelope) ->
  sendRequest this env endpoint parameters = inl (remoteError envelope).
Proof.
  intros Hreq Hnet Hjson Herr.
  unfold sendRequest. rewrite Hreq, bind_ret, Hnet, bind_ret. cbv zeta.
  rewrite Hjson, bind_ret.
  change (ToBoolean (VObject body)) with true. cbv [negb].
  change (getProperty (VObject body) "error") with (@ret Value (get body "error")).
  rewrite (get_present _ _ _ Herr).
  unfold ret at 1. rewrite bind_ret.
  change (ToBoolean (VObject envelope)) with true. cbv iota.
  change (getProperty (VObject envelope) "message")
    with (@ret Value (get envelope "message")).
  change (getProperty (VObject envelope) "code")
    with (@ret Value (get envelope "code")).
  unfold ret at 1. rewrite bind_ret. unfold ret at 1. rewrite bind_ret.
  unfold remoteError.
  destruct (ToString (or (get envelope "code") (VString "UNKNOWN_CODE"))) as [e|c];
    [reflexivity |].
  rewrite bind_ret.
  destruct (ToString (or (get envelope "message") (VString "Unknown error"))) as [e|m];
    reflexivity.
Qed.

Lemma remoteError_carries envelope code message :
  lookup "code" envelope = Some (VString code) -> code <> "" ->
  lookup "message" envelope = Some (VString message) -> message <> "" ->
  remoteError envelope = Error ("GPay API Error (" ++ code ++ "): " ++ message).
Proof.
  intros Hc Hcne Hm Hmne. unfold remoteError.
  rewrite (get_present _ _ _ Hc), (get_present _ _ _ Hm).
  unfold or. rewrite (ToBoolean_VString code Hcne), (ToBoolean_VString message Hmne).
  reflexivity.
Qed.

End Envelope.

(** C6, amended.  For every operation, if the parsed JSON response body is
    an object whose [error] property is an envelope {code, message},
    [sendRequest] raises an Error with the message
    "GPay API Error (<code>): <message>", where a falsy code (absent, null,
    0, empty, false) is replaced by UNKNOWN_CODE and a falsy message by
    "Unknown error" (a code or message without a string form raises a
    TypeError instead); a non-empty string code and message are carried as
    they are.  The operation ends with that same error whatever the response
    headers hold: the envelope test precedes [verifyResponse] and the
    construction of a record. *)
Theorem C6_error_envelope_first this env call parameters request reply body envelope :
  parametersOf env call = inr parameters ->
  signedRequest this env (endpointOf call) parameters = inr request ->
  network env request = inr reply ->
  json reply = inr (VObject body) ->
  lookup "error" body = Some (VObject envelope) ->
  sendRequest this env (endpointOf call) parameters = inl (remoteError envelope)
  /\ perform this env call = inl (remoteError envelope)
  /\ (forall code message,
         lookup "code" envelope = Some (VString code) -> code <> "" ->
         lookup "message" envelope = Some (VString message) -> message <> "" ->
         remoteError envelope = Error ("GPay API Error (" ++ code ++ "): " ++ message)).
Proof.
  intros Hp Hreq Hnet Hjson Herr.
  assert (Hsend : sendRequest this env (endpointOf call) parameters
                  = inl (remoteError envelope)).
  { eapply sendRequest_envelope; eassumption. }
  split; [exact Hsend |].
  split; [eapply perform_sendRequest_error; eassumption |].
  apply remoteError_carries.
Qed.

Lemma C6_error_envelope_first_witness :
  perform demoClient
    (answering (refusal (VString "E42") (VString "Insufficient funds"))
               [ ("x-signature-salt", "S"); ("x-signature-hash", "bm9uZQ==") ])
    GetBalance
  = inl (Error "GPay API Error (E42): Insufficient funds").
Proof.
  set (env := answering (refusal (VString "E42") (VString "Insufficient funds"))
                        [ ("x-signature-salt", "S"); ("x-signature-hash", "bm9uZQ==") ]).
  destruct (signedRequest demoClient env (endpointOf GetBalance)
              (literal [("request_timestamp", timestamp env)])) as [e|request] eqn:E.
  - exfalso. vm_compute in E. discriminate E.
  - destruct (C6_error_envelope_first demoClient env GetBalance
                (literal [("request_timestamp", timestamp env)]) request
                {| json := ret (refusal (VString "E42") (VString "Insufficient funds"));
                   replyHeaders := [ ("x-signature-salt", "S");
                                     ("x-signature-hash", "bm9uZQ==") ];
                   status := 200 |}
                [ ("error", VObject [ ("code", VString "E42");
                                      ("message", VString "Insufficient funds") ]) ]
                [ ("code", VString "E42"); ("message", VString "Insufficient funds") ]
                eq_refl E eq_refl eq_refl eq_refl) as (_ & Hperform & Hcarries).
    rewrite Hperform.
    rewrite (Hcarries "E42" "Insufficient funds");
      [reflexivity | reflexivity | discriminate | reflexivity | discriminate].
Defined.

(* ===================================================================== *)
(** ** Further properties of the client                                  *)
(* ===================================================================== *)

Section ObjectReads.

Lemma lookup_replace (k k' : string) (v : Value) (o : Obj) :
  lookup k (replace k' v o)
  = if String.eqb k k' then match lookup k' o with Some _ => Some v | None => None end
    else lookup k o.
Proof.
  induction o as [|[k0 v0] o IH]; simpl.
  - destruct (String.eqb k k'); reflexivity.
  - destruct (String.eqb_spec k' k0) as [->|Hne]; simpl.
    + destruct (String.eqb k k0); reflexivity.
    + rewrite IH. destruct (String.eqb_spec k k') as [->|Hkk'].
      * destruct (String.eqb_spec k' k0); [contradiction | reflexivity].
      * reflexivity.
Qed.

Lemma lookup_insertIndex (k k' : string) (i : Z) (v : Value) (o : Obj) :
  lookup k' o = None ->
  lookup k (insertIndex i k' v o) = if String.eqb k k' then Some v else lookup k o.
Proof.
  induction o as [|[k0 v0] o IH]; simpl; intros Hfresh.
  - reflexivity.
  - destruct (String.eqb_spec k' k0) as [->|Hne]; [discriminate Hfresh |].
    destruct (arrayIndex k0) as [j|]; [destruct (i <? j) |]; simpl; try reflexivity.
    rewrite (IH Hfresh).
    destruct (String.eqb_spec k k0) as [->|Hk0]; [| reflexivity].
    destruct (String.eqb_spec k0 k'); [congruence | reflexivity].
Qed.

Lemma lookup_app_new (k k' : string) (v : Value) (o : Obj) :
  lookup k' o = None ->
  lookup k (o ++ [(k', v)]) = if String.eqb k k' then Some v else lookup k o.
Proof.
  induction o as [|[k0 v0] o IH]; simpl; intros Hfresh.
  - reflexivity.
  - destruct (String.eqb_spec k' k0) as [->|Hne]; [discriminate Hfresh |].
    rewrite (IH Hfresh).
    destruct (String.eqb_spec k k0) as [->|Hk0]; [| reflexivity].
    destruct (String.eqb_spec k0 k'); [congruence | reflexivity].
Qed.

(** Reading after defining: the key defined reads as the value given, every
    other key as before. *)
Lemma lookup_defineOwn (k k' : string) (v : Value) (o : Obj) :
  lookup k (defineOwn o k' v) = if String.eqb k k' then Some v else lookup k o.
Proof.
  unfold defineOwn. destruct (lookup k' o) as [v0|] eqn:E.
  - rewrite lookup_replace, E. reflexivity.
  - destruct (arrayIndex k').
    + apply lookup_insertIndex. exact E.
    + apply lookup_app_new. exact E.
Qed.

Lemma lookup_assign (k k' : string) (v : Value) (o : Obj) :
  lookup k (assign o k' v)
  = if String.eqb k' "__proto__" then lookup k o
    else if String.eqb k k' then Some v else lookup k o.
Proof.
  unfold assign. destruct (String.eqb k' "__proto__"); [reflexivity |].
  apply lookup_defineOwn.
Qed.

Lemma keys_replace (k : string) (v : Value) (o : Obj) : keys (replace k v o) = keys o.
Proof.
  induction o as [|[k0 v0] o IH]; simpl; [reflexivity |].
  destruct (String.eqb k k0); simpl; [reflexivity | rewrite IH; reflexivity].
Qed.

(** Defining a property keeps the keys of an object distinct. *)
Lemma defineOwn_NoDup (o : Obj) (k : string) (v : Value) :
  NoDup (keys o) -> NoDup (keys (defineOwn o k v)).
Proof.
  intros Hnd. destruct (lookup k o) as [v0|] eqn:E.
  - unfold defineOwn. rewrite E, keys_replace. exact Hnd.
  - eapply Permutation_NoDup.
    + exact (Permutation_map fst (defineOwn_fresh o k v E)).
    + simpl. constructor; [apply lookup_None; exact E | exact Hnd].
Qed.

Lemma assign_NoDup (o : Obj) (k : string) (v : Value) :
  NoDup (keys o) -> NoDup (keys (assign o k v)).
Proof.
  intros Hnd. unfold assign. destruct (String.eqb k "__proto__"); [exact Hnd |].
  apply defineOwn_NoDup. exact Hnd.
Qed.

Lemma get_In (o : Obj) (k : string) :
  In k (keys o) -> lookup k o = Some (get o k).
Proof.
  intros Hin. unfold get. destruct (lookup k o) eqn:E; [reflexivity |].
  apply lookup_None in E. contradiction.
Qed.

(** What the fold of [sortedParams] holds, key by key. *)
Lemma lookup_fold_assign (g : string -> Value) (k : string) (L : list string) (acc : Obj) :
  k <> "__proto__" ->
  lookup k (fold_left (fun obj key => assign obj key (g key)) L acc)
  = if in_dec String.string_dec k L then Some (g k) else lookup k acc.
Proof.
  intros Hk. revert acc. induction L as [|k0 L IH]; simpl; intros acc.
  - reflexivity.
  - rewrite IH. destruct (in_dec String.string_dec k L) as [Hin|Hnot].
    + destruct (String.string_dec k0 k); reflexivity.
    + rewrite lookup_assign.
      destruct (String.string_dec k0 k) as [->|Hne].
      * destruct (String.eqb_spec k "__proto__"); [contradiction |].
        rewrite String.eqb_refl. reflexivity.
      * destruct (String.eqb k0 "__proto__"); [reflexivity |].
        destruct (String.eqb_spec k k0); [congruence | reflexivity].
Qed.

Lemma lookup_fold_assign_proto (g : string -> Value) (L : list string) (acc : Obj) :
  lookup "__proto__" (fold_left (fun obj key => assign obj key (g key)) L acc)
  = lookup "__proto__" acc.
Proof.
  revert acc. induction L as [|k0 L IH]; simpl; intros acc; [reflexivity |].
  rewrite IH, lookup_assign.
  destruct (String.eqb_spec k0 "__proto__") as [->|Hne]; [reflexivity |].
  destruct (String.eqb_spec "__proto__" k0); [congruence | reflexivity].
Qed.

Lemma fold_assign_NoDup (g : string -> Value) (L : list string) (acc : Obj) :
  NoDup (keys acc) ->
  NoDup (keys (fold_left (fun obj key => assign obj key (g key)) L acc)).
Proof.
  revert acc. induction L as [|k0 L IH]; simpl; intros acc Hnd; [exact Hnd |].
  apply IH. apply assign_NoDup. exact Hnd.
Qed.

End ObjectReads.

(** X1.  The sorted copy that [generateVerificationHash] signs holds the
    properties of the parameter map and nothing else: every key other than
    [__proto__] reads in the copy as it reads in the map, [__proto__] is
    never a property of the copy, and the keys of the copy are distinct. *)
Theorem sortedParams_same_properties parameters :
  (forall k, k <> "__proto__" ->
             lookup k (sortedParams parameters) = lookup k parameters)
  /\ lookup "__proto__" (sortedParams parameters) = None
  /\ NoDup (keys (sortedParams parameters)).
Proof.
  unfold sortedParams. split; [| split].
  - intros k Hk. rewrite lookup_fold_assign by exact Hk.
    destruct (in_dec String.string_dec k (sort (keys parameters))) as [Hin|Hnot].
    + symmetry. apply get_In.
      eapply Permutation_in; [symmetry; apply sort_Permutation | exact Hin].
    + simpl. symmetry. apply lookup_None. intros Hin. apply Hnot.
      eapply Permutation_in; [apply sort_Permutation | exact Hin].
  - rewrite lookup_fold_assign_proto. reflexivity.
  - apply fold_assign_NoDup. constructor.
Qed.

Lemma sortedParams_same_properties_witness :
  lookup "b" (sortedParams [("b", VNull); ("__proto__", VNull); ("7", VNull)]) = Some VNull.
Proof.
  rewrite (proj1 (sortedParams_same_properties _) "b"); [reflexivity | discriminate].
Defined.

Section ValueMaps.

Variable f : Value -> Value.

Lemma keys_mapValues (o : Obj) : keys (mapValues f o) = keys o.
Proof.
  unfold keys, mapValues. rewrite map_map. reflexivity.
Qed.

Lemma lookup_mapValues (k : string) (o : Obj) :
  lookup k (mapValues f o) = option_map f (lookup k o).
Proof.
  induction o as [|[k0 v0] o IH]; simpl; [reflexivity |].
  destruct (String.eqb k k0); [reflexivity | exact IH].
Qed.

Lemma replace_mapValues (k : string) (v : Value) (o : Obj) :
  replace k (f v) (mapValues f o) = mapValues f (replace k v o).
Proof.
  induction o as [|[k0 v0] o IH]; simpl; [reflexivity |].
  destruct (String.eqb k k0); simpl; [reflexivity |].
  f_equal. exact IH.
Qed.

Lemma insertIndex_mapValues (i : Z) (k : string) (v : Value) (o : Obj) :
  insertIndex i k (f v) (mapValues f o) = mapValues f (insertIndex i k v o).
Proof.
  induction o as [|[k0 v0] o IH]; simpl; [reflexivity |].
  destruct (arrayIndex k0) as [j|]; [destruct (i <? j) |]; simpl; try reflexivity.
  f_equal. exact IH.
Qed.

Lemma assign_mapValues (k : string) (v : Value) (o : Obj) :
  assign (mapValues f o) k (f v) = mapValues f (assign o k v).
Proof.
  unfold assign. destruct (String.eqb k "__proto__"); [reflexivity |].
  unfold defineOwn. rewrite lookup_mapValues.
  destruct (lookup k o); simpl.
  - apply replace_mapValues.
  - destruct (arrayIndex k).
    + apply insertIndex_mapValues.
    + unfold mapValues. rewrite map_app. reflexivity.
Qed.

Lemma get_mapValues (k : string) (o : Obj) :
  In k (keys o) -> get (mapValues f o) k = f (get o k).
Proof.
  intros Hin. unfold get. rewrite lookup_mapValues, (get_In o k Hin). reflexivity.
Qed.

(** Sorting commutes with a change of the values: the place of a property
    in the sorted copy depends on the keys alone. *)
Lemma sortedParams_mapValues (parameters : Obj) :
  sortedParams (mapValues f parameters) = mapValues f (sortedParams parameters).
Proof.
  unfold sortedParams. rewrite keys_mapValues.
  assert (H : forall L acc,
             (forall k, In k L -> In k (keys parameters)) ->
             fold_left (fun obj key => assign obj key (get (mapValues f parameters) key))
                       L (mapValues f acc)
             = mapValues f
                 (fold_left (fun obj key => assign obj key (get parameters key)) L acc)).
  { induction L as [|k L IH]; simpl; intros acc Hsub; [reflexivity |].
    rewrite get_mapValues by (apply Hsub; left; reflexivity).
    rewrite assign_mapValues. apply IH. intros k' Hin. apply Hsub. right. exact Hin. }
  apply (H (sort (keys parameters)) []).
  intros k Hin. eapply Permutation_in; [symmetry; apply sort_Permutation | exact Hin].
Qed.

End ValueMaps.

Section QueryStrings.

Lemma pair_emptied (k : string) (v : Value) : pair (k, emptied v) = pair (k, v).
Proof.
  destruct v; reflexivity.
Qed.

Lemma mapM_pair_emptied (o : Obj) : mapM pair (mapValues emptied o) = mapM pair o.
Proof.
  induction o as [|[k v] o IH]; [reflexivity |].
  cbn [mapValues map mapM fst snd]. fold (mapValues emptied o).
  rewrite pair_emptied, IH. reflexivity.
Qed.

Lemma string_app_assoc (a b c : string) : ((a ++ b) ++ c = a ++ (b ++ c))%string.
Proof.
  induction a as [|x a IH]; simpl; [reflexivity | rewrite IH; reflexivity].
Qed.

Lemma queryString_plain (parameters : Obj) :
  NoDup (keys parameters) ->
  (forall k, In k (keys parameters) -> plainKey k) ->
  queryString parameters
  = joined (map (fun k => (k, get parameters k)) (sort (keys parameters))).
Proof.
  intros Hnd Hplain. unfold queryString, joined, entries.
  rewrite sortedParams_plain by assumption. reflexivity.
Qed.

Lemma literal_one (k : string) (v : Value) : plainKey k -> literal [(k, v)] = [(k, v)].
Proof.
  intros [Hidx _]. unfold literal, defineOwn. simpl. rewrite Hidx. reflexivity.
Qed.

Lemma literal_two (k1 k2 : string) (v1 v2 : Value) :
  plainKey k1 -> plainKey k2 -> k1 <> k2 ->
  literal [(k1, v1); (k2, v2)] = [(k1, v1); (k2, v2)].
Proof.
  intros [Hi1 _] [Hi2 _] Hne. unfold literal, defineOwn. simpl. rewrite Hi1. simpl.
  destruct (String.eqb_spec k2 k1); [congruence |]. rewrite Hi2. reflexivity.
Qed.

End QueryStrings.

(** X2.  A null value, an undefined value and the empty string are signed
    alike: replacing every null and undefined value of a parameter map by
    the empty string changes neither the query string nor the signature. *)
Theorem null_undefined_and_empty_sign_alike this hashToken parameters :
  queryString (mapValues emptied parameters) = queryString parameters
  /\ generateVerificationHash this hashToken (mapValues emptied parameters)
     = generateVerificationHash this hashToken parameters.
Proof.
  assert (H : queryString (mapValues emptied parameters) = queryString parameters).
  { unfold queryString, entries.
    rewrite sortedParams_mapValues, mapM_pair_emptied. reflexivity. }
  split; [exact H |]. unfold generateVerificationHash. rewrite H. reflexivity.
Qed.

(** X3.  The query string does not delimit its values: a one-entry map
    whose value reads [v1&k2=v2] and the two-entry map {k1: v1, k2: v2}
    have the same query string and so the same signature, for every client
    and hash token. *)
Theorem unescaped_values_collide this hashToken k1 k2 v1 v2 :
  plainKey k1 -> plainKey k2 -> k1 <> k2 -> String.leb k1 k2 = true ->
  generateVerificationHash this hashToken
    (literal [(k1, VString (v1 ++ "&" ++ k2 ++ "=" ++ v2))])
  = generateVerificationHash this hashToken
      (literal [(k1, VString v1); (k2, VString v2)]).
Proof.
  intros Hp1 Hp2 Hne Hle.
  rewrite (literal_one _ _ Hp1), (literal_two _ _ _ _ Hp1 Hp2 Hne).
  unfold generateVerificationHash.
  rewrite !queryString_plain.
  - simpl. rewrite Hle. unfold joined, get. simpl.
    rewrite !String.eqb_refl.
    destruct (String.eqb_spec k2 k1); [congruence |].
    simpl. rewrite ?String.eqb_refl. simpl.
    rewrite ?string_app_assoc. simpl. rewrite ?string_app_assoc. reflexivity.
  - simpl. constructor; [simpl; intuition congruence | repeat constructor; simpl; tauto].
  - simpl. intros k [<-|[<-|[]]]; assumption.
  - simpl. repeat constructor. simpl. tauto.
  - simpl. intros k [<-|[]]. assumption.
Qed.

Lemma unescaped_values_collide_witness :
  generateVerificationHash demoClient "Sp"
    (literal [("amount", VString "1&description=x")])
  = generateVerificationHash demoClient "Sp"
      (literal [("amount", VString "1"); ("description", VString "x")]).
Proof.
  apply (unescaped_values_collide demoClient "Sp" "amount" "description" "1" "x").
  - split; [reflexivity | discriminate].
  - split; [reflexivity | discriminate].
  - discriminate.
  - reflexivity.
Defined.

Section Verifier.

Lemma strictEqString_true (a : string) (v : Value) :
  strictEqString a v = true <-> v = VString a.
Proof.
  destruct v; simpl; try (split; [discriminate | intros H; discriminate H]).
  split.
  - intros H. apply String.eqb_eq in H. subst. reflexivity.
  - intros H. inversion H. apply String.eqb_refl.
Qed.

Lemma verifyResponse_unfold this headers fields :
  verifyResponse this headers fields
  = if negb (ToBoolean (receivedHash headers)) || negb (ToBoolean (receivedSalt headers))
    then inl missingSignature
    else
      hashToken <- generateHashToken (receivedSalt headers) (password this) ;;
      verificationHash <- generateVerificationHash this hashToken fields ;;
      if negb (strictEqString verificationHash (receivedHash headers))
      then inl hashMismatch
      else inr tt.
Proof. reflexivity. Qed.

End Verifier.

(** X4.  [verifyResponse] returns exactly when the salt read from the
    headers is truthy and the hash read from them is the string that
    [generateVerificationHash] computes over the response fields with that
    salt and the client's password.  When both are read and the
    recomputation yields any other value than the hash read, it raises the
    mismatch error. *)
Theorem verifyResponse_returns_iff this headers fields :
  (verifyResponse this headers fields = inr tt
   <-> exists hashToken hash,
         ToBoolean (receivedSalt headers) = true
         /\ generateHashToken (receivedSalt headers) (password this) = inr hashToken
         /\ generateVerificationHash this hashToken fields = inr hash
         /\ receivedHash headers = VString hash)
  /\ (forall hashToken hash,
         ToBoolean (receivedHash headers) = true ->
         ToBoolean (receivedSalt headers) = true ->
         generateHashToken (receivedSalt headers) (password this) = inr hashToken ->
         generateVerificationHash this hashToken fields = inr hash ->
         receivedHash headers <> VString hash ->
         verifyResponse this headers fields = inl hashMismatch).
Proof.
  rewrite verifyResponse_unfold. split; [split |].
  - intros H.
    destruct (ToBoolean (receivedHash headers)) eqn:Hh; [| discriminate H].
    destruct (ToBoolean (receivedSalt headers)) eqn:Hs; [| discriminate H].
    cbn [negb orb] in H.
    step H as hashToken Htok. step H as hash Hsig.
    destruct (strictEqString hash (receivedHash headers)) eqn:Heq; [| discriminate H].
    apply strictEqString_true in Heq.
    exists hashToken, hash. repeat split; assumption.
  - intros (hashToken & hash & Hs & Htok & Hsig & Hh).
    rewrite Hh, Hs.
    rewrite (ToBoolean_VString hash (generateVerificationHash_nonempty _ _ _ _ Hsig)).
    cbn [negb orb]. rewrite Htok, bind_ret, Hsig, bind_ret.
    rewrite (proj2 (strictEqString_true hash (VString hash)) eq_refl). reflexivity.
  - intros hashToken hash Hh Hs Htok Hsig Hne.
    rewrite Hh, Hs. cbn [negb orb]. rewrite Htok, bind_ret, Hsig, bind_ret.
    destruct (strictEqString hash (receivedHash headers)) eqn:Heq; [| reflexivity].
    apply strictEqString_true in Heq. contradiction.
Qed.

Lemma verifyResponse_returns_iff_witness :
  verifyResponse demoClient
    (collected [ ("x-signature-salt", "S");
                 ("x-signature-hash", "RHZM6/DpI3BmAVe77XPFMZYu93EseFGR20wV+mlxPWI0") ])
    demoParameters
  = inl hashMismatch.
Proof.
  destruct (generateVerificationHash demoClient "Sp" demoParameters) as [e|hash] eqn:E.
  - exfalso. vm_compute in E. discriminate E.
  - apply (proj2 (verifyResponse_returns_iff demoClient _ demoParameters) "Sp" hash).
    + reflexivity.
    + reflexivity.
    + reflexivity.
    + exact E.
    + vm_compute in E. apply inr_injective in E. rewrite <- E.
      vm_compute. discriminate.
Defined.

Section Transport.

Variable this : Client.
Variable env : Env.

Lemma sendRequest_unfold endpoint parameters request reply body :
  signedRequest this env endpoint parameters = inr request ->
  network env request = inr reply ->
  json reply = inr body ->
  sendRequest this env endpoint parameters
  = if negb (ToBoolean body) then inl invalidResponse
    else
      error <- getProperty body "error" ;;
      if ToBoolean error then
        message <- getProperty error "message" ;;
        code <- getProperty error "code" ;;
        c <- ToString (or code (VString "UNKNOWN_CODE")) ;;
        m <- ToString (or message (VString "Unknown error")) ;;
        throw (Error ("GPay API Error (" ++ c ++ "): " ++ m))
      else
        ret {| response := body;
               headers := collected (replyHeaders reply);
               code := status reply |}.
Proof.
  intros Hreq Hnet Hjson. unfold sendRequest.
  rewrite Hreq, bind_ret, Hnet, bind_ret. cbv zeta. rewrite Hjson, bind_ret.
  reflexivity.
Qed.

(** A truthy value has properties to read. *)
Lemma getProperty_truthy (v : Value) (k : string) :
  ToBoolean v = true -> exists x, getProperty v k = inr x.
Proof.
  destruct v; simpl; intros H; try discriminate H; eexists; reflexivity.
Qed.

Lemma sendRequest_inr endpoint parameters result :
  sendRequest this env endpoint parameters = inr result ->
  exists request reply body error,
    signedRequest this env endpoint parameters = inr request
    /\ network env request = inr reply
    /\ json reply = inr body
    /\ ToBoolean body = true
    /\ getProperty body "error" = inr error
    /\ ToBoolean error = false
    /\ result = {| response := body;
                   headers := collected (replyHeaders reply);
                   code := status reply |}.
Proof.
  intros H.
  destruct (signedRequest this env endpoint parameters) as [e|request] eqn:Hreq;
    [unfold sendRequest in H; rewrite Hreq in H; discriminate H |].
  destruct (network env request) as [e|reply] eqn:Hnet;
    [unfold sendRequest in H; rewrite Hreq, bind_ret, Hnet in H; discriminate H |].
  destruct (json reply) as [e|body] eqn:Hjson;
    [unfold sendRequest in H; rewrite Hreq, bind_ret, Hnet, bind_ret in H;
     cbv zeta in H; rewrite Hjson in H; discriminate H |].
  rewrite (sendRequest_unfold _ _ _ _ _ Hreq Hnet Hjson) in H.
  destruct (ToBoolean body) eqn:Hb; [| discriminate H]. cbn [negb] in H.
  step H as error Herr.
  destruct (ToBoolean error) eqn:He.
  - exfalso. step H as message Hm. step H as code Hc. step H as c Hcs. step H as m Hms.
    discriminate H.
  - apply inr_injective in H.
    exists request, reply, body, error. repeat split; try assumption. symmetry. exact H.
Qed.

Lemma lookup_collected_from (pairs : list (string * string)) (acc : Obj) (k : string) :
  k <> "__proto__" ->
  lookup k (fold_left (fun h kv => assign h (fst kv) (VString (snd kv))) pairs acc)
  = match lastValue k pairs with
    | Some v => Some (VString v)
    | None => lookup k acc
    end.
Proof.
  intros Hk. revert acc. induction pairs as [|[k0 v0] pairs IH]; simpl; intros acc.
  - reflexivity.
  - rewrite IH. destruct (lastValue k pairs); [reflexivity |].
    rewrite lookup_assign. cbn [fst snd].
    destruct (String.eqb_spec k0 "__proto__") as [->|Hne].
    + destruct (String.eqb_spec k "__proto__"); [contradiction | reflexivity].
    + destruct (String.eqb k k0); reflexivity.
Qed.

Lemma lookup_collected_proto (pairs : list (string * string)) (acc : Obj) :
  lookup "__proto__" (fold_left (fun h kv => assign h (fst kv) (VString (snd kv))) pairs acc)
  = lookup "__proto__" acc.
Proof.
  revert acc. induction pairs as [|[k0 v0] pairs IH]; simpl; intros acc; [reflexivity |].
  rewrite IH, lookup_assign. cbn [fst snd].
  destruct (String.eqb_spec k0 "__proto__") as [->|Hne]; [reflexivity |].
  destruct (String.eqb_spec "__proto__" k0); [congruence | reflexivity].
Qed.

End Transport.

(** X5.  [sendRequest] returns a result exactly when the host answers the
    signed request with a body that parses to a truthy value whose [error]
    property is falsy (absent, null, false, 0 or the empty string); the
    result then holds that body, the status of the reply and the header
    table built from the reply. *)
Theorem sendRequest_returns_iff this env endpoint parameters result :
  sendRequest this env endpoint parameters = inr result
  <-> exists request reply body error,
        signedRequest this env endpoint parameters = inr request
        /\ network env request = inr reply
        /\ json reply = inr body
        /\ ToBoolean body = true
        /\ getProperty body "error" = inr error
        /\ ToBoolean error = false
        /\ result = {| response := body;
                       headers := collected (replyHeaders reply);
                       code := status reply |}.
Proof.
  split.
  - apply sendRequest_inr.
  - intros (request & reply & body & error & Hreq & Hnet & Hjson & Hb & Herr & He & ->).
    rewrite (sendRequest_unfold _ _ _ _ _ _ _ Hreq Hnet Hjson), Hb. cbn [negb].
    rewrite Herr, bind_ret, He. reflexivity.
Qed.

Lemma sendRequest_returns_iff_witness :
  exists result,
    sendRequest demoClient
      (answering (VObject [("error", VNull); ("data", VNumber (Num.ofZ 7))]) [("a", "b")])
      "/info/balance" demoParameters = inr result
    /\ response result = VObject [("error", VNull); ("data", VNumber (Num.ofZ 7))]
    /\ code result = 200.
Proof.
  set (env := answering (VObject [("error", VNull); ("data", VNumber (Num.ofZ 7))])
                        [("a", "b")]).
  destruct (signedRequest demoClient env "/info/balance" demoParameters)
    as [e|request] eqn:E.
  - exfalso. vm_compute in E. discriminate E.
  - eexists. split.
    + apply (proj2 (sendRequest_returns_iff demoClient env "/info/balance"
                      demoParameters _)).
      exists request. eexists. eexists. eexists.
      split; [exact E |]. split; [reflexivity |]. split; [reflexivity |].
      split; [reflexivity |]. split; [reflexivity |]. split; reflexivity.
    + split; reflexivity.
Defined.

(** X6.  The own properties of the header table of a result: under every
    name other than [__proto__] the table holds the value of the last
    header of the reply with exactly that name, and it has no own property
    under a name the reply did not give; a header named [__proto__] never
    becomes an own property of the table.  (The table is a plain object: a
    read under a name it does not hold goes on to [Object.prototype], which
    is outside this statement.) *)
Theorem collected_headers_read_last_value (pairs : list (string * string)) :
  (forall k, k <> "__proto__" ->
             lookup k (collected pairs) = option_map VString (lastValue k pairs))
  /\ lookup "__proto__" (collected pairs) = None
  /\ (forall this env endpoint parameters result,
         sendRequest this env endpoint parameters = inr result ->
         exists request reply,
           network env request = inr reply
           /\ headers result = collected (replyHeaders reply)).
Proof.
  split; [| split].
  - intros k Hk. unfold collected. rewrite lookup_collected_from by exact Hk.
    destruct (lastValue k pairs); reflexivity.
  - unfold collected. rewrite lookup_collected_proto. reflexivity.
  - intros this env endpoint parameters result H.
    apply sendRequest_inr in H.
    destruct H as (request & reply & body & error & _ & Hnet & _ & _ & _ & _ & ->).
    exists request, reply. split; [exact Hnet | reflexivity].
Qed.

Lemma collected_headers_read_last_value_witness :
  lookup "set-cookie" (collected [ ("__proto__", "x"); ("set-cookie", "first");
                                   ("set-cookie", "second") ])
  = Some (VString "second").
Proof.
  rewrite (proj1 (collected_headers_read_last_value _) "set-cookie");
    [reflexivity | discriminate].
Defined.

(** X7.  A body that parses to a falsy value (null, false, 0 or the empty
    string) makes [sendRequest], and with it each of the seven operations,
    raise the invalid-response error, whatever the headers of the reply. *)
Theorem falsy_body_is_invalid this env call parameters request reply body :
  parametersOf env call = inr parameters ->
  signedRequest this env (endpointOf call) parameters = inr request ->
  network env request = inr reply ->
  json reply = inr body ->
  ToBoolean body = false ->
  sendRequest this env (endpointOf call) parameters = inl invalidResponse
  /\ perform this env call = inl invalidResponse.
Proof.
  intros Hp Hreq Hnet Hjson Hb.
  assert (H : sendRequest this env (endpointOf call) parameters = inl invalidResponse).
  { rewrite (sendRequest_unfold _ _ _ _ _ _ _ Hreq Hnet Hjson), Hb. reflexivity. }
  split; [exact H |]. eapply perform_sendRequest_error; eassumption.
Qed.

Lemma falsy_body_is_invalid_witness :
  perform demoClient (answering VNull []) GetBalance = inl invalidResponse.
Proof.
  set (env := answering VNull []).
  destruct (signedRequest demoClient env (endpointOf GetBalance)
              (literal [("request_timestamp", timestamp env)])) as [e|request] eqn:E.
  - exfalso. vm_compute in E. discriminate E.
  - exact (proj2 (falsy_body_is_invalid demoClient env GetBalance _ request
                    {| json := ret VNull; replyHeaders := []; status := 200 |} VNull
                    eq_refl E eq_refl eq_refl eq_refl)).
Defined.

(** X8.  An [error] property that is truthy but not an object (a string, a
    number, true, an array) has neither code nor message: [sendRequest], and
    with it each operation, raises
    "GPay API Error (UNKNOWN_CODE): Unknown error". *)
Theorem scalar_error_is_unknown this env call parameters request reply body error :
  parametersOf env call = inr parameters ->
  signedRequest this env (endpointOf call) parameters = inr request ->
  network env request = inr reply ->
  json reply = inr (VObject body) ->
  lookup "error" body = Some error ->
  ToBoolean error = true ->
  (forall envelope, error <> VObject envelope) ->
  sendRequest this env (endpointOf call) parameters = inl unknownRemoteError
  /\ perform this env call = inl unknownRemoteError.
Proof.
  intros Hp Hreq Hnet Hjson Herr He Hscalar.
  assert (H : sendRequest this env (endpointOf call) parameters = inl unknownRemoteError).
  { rewrite (sendRequest_unfold _ _ _ _ _ _ _ Hreq Hnet Hjson).
    change (ToBoolean (VObject body)) with true. cbn [negb].
    change (getProperty (VObject body) "error") with (@ret Value (get body "error")).
    rewrite (get_present _ _ _ Herr), bind_ret, He.
    destruct error; try discriminate He; try reflexivity.
    exfalso. eapply Hscalar. reflexivity. }
  split; [exact H |]. eapply perform_sendRequest_error; eassumption.
Qed.

Lemma scalar_error_is_unknown_witness :
  perform demoClient (answering (VObject [("error", VString "denied")]) []) GetBalance
  = inl unknownRemoteError.
Proof.
  set (env := answering (VObject [("error", VString "denied")]) []).
  destruct (signedRequest demoClient env (endpointOf GetBalance)
              (literal [("request_timestamp", timestamp env)])) as [e|request] eqn:E.
  - exfalso. vm_compute in E. discriminate E.
  - refine (proj2 (scalar_error_is_unknown demoClient env GetBalance _ request
                     {| json := ret (VObject [("error", VString "denied")]);
                        replyHeaders := []; status := 200 |}
                     [("error", VString "denied")] (VString "denied")
                     eq_refl E eq_refl eq_refl eq_refl eq_refl _)).
    intros envelope. discriminate.
Defined.

(** X9.  Failures of the host are not caught: when [fetch] rejects, or the
    body is not JSON, [sendRequest] and each of the seven operations end
    with the exception of the host, unchanged. *)
Theorem host_failures_propagate this env call parameters request e :
  parametersOf env call = inr parameters ->
  signedRequest this env (endpointOf call) parameters = inr request ->
  network env request = inl e
  \/ (exists reply, network env request = inr reply /\ json reply = inl e) ->
  sendRequest this env (endpointOf call) parameters = inl e
  /\ perform this env call = inl e.
Proof.
  intros Hp Hreq Hfail.
  assert (H : sendRequest this env (endpointOf call) parameters = inl e).
  { unfold sendRequest. rewrite Hreq, bind_ret.
    destruct Hfail as [Hnet|[reply [Hnet Hjson]]].
    - rewrite Hnet. reflexivity.
    - rewrite Hnet, bind_ret. cbv zeta. rewrite Hjson. reflexivity. }
  split; [exact H |]. eapply perform_sendRequest_error; eassumption.
Qed.

Lemma host_failures_propagate_witness :
  perform demoClient offline GetBalance = inl (Rejected "offline").
Proof.
  destruct (signedRequest demoClient offline (endpointOf GetBalance)
              (literal [("request_timestamp", timestamp offline)])) as [e|request] eqn:E.
  - exfalso. vm_compute in E. discriminate E.
  - exact (proj2 (host_failures_propagate demoClient offline GetBalance _ request
                    (Rejected "offline") eq_refl E (or_introl eq_refl))).
Defined.

Ltac unfold_field_lists :=
  unfold balanceFields, paymentRequestFields, paymentStatusFields, sendMoneyFields,
         statementFields, walletCheckFields, outstandingFields.

Section MoreOperations.

Variable this : Client.

Lemma pick_nullish (data : Value) (k : string) (names : list string) :
  isNullish data = true -> pick data (k :: names) = inl TypeError.
Proof.
  destruct data; simpl; intros H; try discriminate H; reflexivity.
Qed.

Lemma signedRequest_same_rng (env env' : Env) endpoint parameters :
  rng env = rng env' ->
  signedRequest this env' endpoint parameters = signedRequest this env endpoint parameters.
Proof.
  intros H. unfold signedRequest. rewrite H. reflexivity.
Qed.

Lemma sendRequest_same (env env' : Env) endpoint parameters :
  rng env = rng env' ->
  (forall request,
      signedRequest this env endpoint parameters = inr request ->
      network env request = network env' request) ->
  sendRequest this env' endpoint parameters = sendRequest this env endpoint parameters.
Proof.
  intros Hrng Hnet. unfold sendRequest.
  rewrite (signedRequest_same_rng env env' _ _ Hrng).
  destruct (signedRequest this env endpoint parameters) as [e|request]; [reflexivity |].
  rewrite !bind_ret, (Hnet request eq_refl). reflexivity.
Qed.

Lemma timestamp_same (env env' : Env) : now env = now env' -> timestamp env' = timestamp env.
Proof.
  intros H. unfold timestamp. rewrite H. reflexivity.
Qed.

End MoreOperations.

(** X10.  A response body without a [data] property, or with a null one,
    makes each of the seven operations raise a TypeError when it reads the
    first signed field: the operation returns no record, and the verifier is
    not reached. *)
Theorem missing_data_is_TypeError this env call parameters result data :
  parametersOf env call = inr parameters ->
  sendRequest this env (endpointOf call) parameters = inr result ->
  getProperty (response result) "data" = inr data ->
  isNullish data = true ->
  pick data (signedResponseFields call) = inl TypeError
  /\ perform this env call = inl TypeError.
Proof.
  intros Hp Hsend Hdata Hnull.
  destruct call; cbv [endpointOf parametersOf signedResponseFields] in Hp, Hsend |- *;
    try (step Hp as s Hs);
    apply inr_injective in Hp; subst parameters;
    (split; [unfold_field_lists; apply pick_nullish; exact Hnull |]);
    unfold perform; unfold_operation; cbv zeta;
    try rewrite Hs; rewrite ?bind_ret; rewrite Hsend, bind_ret, Hdata, bind_ret;
    unfold_field_lists; rewrite (pick_nullish _ _ _ Hnull); reflexivity.
Qed.

Lemma missing_data_is_TypeError_witness :
  perform demoClient
    (answering (VObject [("status", VString "ok")])
               [ ("x-signature-salt", "S"); ("x-signature-hash", "bm9uZQ==") ])
    (CheckWallet (VString "wallet-1"))
  = inl TypeError.
Proof.
  set (env := answering (VObject [("status", VString "ok")])
                        [ ("x-signature-salt", "S"); ("x-signature-hash", "bm9uZQ==") ]).
  destruct (sendRequest demoClient env (endpointOf (CheckWallet (VString "wallet-1")))
              (literal [ ("wallet_gateway_id", VString "wallet-1");
                         ("request_timestamp", timestamp env) ])) as [e|result] eqn:E.
  - exfalso. vm_compute in E. discriminate E.
  - refine (proj2 (missing_data_is_TypeError demoClient env (CheckWallet (VString "wallet-1"))
                     _ result VUndefined eq_refl E _ eq_refl)).
    vm_compute in E. apply inr_injective in E. rewrite <- E. reflexivity.
Defined.

(** X11.  An operation makes one request and asks the host nothing else:
    two hosts with the same generator and clock that answer alike the one
    request the operation signs give the operation the same outcome. *)
Theorem one_request_decides_the_outcome this env env' call :
  rng env = rng env' ->
  now env = now env' ->
  (forall parameters request,
      parametersOf env call = inr parameters ->
      signedRequest this env (endpointOf call) parameters = inr request ->
      network env request = network env' request) ->
  perform this env' call = perform this env call.
Proof.
  intros Hrng Hnow Hnet.
  assert (Hsend : forall parameters,
             parametersOf env call = inr parameters ->
             sendRequest this env' (endpointOf call) parameters
             = sendRequest this env (endpointOf call) parameters).
  { intros parameters Hp. apply sendRequest_same; [exact Hrng |].
    intros request Hreq. exact (Hnet parameters request Hp Hreq). }
  clear Hnet.
  destruct call; cbv [endpointOf parametersOf] in Hsend;
    unfold perform; unfold_operation; cbv zeta;
    rewrite (timestamp_same env env' Hnow).
  - rewrite (Hsend _ eq_refl). reflexivity.
  - destruct (toStringMethod amount) as [e|s]; [reflexivity |].
    rewrite !bind_ret. cbv beta. rewrite (Hsend _ eq_refl). reflexivity.
  - rewrite (Hsend _ eq_refl). reflexivity.
  - destruct (toStringMethod amount) as [e|s]; [reflexivity |].
    rewrite !bind_ret. cbv beta. rewrite (Hsend _ eq_refl). reflexivity.
  - rewrite (Hsend _ eq_refl). reflexivity.
  - rewrite (Hsend _ eq_refl). reflexivity.
  - rewrite (Hsend _ eq_refl). reflexivity.
Qed.

Lemma one_request_decides_the_outcome_witness :
  perform demoClient
    {| rng := rng balanceReply; now := now balanceReply;
       network := fun request =>
                    if String.eqb (url request) (BaseUrl_PRODUCTION ++ "/info/balance")
                    then network balanceReply request
                    else throw (Rejected "no such endpoint") |}
    GetBalance
  = perform demoClient balanceReply GetBalance.
Proof.
  apply one_request_decides_the_outcome; [reflexivity | reflexivity |].
  intros parameters request Hp Hreq.
  apply signedRequest_inr in Hreq. destruct Hreq as [hash [_ ->]]. reflexivity.
Defined.

(** X12.  [createPaymentRequest] and [sendMoney] read [amount.toString()]
    before anything else.  A null or absent amount raises a TypeError
    whatever the host would answer.  Any other amount is sent in its string
    form: the request handed to the host is the signed request whose body
    holds that string in the [amount] parameter, next to the other
    arguments as given; a rejection of that request is the outcome of the
    operation, and two hosts with the same generator and clock that answer
    that request alike give the operation the same outcome.  Hence a number
    and the string it prints as give the same run. *)
Theorem amount_is_sent_as_its_string this env amount walletGatewayId referenceNo description :
  (isNullish amount = true ->
   createPaymentRequest this env amount referenceNo description = inl TypeError
   /\ sendMoney this env amount walletGatewayId referenceNo description = inl TypeError)
  /\ (forall s request,
         toStringMethod amount = inr s ->
         signedRequest this env "/payment/create-payment-request"
           (literal [ ("amount", VString s); ("reference_no", referenceNo);
                      ("description", description);
                      ("request_timestamp", timestamp env) ]) = inr request ->
         get (body request) "amount" = VString s
         /\ get (body request) "reference_no" = referenceNo
         /\ get (body request) "description" = description
         /\ (forall e, network env request = inl e ->
                       createPaymentRequest this env amount referenceNo description = inl e)
         /\ (forall env',
                rng env' = rng env -> now env' = now env ->
                network env' request = network env request ->
                createPaymentRequest this env' amount referenceNo description
                = createPaymentRequest this env amount referenceNo description))
  /\ (forall s request,
         toStringMethod amount = inr s ->
         signedRequest this env "/payment/send-money"
           (literal [ ("amount", VString s); ("wallet_gateway_id", walletGatewayId);
                      ("reference_no", referenceNo); ("description", description);
                      ("request_timestamp", timestamp env) ]) = inr request ->
         get (body request) "amount" = VString s
         /\ get (body request) "wallet_gateway_id" = walletGatewayId
         /\ (forall e, network env request = inl e ->
                       sendMoney this env amount walletGatewayId referenceNo description
                       = inl e)
         /\ (forall env',
                rng env' = rng env -> now env' = now env ->
                network env' request = network env request ->
                sendMoney this env' amount walletGatewayId referenceNo description
                = sendMoney this env amount walletGatewayId referenceNo description))
  /\ (forall s,
         toStringMethod amount = inr s ->
         createPaymentRequest this env amount referenceNo description
         = createPaymentRequest this env (VString s) referenceNo description
         /\ sendMoney this env amount walletGatewayId referenceNo description
            = sendMoney this env (VString s) walletGatewayId referenceNo description).
Proof.
  split; [| split; [| split]].
  - intros H. destruct amount; try discriminate H; split; reflexivity.
  - intros s request Hs Hreq.
    pose proof (signedRequest_inr _ _ _ _ _ Hreq) as [hash [_ Hrequest]].
    split; [rewrite Hrequest; reflexivity |].
    split; [rewrite Hrequest; reflexivity |].
    split; [rewrite Hrequest; reflexivity |].
    split.
    + intros e Hnet. unfold createPaymentRequest. rewrite Hs, bind_ret. cbv zeta.
      unfold sendRequest. rewrite Hreq, bind_ret, Hnet. reflexivity.
    + intros env' Hrng Hnow Hnet. unfold createPaymentRequest. rewrite Hs, !bind_ret.
      cbv zeta. rewrite (timestamp_same env env' (eq_sym Hnow)).
      rewrite (sendRequest_same this env env' _ _ (eq_sym Hrng)); [reflexivity |].
      intros request' Hreq'. rewrite Hreq in Hreq'. apply inr_injective in Hreq'.
      subst request'. symmetry. exact Hnet.
  - intros s request Hs Hreq.
    pose proof (signedRequest_inr _ _ _ _ _ Hreq) as [hash [_ Hrequest]].
    split; [rewrite Hrequest; reflexivity |].
    split; [rewrite Hrequest; reflexivity |].
    split.
    + intros e Hnet. unfold sendMoney. rewrite Hs, bind_ret. cbv zeta.
      unfold sendRequest. rewrite Hreq, bind_ret, Hnet. reflexivity.
    + intros env' Hrng Hnow Hnet. unfold sendMoney. rewrite Hs, !bind_ret.
      cbv zeta. rewrite (timestamp_same env env' (eq_sym Hnow)).
      rewrite (sendRequest_same this env env' _ _ (eq_sym Hrng)); [reflexivity |].
      intros request' Hreq'. rewrite Hreq in Hreq'. apply inr_injective in Hreq'.
      subst request'. symmetry. exact Hnet.
  - intros s H. unfold createPaymentRequest, sendMoney. rewrite H.
    change (toStringMethod (VString s)) with (@ret string s). split; reflexivity.
Qed.

Lemma amount_is_sent_as_its_string_witness :
  createPaymentRequest demoClient offline (VNumber (Num.ofDecimal false 499 (-1)))
                       (VString "order-7") (VString "two tickets")
  = inl (Rejected "offline").
Proof.
  destruct (signedRequest demoClient offline "/payment/create-payment-request"
              (literal [ ("amount", VString "49.9"); ("reference_no", VString "order-7");
                         ("description", VString "two tickets");
                         ("request_timestamp", timestamp offline) ]))
    as [e|request] eqn:E.
  - exfalso. vm_compute in E. discriminate E.
  - refine (proj1 (proj2 (proj2 (proj2
              (proj1 (proj2 (amount_is_sent_as_its_string demoClient offline
                               (VNumber (Num.ofDecimal false 499 (-1)))
                               VUndefined (VString "order-7") (VString "two tickets")))
                     "49.9" request _ E)))) (Rejected "offline") eq_refl).
    vm_compute. reflexivity.
Defined.

Section Rows.

Lemma mapM_Forall2 {A B} (f : A -> M B) (l : list A) (bs : list B) :
  mapM f l = inr bs <-> Forall2 (fun a b => f a = inr b) l bs.
Proof.
  revert bs. induction l as [|a l IH]; simpl; intros bs.
  - split.
    + intros H. apply inr_injective in H. subst bs. constructor.
    + intros H. inversion H. reflexivity.
  - split.
    + intros H. step H as b Hb. step H as bs' Hbs. apply inr_injective in H. subst bs.
      constructor; [exact Hb | apply IH; exact Hbs].
    + intros H. inversion H as [|? b ? bs' Hb Hbs]; subst.
      rewrite Hb, bind_ret. apply IH in Hbs. rewrite Hbs. reflexivity.
Qed.

Lemma rows_inr {R} (row : Value -> M R) (v : Value) (built : list R) :
  match v with
  | VArray rows => mapM row rows
  | _ => ret []
  end = inr built ->
  match v with
  | VArray rows => Forall2 (fun tx r => row tx = inr r) rows built
  | _ => built = []
  end.
Proof.
  destruct v; intros H;
    try (apply inr_injective in H; symmetry; exact H).
  apply mapM_Forall2. exact H.
Qed.

End Rows.

(** X13.  The rows of a statement and of the outstanding transactions are
    built from the [day_statement] / [outstanding_transactions] property of
    the verified data: when it is an array, one row record per element, in
    order, each through the row constructor; when it is anything else
    (absent, null, an object, a string), the list of rows is empty and the
    operation still returns its record. *)
Theorem rows_follow_the_array this env :
  (forall date r,
      getStatement this env date = inr r ->
      exists parameters result data rowsValue,
        sendRequest this env "/info/statement" parameters = inr result
        /\ getProperty (response result) "data" = inr data
        /\ getProperty data "day_statement" = inr rowsValue
        /\ match rowsValue with
           | VArray rows =>
               Forall2 (fun tx row => statementRow tx = inr row)
                       rows (Statement.dayStatement r)
           | _ => Statement.dayStatement r = []
           end)
  /\ (forall r,
         getOutstandingTransactions this env = inr r ->
         exists parameters result data rowsValue,
           sendRequest this env "/info/outstanding-transactions" parameters = inr result
           /\ getProperty (response result) "data" = inr data
           /\ getProperty data "outstanding_transactions" = inr rowsValue
           /\ match rowsValue with
              | VArray rows =>
                  Forall2 (fun tx row => outstandingRow tx = inr row)
                          rows (OutstandingTransactions.outstandingTransactions r)
              | _ => OutstandingTransactions.outstandingTransactions r = []
              end).
Proof.
  split.
  - intros date r H. unfold getStatement in H. cbv zeta in H.
    step H as result Hsend. step H as data Hdata. step H as fields Hfields.
    step H as u Hverify. step H as rowsValue Hrows. step H as built Hbuilt.
    unfold Statement.new in H. open_binds H. subst r. cbn [Statement.dayStatement].
    eexists. exists result, data, rowsValue.
    split; [exact Hsend |]. split; [exact Hdata |]. split; [exact Hrows |].
    exact (rows_inr statementRow rowsValue built Hbuilt).
  - intros r H. unfold getOutstandingTransactions in H. cbv zeta in H.
    step H as result Hsend. step H as data Hdata. step H as fields Hfields.
    step H as u Hverify. step H as rowsValue Hrows. step H as built Hbuilt.
    unfold OutstandingTransactions.new in H. open_binds H. subst r.
    cbn [OutstandingTransactions.outstandingTransactions].
    eexists. exists result, data, rowsValue.
    split; [exact Hsend |]. split; [exact Hdata |]. split; [exact Hrows |].
    exact (rows_inr outstandingRow rowsValue built Hbuilt).
Qed.

Lemma rows_follow_the_array_witness :
  exists r,
    getStatement demoClient (statementReply (VString "none")) (VString "2025-06-22") = inr r
    /\ Statement.dayStatement r = [].
Proof.
  destruct (getStatement demoClient (statementReply (VString "none")) (VString "2025-06-22"))
    as [e|r] eqn:E.
  - exfalso. vm_compute in E. discriminate E.
  - exists r. split; [reflexivity |].
    destruct (proj1 (rows_follow_the_array demoClient (statementReply (VString "none")))
                _ r E) as (parameters & result & data & rowsValue & Hs & Hd & Hr & Hrows).
    assert (Hv : rowsValue = VString "none").
    { apply sendRequest_inr in Hs.
      destruct Hs as (request & reply & body & error & _ & Hnet & Hjson & _ & _ & _ & ->).
      apply inr_injective in Hnet. subst reply.
      apply inr_injective in Hjson. subst body.
      apply inr_injective in Hd. subst data.
      apply inr_injective in Hr. subst rowsValue. reflexivity. }
    subst rowsValue. exact Hrows.
Defined.

Section Shapes.

Lemma base64_length_32 (l : list Octets.octet) :
  List.length l = 32%nat -> String.length (Octets.base64 l) = 44%nat.
Proof.
  intros H.
  do 32 (destruct l as [|? l]; [simpl in H; discriminate H |]).
  destruct l; [reflexivity | simpl in H; discriminate H].
Qed.

Lemma generateVerificationHash_length this hashToken parameters hash :
  generateVerificationHash this hashToken parameters = inr hash ->
  String.length hash = 44%nat.
Proof.
  unfold generateVerificationHash. intros H. step H as qs Hqs.
  apply inr_injective in H. rewrite <- H.
  apply base64_length_32. apply hmacSha256_length.
Qed.

End Shapes.

(** X14.  Every salt the client generates and every signature it computes
    is a string of forty-four characters (the base64 form of thirty-two
    octets), whatever the generator, the hash token and the parameters.
    Hence [verifyResponse] returns only for a received hash that is a
    string of forty-four characters: a hash of any other length, or of
    another type, never verifies. *)
Theorem signatures_have_44_characters this :
  (forall g, String.length (fst (generateSalt g)) = 44%nat)
  /\ (forall hashToken parameters hash,
         generateVerificationHash this hashToken parameters = inr hash ->
         String.length hash = 44%nat)
  /\ (forall headers fields,
         verifyResponse this headers fields = inr tt ->
         exists hash,
           receivedHash headers = VString hash /\ String.length hash = 44%nat).
Proof.
  split; [| split].
  - intros g. unfold generateSalt.
    pose proof (randomBytes_length 32 g) as Hlen.
    destruct (randomBytes 32 g) as [bytes g']. cbn [fst] in *.
    apply base64_length_32. exact Hlen.
  - apply generateVerificationHash_length.
  - intros headers fields H. rewrite verifyResponse_unfold in H.
    destruct (negb (ToBoolean (receivedHash headers))
              || negb (ToBoolean (receivedSalt headers))); [discriminate H |].
    step H as hashToken Htok. step H as hash Hsig.
    destruct (strictEqString hash (receivedHash headers)) eqn:Heq; [| discriminate H].
    apply strictEqString_true in Heq.
    exists hash. split; [exact Heq |].
    exact (generateVerificationHash_length _ _ _ _ Hsig).
Qed.

Lemma signatures_have_44_characters_witness :
  exists hash,
    receivedHash (collected [ ("x-signature-salt", "S");
                              ("x-signature-hash",
                               "RHZM6/DpI3BmAVe77XPFMZYu93EseFGR20wV+mlxPWI=") ])
    = VString hash
    /\ String.length hash = 44%nat.
Proof.
  destruct (verifyResponse demoClient
              (collected [ ("x-signature-salt", "S");
                           ("x-signature-hash",
                            "RHZM6/DpI3BmAVe77XPFMZYu93EseFGR20wV+mlxPWI=") ])
              demoParameters) as [e|[]] eqn:E.
  - exfalso. vm_compute in E. discriminate E.
  - exact (proj2 (proj2 (signatures_have_44_characters demoClient)) _ _ E).
Defined.

(** X15.  The two enumeration tables read both ways: for every property
    [k] of [TransactionStatus] or [OperationType] with value [v], reading
    the table at [v] gives back [k] (a name for a code, the code for a
    name, a number key being converted to its decimal string). *)
Theorem enumerations_read_both_ways (table : Obj) (k : string) (v : Value) :
  table = TransactionStatus \/ table = OperationType ->
  lookup k table = Some v ->
  (back <- member table v ;; ToString back) = inr k.
Proof.
  intros [-> | ->] H; apply lookup_Some_In in H; vm_compute in H;
    repeat (destruct H as [H|H];
            [inversion H; subst; vm_compute; reflexivity |]);
    contradiction.
Qed.

Lemma enumerations_read_both_ways_witness :
  (back <- member OperationType (VNumber (Num.ofZ 5)) ;; ToString back)
  = inr "TRANSACTION_FEE".
Proof.
  apply (enumerations_read_both_ways OperationType "TRANSACTION_FEE" (VNumber (Num.ofZ 5))).
  - right. reflexivity.
  - vm_compute. reflexivity.
Defined.

Section Raising.

Lemma raises_ret {A} (P : Exn -> Prop) (a : A) : raises P (ret a).
Proof. intros e H. discriminate H. Qed.

Lemma raises_throw {A} (P : Exn -> Prop) (e : Exn) : P e -> raises P (@throw A e).
Proof. intros H e' E. apply inl_injective in E. subst e'. exact H. Qed.

Lemma raises_bind {A B} (P : Exn -> Prop) (c : M A) (k : A -> M B) :
  raises P c -> (forall a, c = inr a -> raises P (k a)) -> raises P (bind c k).
Proof.
  intros Hc Hk e H. destruct c as [e'|a]; simpl in H.
  - apply inl_injective in H. subst e'. apply Hc. reflexivity.
  - exact (Hk a eq_refl e H).
Qed.

Lemma raises_mono {A} (P Q : Exn -> Prop) (c : M A) :
  (forall e, P e -> Q e) -> raises P c -> raises Q c.
Proof. intros HPQ Hc e H. apply HPQ, Hc, H. Qed.

Lemma raises_mapM {A B} (P : Exn -> Prop) (f : A -> M B) (l : list A) :
  (forall a, raises P (f a)) -> raises P (mapM f l).
Proof.
  intros Hf. induction l as [|a l IH]; simpl.
  - apply raises_ret.
  - apply raises_bind; [apply Hf | intros b _].
    apply raises_bind; [exact IH | intros bs _]. apply raises_ret.
Qed.

Lemma ToString_raises : forall v, raises isTypeError (ToString v).
Proof.
  fix IH 1. intros v. destruct v as [| |b|x|s|l|o]; try (intros e H; discriminate H).
  - simpl.
    refine ((fix IHl (l : list Value) :
               raises isTypeError
                 ((fix join (l : list Value) : M string :=
                     match l with
                     | [] => ret ""
                     | e :: rest =>
                         s <- match e with
                              | VUndefined | VNull => ret ""
                              | _ => ToString e
                              end ;;
                         match rest with
                         | [] => ret s
                         | _ => t <- join rest ;; ret (s ++ "," ++ t)%string
                         end
                     end) l) :=
               match l with
               | [] => _
               | a :: rest => _
               end) l).
    + apply raises_ret.
    + apply raises_bind.
      * pose proof (IH a) as Ha.
        destruct a; try exact Ha; apply raises_ret.
      * intros s _. pose proof (IHl rest) as Hrest.
        destruct rest as [|b rest']; [apply raises_ret |].
        apply raises_bind; [exact Hrest | intros t _; apply raises_ret].
  - simpl. destruct (lookup "toString" o).
    + apply raises_throw. reflexivity.
    + apply raises_ret.
Qed.

End Raising.

Create HintDb raising.
#[local] Hint Resolve ToString_raises : raising.

Ltac raising :=
  repeat first
    [ apply raises_ret
    | apply raises_throw; first [reflexivity | constructor]
    | solve [auto with raising]
    | apply raises_bind; [| intros ? _]
    | match goal with
      | |- raises _ (if ?b then _ else _) => destruct b
      | |- raises _ (match ?v with _ => _ end) => destruct v
      end ].

Section RaisingOfTheClient.

Lemma getProperty_raises v k : raises isTypeError (getProperty v k).
Proof. unfold getProperty. raising. Qed.

Lemma toStringMethod_raises v : raises isTypeError (toStringMethod v).
Proof. unfold toStringMethod. destruct v; raising. Qed.

Lemma ToNumber_raises v : raises isTypeError (ToNumber v).
Proof. unfold ToNumber. destruct v; raising. Qed.

Lemma parseFloat_raises v : raises isTypeError (parseFloat v).
Proof. unfold parseFloat. raising. Qed.

Lemma newDate_raises v : raises isTypeError (newDate v).
Proof. unfold newDate. pose proof (ToNumber_raises v). raising. Qed.

Lemma pair_raises kv : raises isTypeError (pair kv).
Proof. unfold pair. destruct kv as [k v]. raising. Qed.

Lemma queryString_raises parameters : raises isTypeError (queryString parameters).
Proof.
  unfold queryString. apply raises_bind; [| intros; apply raises_ret].
  apply raises_mapM. apply pair_raises.
Qed.

Lemma generateHashToken_raises salt password :
  raises isTypeError (generateHashToken salt password).
Proof. unfold generateHashToken. raising. Qed.

Lemma generateVerificationHash_raises this hashToken parameters :
  raises isTypeError (generateVerificationHash this hashToken parameters).
Proof.
  unfold generateVerificationHash. pose proof (queryString_raises parameters). raising.
Qed.

Lemma signedRequest_raises this env endpoint parameters :
  raises isTypeError (signedRequest this env endpoint parameters).
Proof.
  unfold signedRequest. destruct (generateSalt (rng env)) as [salt g'].
  apply raises_bind; [apply generateHashToken_raises | intros hashToken _].
  apply raises_bind; [apply generateVerificationHash_raises | intros hash _].
  apply raises_ret.
Qed.

Lemma pick_raises data names : raises isTypeError (pick data names).
Proof.
  unfold pick. apply raises_bind; [| intros; apply raises_ret].
  apply raises_mapM. intros k.
  apply raises_bind; [apply getProperty_raises | intros; apply raises_ret].
Qed.

Lemma verifyResponse_raises this headers fields :
  raises clientError (verifyResponse this headers fields).
Proof.
  rewrite verifyResponse_unfold.
  destruct (negb (ToBoolean (receivedHash headers))
            || negb (ToBoolean (receivedSalt headers))).
  - apply raises_throw. constructor.
  - apply raises_bind.
    + apply (raises_mono isTypeError); [intros e ->; constructor |].
      apply generateHashToken_raises.
    + intros hashToken _. apply raises_bind.
      * apply (raises_mono isTypeError); [intros e ->; constructor |].
        apply generateVerificationHash_raises.
      * intros hash _. destruct (negb (strictEqString hash (receivedHash headers))).
        -- apply raises_throw. constructor.
        -- apply raises_ret.
Qed.

Lemma sendRequest_raises this env endpoint parameters :
  raises (fun e => hostError env e \/ clientError e)
         (sendRequest this env endpoint parameters).
Proof.
  assert (Hlift : forall A (c : M A),
             raises isTypeError c -> raises (fun e => hostError env e \/ clientError e) c).
  { intros A c. apply raises_mono. intros e ->. right. constructor. }
  unfold sendRequest.
  apply raises_bind; [apply Hlift, signedRequest_raises | intros request _].
  apply raises_bind.
  { intros e He. left. left. exists request. exact He. }
  intros reply Hreply. cbv zeta.
  apply raises_bind.
  { intros e He. left. right. exists request, reply. split; assumption. }
  intros body _.
  destruct (negb (ToBoolean body)).
  { apply raises_throw. right. constructor. }
  apply raises_bind; [apply Hlift, getProperty_raises | intros error _].
  destruct (ToBoolean error); [| apply raises_ret].
  apply raises_bind; [apply Hlift, getProperty_raises | intros message _].
  apply raises_bind; [apply Hlift, getProperty_raises | intros code _].
  apply raises_bind; [apply Hlift, ToString_raises | intros c _].
  apply raises_bind; [apply Hlift, ToString_raises | intros m _].
  apply raises_throw. right. constructor.
Qed.

End RaisingOfTheClient.

#[local] Hint Resolve getProperty_raises toStringMethod_raises ToNumber_raises
  parseFloat_raises newDate_raises pick_raises : raising.

Section RaisingOfTheOperations.

Variable this : Client.
Variable env : Env.

Lemma lift_TypeError {A} (c : M A) :
  raises isTypeError c -> raises (hostOrClientError env) c.
Proof. apply raises_mono. intros e ->. right. constructor. Qed.

Lemma lift_clientError {A} (c : M A) :
  raises clientError c -> raises (hostOrClientError env) c.
Proof. apply raises_mono. intros e H. right. exact H. Qed.

Lemma sendRequest_raises_outcome endpoint parameters :
  raises (hostOrClientError env) (sendRequest this env endpoint parameters).
Proof. exact (sendRequest_raises this env endpoint parameters). Qed.

Lemma statementRow_raises tx : raises isTypeError (statementRow tx).
Proof.
  unfold statementRow, StatementTransaction.new, StatementTransaction.numberOrNull.
  raising.
Qed.

Lemma outstandingRow_raises tx : raises isTypeError (outstandingRow tx).
Proof.
  unfold outstandingRow, OutstandingTransaction.new, OutstandingTransaction.numberOrNull.
  raising.
Qed.

Ltac operation_raises :=
  repeat first
    [ apply raises_ret
    | apply lift_TypeError; solve [auto with raising]
    | apply lift_TypeError; apply raises_mapM; intros ?;
      first [apply statementRow_raises | apply outstandingRow_raises]
    | apply lift_clientError; apply verifyResponse_raises
    | apply sendRequest_raises_outcome
    | apply raises_bind; [| intros ? _]
    | match goal with
      | |- raises _ (match ?v with _ => _ end) => destruct v
      end ].

Lemma perform_raises call : raises (hostOrClientError env) (perform this env call).
Proof.
  destruct call; unfold perform; (apply raises_bind; [| intros; apply raises_ret]);
    unfold_operation;
    unfold Balance.new, PaymentRequest.new, PaymentStatus.new, SendMoneyResult.new,
      Statement.new, WalletCheck.new, OutstandingTransactions.new;
    cbv zeta; operation_raises.
Qed.

End RaisingOfTheOperations.

(** X16.  What an operation can raise.  Whatever the host and the
    arguments, an error of one of the seven operations is either an error
    of the host (the rejection of [fetch], or the failure to read the reply
    as JSON), handed on as it is, or one of five errors of the client: a
    TypeError, the invalid-response error, a remote error
    [GPay API Error (code): message], the missing-signature error or the
    hash-mismatch error.  In particular a SyntaxError or a rejection always
    comes from the host, and so does the message of the constructor's
    configuration error. *)
Theorem operations_raise_only_these this env call e :
  perform this env call = inl e ->
  (hostError env e \/ clientError e)
  /\ (e = SyntaxError \/ (exists reason, e = Rejected reason) \/ e = invalidBaseUrl ->
      hostError env e).
Proof.
  intros H. pose proof (perform_raises this env call e H) as [Hhost|Hclient].
  - split; [left; exact Hhost | intros _; exact Hhost].
  - split; [right; exact Hclient |].
    intros [-> | [[reason ->] | ->]]; exfalso; inversion Hclient.
Qed.

Lemma operations_raise_only_these_witness :
  hostError offline (Rejected "offline").
Proof.
  refine (proj2 (operations_raise_only_these demoClient offline GetBalance
                   (Rejected "offline") _) _).
  - vm_compute. reflexivity.
  - right. left. exists "offline". reflexivity.
Defined.

Section SignedFields.

Lemma get_assign_other (o : Obj) (k k' : string) (v : Value) :
  k <> k' -> get (assign o k' v) k = get o k.
Proof.
  intros Hne. unfold get. rewrite lookup_assign.
  destruct (String.eqb k' "__proto__"); [reflexivity |].
  destruct (String.eqb_spec k k'); [contradiction | reflexivity].
Qed.

Lemma pick_assign_other (d : Obj) (k' : string) (v : Value) (names : list string) :
  ~ In k' names ->
  pick (VObject (assign d k' v)) names = pick (VObject d) names.
Proof.
  intros Hnot. unfold pick. f_equal.
  induction names as [|k names IH]; [reflexivity |].
  cbn [mapM].
  change (getProperty (VObject (assign d k' v)) k)
    with (@ret Value (get (assign d k' v) k)).
  change (getProperty (VObject d) k) with (@ret Value (get d k)).
  rewrite get_assign_other.
  - rewrite IH; [reflexivity |]. intros Hin. apply Hnot. right. exact Hin.
  - intros ->. apply Hnot. left. reflexivity.
Qed.

End SignedFields.

(** X17.  The rows are outside the signature.  What [getStatement] hands
    to the verifier does not depend on the [day_statement] property of the
    data, and what [getOutstandingTransactions] hands to it does not depend
    on [outstanding_transactions]: with any value written to that
    property, the verifier is given the same fields and has the same
    outcome. *)
Theorem rows_are_outside_the_signature this headers (d : Obj) (rows : Value) :
  (fields <- pick (VObject (assign d "day_statement" rows)) statementFields ;;
   verifyResponse this headers fields)
  = (fields <- pick (VObject d) statementFields ;;
     verifyResponse this headers fields)
  /\ (fields <- pick (VObject (assign d "outstanding_transactions" rows)) outstandingFields ;;
      verifyResponse this headers fields)
     = (fields <- pick (VObject d) outstandingFields ;;
        verifyResponse this headers fields).
Proof.
  split; rewrite pick_assign_other; try reflexivity;
    unfold_field_lists; simpl; intros H;
      repeat (destruct H as [H|H]; [discriminate H |]); exact H.
Qed.

Section Building.

Lemma getProperty_read (data : Value) (k : string) :
  isNullish data = false -> getProperty data k = inr (read data k).
Proof. destruct data; simpl; intros H; try discriminate H; reflexivity. Qed.

Lemma getProperty_inr (data : Value) (k : string) (v : Value) :
  getProperty data k = inr v -> isNullish data = false /\ v = read data k.
Proof.
  destruct data; simpl; intros H; try discriminate H;
    apply inr_injective in H; subst v; split; reflexivity.
Qed.

Lemma pick_nonnullish (data : Value) (k : string) (names : list string) (fields : Obj) :
  pick data (k :: names) = inr fields -> isNullish data = false.
Proof.
  destruct (isNullish data) eqn:E; [| reflexivity].
  rewrite (pick_nullish data k names E). intros H. discriminate H.
Qed.

Lemma mapM_read (data : Value) (names : list string) :
  isNullish data = false ->
  mapM (fun k => v <- getProperty data k ;; ret (k, v)) names
  = inr (map (fun k => (k, read data k)) names).
Proof.
  intros Hnn. induction names as [|k names IH]; [reflexivity |].
  cbn [mapM map]. rewrite (getProperty_read data k Hnn), !bind_ret, IH. reflexivity.
Qed.

Lemma pick_read (data : Value) (names : list string) :
  isNullish data = false ->
  pick data names = inr (literal (map (fun k => (k, read data k)) names)).
Proof. intros Hnn. unfold pick. rewrite (mapM_read data names Hnn). reflexivity. Qed.

Lemma lookup_fold_defineOwn (g : string -> Value) (k : string) (names : list string)
      (acc : Obj) :
  lookup k (fold_left (fun o kv => defineOwn o (fst kv) (snd kv))
                      (map (fun k => (k, g k)) names) acc)
  = if in_dec String.string_dec k names then Some (g k) else lookup k acc.
Proof.
  revert acc. induction names as [|k0 names IH]; intros acc; [reflexivity |].
  cbn [map fold_left fst snd]. rewrite IH.
  destruct (in_dec String.string_dec k names) as [Hin|Hnot].
  - destruct (in_dec String.string_dec k (k0 :: names)) as [_|Hn]; [reflexivity |].
    exfalso. apply Hn. right. exact Hin.
  - rewrite lookup_defineOwn.
    destruct (String.eqb_spec k k0) as [->|Hne].
    + destruct (in_dec String.string_dec k0 (k0 :: names)) as [_|Hn]; [reflexivity |].
      exfalso. apply Hn. left. reflexivity.
    + destruct (in_dec String.string_dec k (k0 :: names)) as [[E|Hin]|_];
        [congruence | contradiction | reflexivity].
Qed.

Lemma get_literal_read (data : Value) (names : list string) (k : string) :
  In k names -> get (literal (map (fun k => (k, read data k)) names)) k = read data k.
Proof.
  intros Hin. unfold get, literal. rewrite lookup_fold_defineOwn.
  destruct (in_dec String.string_dec k names); [reflexivity | contradiction].
Qed.

Lemma prints_nullish (v : Value) : isNullish v = true -> prints v.
Proof. destruct v; simpl; intros H; try discriminate H; eexists; reflexivity. Qed.

Lemma pair_prints (k : string) (v : Value) (s : string) : pair (k, v) = inr s -> prints v.
Proof.
  unfold pair. destruct (isNullish v) eqn:E; intros H.
  - apply prints_nullish. exact E.
  - step H as t Ht. exists t. exact Ht.
Qed.

Lemma mapM_inr_In {A B} (f : A -> M B) (l : list A) (bs : list B) (a : A) :
  mapM f l = inr bs -> In a l -> exists b, f a = inr b.
Proof.
  intros H Hin. apply mapM_Forall2 in H.
  induction H as [|a0 b0 l0 bs0 Hab _ IH]; [contradiction |].
  destruct Hin as [->|Hin]; [exists b0; exact Hab | apply IH; exact Hin].
Qed.

(** Whatever the verifier accepts, it has converted to a string. *)
Lemma queryString_prints (fields : Obj) (qs : string) (k : string) :
  queryString fields = inr qs -> k <> "__proto__" -> prints (get fields k).
Proof.
  intros H Hk. unfold queryString in H. step H as parts Hparts. clear H.
  unfold get. destruct (lookup k fields) as [v|] eqn:E; [| eexists; reflexivity].
  assert (Hin : In (k, v) (entries (sortedParams fields))).
  { apply lookup_Some_In. unfold entries, sortedParams.
    rewrite (lookup_fold_assign (get fields) k (sort (keys fields)) [] Hk).
    destruct (in_dec String.string_dec k (sort (keys fields))) as [_|Hnot].
    - unfold get. rewrite E. reflexivity.
    - exfalso. apply Hnot.
      eapply Permutation_in; [apply sort_Permutation |].
      apply lookup_Some_In in E. apply (in_map fst) in E. exact E. }
  destruct (mapM_inr_In pair _ parts (k, v) Hparts Hin) as [s Hs].
  exact (pair_prints k v s Hs).
Qed.

Lemma verified_prints this headers (fields : Obj) (k : string) :
  verifyResponse this headers fields = inr tt -> k <> "__proto__" ->
  prints (get fields k).
Proof.
  intros H Hk. rewrite verifyResponse_unfold in H.
  destruct (negb (ToBoolean (receivedHash headers))
            || negb (ToBoolean (receivedSalt headers))); [discriminate H |].
  step H as hashToken Htok. step H as hash Hsig. clear H.
  unfold generateVerificationHash in Hsig. step Hsig as qs Hqs.
  exact (queryString_prints fields qs k Hqs Hk).
Qed.

Lemma verified_data_prints this headers (data : Value) (k0 : string)
      (names : list string) (fields : Obj) (k : string) :
  pick data (k0 :: names) = inr fields ->
  verifyResponse this headers fields = inr tt ->
  In k (k0 :: names) -> k <> "__proto__" ->
  prints (read data k).
Proof.
  intros Hpick Hverify Hin Hk.
  pose proof (pick_nonnullish data k0 names fields Hpick) as Hnn.
  rewrite (pick_read data (k0 :: names) Hnn) in Hpick.
  apply inr_injective in Hpick. subst fields.
  rewrite <- (get_literal_read data (k0 :: names) k Hin).
  exact (verified_prints this headers _ k Hverify Hk).
Qed.

Lemma parseFloat_prints (v : Value) : prints v -> exists x, parseFloat v = inr x.
Proof. intros [s Hs]. unfold parseFloat. rewrite Hs. eexists. reflexivity. Qed.

Lemma parseFloat_inr (v : Value) (x : Num.Number) : parseFloat v = inr x -> prints v.
Proof. unfold parseFloat. intros H. step H as s Hs. exists s. exact Hs. Qed.

Lemma newDate_prints (v : Value) : prints v -> exists d, newDate v = inr d.
Proof.
  intros [s Hs]. unfold newDate, ToNumber.
  destruct v; try (eexists; reflexivity); rewrite Hs; eexists; reflexivity.
Qed.

End Building.

Section BuildingRows.

Lemma statement_numberOrNull_prints (v : Value) :
  prints v <-> exists n, StatementTransaction.numberOrNull v = inr n.
Proof.
  unfold StatementTransaction.numberOrNull. split.
  - intros Hp. destruct (parseFloat_prints v Hp) as [x Hx].
    destruct v; try (eexists; reflexivity); rewrite Hx; eexists; reflexivity.
  - intros [n H].
    destruct v; try (apply prints_nullish; reflexivity);
      step H as parsed Hparsed; exact (parseFloat_inr _ parsed Hparsed).
Qed.

Lemma outstanding_numberOrNull_prints (v : Value) :
  prints v <-> exists n, OutstandingTransaction.numberOrNull v = inr n.
Proof.
  unfold OutstandingTransaction.numberOrNull. split.
  - intros Hp. destruct (parseFloat_prints v Hp) as [x Hx].
    destruct v; try (eexists; reflexivity); rewrite Hx; eexists; reflexivity.
  - intros [n H].
    destruct v; try (apply prints_nullish; reflexivity);
      step H as parsed Hparsed; exact (parseFloat_inr _ parsed Hparsed).
Qed.

Lemma statementRow_buildable (tx : Value) :
  buildableRow tx <-> exists row, statementRow tx = inr row.
Proof.
  split.
  - intros (amount & balance & Ha & Hb & Hpa & Hpb).
    destruct (getProperty_inr tx _ _ Ha) as [Hnn ->].
    destruct (getProperty_inr tx _ _ Hb) as [_ ->].
    destruct (proj1 (statement_numberOrNull_prints _) Hpa) as [a Ea].
    destruct (proj1 (statement_numberOrNull_prints _) Hpb) as [b Eb].
    unfold statementRow.
    repeat (rewrite (getProperty_read tx _ Hnn), bind_ret).
    unfold StatementTransaction.new. rewrite Ea, bind_ret, Eb, bind_ret.
    eexists. reflexivity.
  - intros [row H]. unfold statementRow in H.
    step H as transaction_id H1. step H as datetime H2. step H as timestamp H3.
    step H as description H4. step H as amount H5. step H as balance H6.
    step H as reference_no H7. step H as op_type_id H8. step H as status H9.
    step H as created_at H10.
    unfold StatementTransaction.new in H. step H as a Ea. step H as b Eb.
    exists amount, balance. split; [exact H5 |]. split; [exact H6 |].
    split; apply statement_numberOrNull_prints; eexists; eassumption.
Qed.

Lemma outstandingRow_buildable (tx : Value) :
  buildableRow tx <-> exists row, outstandingRow tx = inr row.
Proof.
  split.
  - intros (amount & balance & Ha & Hb & Hpa & Hpb).
    destruct (getProperty_inr tx _ _ Ha) as [Hnn ->].
    destruct (getProperty_inr tx _ _ Hb) as [_ ->].
    destruct (proj1 (outstanding_numberOrNull_prints _) Hpa) as [a Ea].
    destruct (proj1 (outstanding_numberOrNull_prints _) Hpb) as [b Eb].
    unfold outstandingRow.
    repeat (rewrite (getProperty_read tx _ Hnn), bind_ret).
    unfold OutstandingTransaction.new. rewrite Ea, bind_ret, Eb, bind_ret.
    eexists. reflexivity.
  - intros [row H]. unfold outstandingRow in H.
    step H as transaction_id H1. step H as datetime H2. step H as timestamp H3.
    step H as description H4. step H as amount H5. step H as balance H6.
    step H as reference_no H7. step H as op_type_id H8. step H as status H9.
    step H as created_at H10.
    unfold OutstandingTransaction.new in H. step H as a Ea. step H as b Eb.
    exists amount, balance. split; [exact H5 |]. split; [exact H6 |].
    split; apply outstanding_numberOrNull_prints; eexists; eassumption.
Qed.

Lemma mapM_total {A B} (f : A -> M B) (l : list A) :
  Forall (fun a => exists b, f a = inr b) l <-> exists bs, mapM f l = inr bs.
Proof.
  split.
  - induction 1 as [|a l [b Hb] _ [bs Hbs]]; simpl.
    + eexists. reflexivity.
    + rewrite Hb, bind_ret, Hbs, bind_ret. eexists. reflexivity.
  - intros [bs H]. apply Forall_forall. intros a Hin.
    exact (mapM_inr_In f l bs a H Hin).
Qed.

Lemma rows_buildable {R} (row : Value -> M R) (v : Value) :
  (forall tx, buildableRow tx <-> exists r, row tx = inr r) ->
  buildableRows v
  <-> exists built,
        match v with
        | VArray rows => mapM row rows
        | _ => ret []
        end = inr built.
Proof.
  intros Hrow. unfold buildableRows.
  destruct v; try (split; [intros _; eexists; reflexivity | intros _; exact I]).
  rewrite <- mapM_total. split; apply Forall_impl; intros tx; apply Hrow.
Qed.

End BuildingRows.

Ltac solve_In := repeat first [left; reflexivity | right].

Ltac build_record Hprint :=
  repeat match goal with
         | |- context [bind (parseFloat ?v) _] =>
             let x := fresh "x" in
             let Hx := fresh "Hx" in
             destruct (parseFloat_prints v) as [x Hx];
             [apply Hprint; solve_In | rewrite Hx, bind_ret]
         | |- context [bind (newDate ?v) _] =>
             let d := fresh "d" in
             let Hd := fresh "Hd" in
             destruct (newDate_prints v) as [d Hd];
             [apply Hprint; solve_In | rewrite Hd, bind_ret]
         end.

(** X18.  When an operation returns.  An operation returns a record
    exactly when its request is sent and answered with a result, the [data]
    of the response can be read, the signed fields can be read from it and
    are verified, and, for the two operations with rows, every element of
    the rows array has an [amount] and a [balance] that can be read and
    converted to a string.  Nothing else is needed: once the verifier has
    accepted the signed fields, building the record from them cannot fail,
    because every one of them has already been converted to a string. *)
Theorem operation_returns_iff this env call :
  (exists record, perform this env call = inr record)
  <-> exists parameters result data fields,
        parametersOf env call = inr parameters
        /\ sendRequest this env (endpointOf call) parameters = inr result
        /\ getProperty (response result) "data" = inr data
        /\ pick data (signedResponseFields call) = inr fields
        /\ verifyResponse this (headers result) fields = inr tt
        /\ (forall key rowsValue,
               rowsKey call = Some key ->
               getProperty data key = inr rowsValue ->
               buildableRows rowsValue).
Proof.
  split.
  - intros [record H].
    destruct (perform_inr this env call record H)
      as (parameters & result & data & fields & Hp & Hsend & Hdata & Hfields & Hverify).
    exists parameters, result, data, fields.
    repeat (split; [assumption |]).
    intros key rowsValue Hkey Hrows.
    destruct call; try discriminate Hkey;
      cbv [rowsKey] in Hkey; injection Hkey as Hkey; subst key;
      cbv [parametersOf endpointOf] in Hp, Hsend;
      apply inr_injective in Hp; subst parameters;
      unfold perform in H; step H as r Hop; clear H;
      revert Hop; unfold_operation; cbv zeta; intros Hop;
      rewrite Hsend, bind_ret, Hdata, bind_ret in Hop;
      cbv [signedResponseFields] in Hfields;
      rewrite Hfields, bind_ret, Hverify, bind_ret, Hrows, bind_ret in Hop;
      step Hop as built Hbuilt.
    + apply (rows_buildable statementRow rowsValue statementRow_buildable).
      exists built. exact Hbuilt.
    + apply (rows_buildable outstandingRow rowsValue outstandingRow_buildable).
      exists built. exact Hbuilt.
  - intros (parameters & result & data & fields & Hp & Hsend & Hdata & Hfields
            & Hverify & Hrows).
    assert (Hprint : forall k, In k (signedResponseFields call) -> prints (read data k)).
    { intros k Hin. destruct call; cbv [signedResponseFields] in Hin, Hfields;
        revert Hin Hfields; unfold_field_lists; intros Hin Hfields;
        (eapply verified_data_prints; [exact Hfields | exact Hverify | exact Hin |]);
        simpl in Hin;
        repeat (destruct Hin as [<-|Hin]; [discriminate |]); contradiction. }
    assert (Hnn : isNullish data = false).
    { destruct call; cbv [signedResponseFields] in Hfields;
        revert Hfields; unfold_field_lists; apply pick_nonnullish. }
    assert (Hbuilt : forall key, rowsKey call = Some key -> buildableRows (read data key)).
    { intros key Hkey. apply (Hrows key _ Hkey). apply getProperty_read. exact Hnn. }
    destruct call; cbv [endpointOf parametersOf signedResponseFields rowsKey]
                     in Hp, Hsend, Hfields, Hprint, Hbuilt;
      try (step Hp as s Hs);
      apply inr_injective in Hp; subst parameters;
      unfold perform; unfold_operation; cbv zeta;
      try rewrite Hs; rewrite ?bind_ret; rewrite Hsend, bind_ret, Hdata, bind_ret,
        Hfields, bind_ret, Hverify, bind_ret;
      repeat (rewrite (getProperty_read data _ Hnn), bind_ret);
      revert Hprint; unfold_field_lists; intros Hprint.
    + unfold Balance.new. build_record Hprint. eexists. reflexivity.
    + unfold PaymentRequest.new. build_record Hprint. eexists. reflexivity.
    + unfold PaymentStatus.new. build_record Hprint. eexists. reflexivity.
    + unfold SendMoneyResult.new. build_record Hprint. eexists. reflexivity.
    + destruct (proj1 (rows_buildable statementRow _ statementRow_buildable)
                  (Hbuilt _ eq_refl)) as [built Hb].
      rewrite Hb, bind_ret.
      repeat (rewrite (getProperty_read data _ Hnn), bind_ret).
      unfold Statement.new. build_record Hprint. eexists. reflexivity.
    + unfold WalletCheck.new. build_record Hprint. eexists. reflexivity.
    + destruct (proj1 (rows_buildable outstandingRow _ outstandingRow_buildable)
                  (Hbuilt _ eq_refl)) as [built Hb].
      rewrite Hb, bind_ret.
      repeat (rewrite (getProperty_read data _ Hnn), bind_ret).
      unfold OutstandingTransactions.new. build_record Hprint. eexists. reflexivity.
Qed.

Lemma operation_returns_iff_witness :
  exists record,
    perform demoClient (statementReply (VArray [statementRowOf (VString "49.90")]))
            (GetStatement (VString "2025-06-22")) = inr record.
Proof.
  set (env := statementReply (VArray [statementRowOf (VString "49.90")])).
  destruct (sendRequest demoClient env "/info/statement"
              (literal [ ("date", VString "2025-06-22");
                         ("request_timestamp", timestamp env) ])) as [e|result] eqn:E.
  - exfalso. vm_compute in E. discriminate E.
  - assert (Hres : response result
                   = VObject [ ("data",
                                VObject (statementSummary
                                           ++ [("day_statement",
                                                VArray [statementRowOf (VString "49.90")])])) ]
                   /\ headers result
                      = collected [ ("x-signature-salt", "S");
                                    ("x-signature-hash", statementSignature) ]).
    { vm_compute in E. apply inr_injective in E. rewrite <- E. split; reflexivity. }
    destruct Hres as [Hr Hh].
    apply (proj2 (operation_returns_iff demoClient env (GetStatement (VString "2025-06-22")))).
    exists (literal [ ("date", VString "2025-06-22");
                      ("request_timestamp", timestamp env) ]),
      result,
      (VObject (statementSummary
                  ++ [("day_statement", VArray [statementRowOf (VString "49.90")])])),
      (literal statementSummary).
    split; [reflexivity |]. split; [exact E |].
    split; [rewrite Hr; reflexivity |]. split; [reflexivity |].
    split.
    + rewrite Hh.
      destruct (verifyResponse demoClient
                  (collected [ ("x-signature-salt", "S");
                               ("x-signature-hash", statementSignature) ])
                  (literal statementSummary)) as [e|[]] eqn:V.
      * exfalso. vm_compute in V. discriminate V.
      * reflexivity.
    + intros key rowsValue Hkey Hrows.
      injection Hkey as Hkey. subst key.
      apply inr_injective in Hrows. subst rowsValue.
      constructor; [| constructor].
      exists (VString "49.90"), VUndefined.
      repeat split; eexists; reflexivity.
Defined.

Section Status.

Variable this : Client.

Lemma sendRequest_withStatus (c : Z) (env : Env) endpoint parameters :
  sendRequest this (withStatus c env) endpoint parameters
  = (result <- sendRequest this env endpoint parameters ;;
     ret {| response := response result; headers := headers result; code := c |}).
Proof.
  unfold sendRequest.
  rewrite (signedRequest_same_rng this env (withStatus c env) endpoint parameters eq_refl).
  destruct (signedRequest this env endpoint parameters) as [e|request]; [reflexivity |].
  rewrite !bind_ret. cbn [network withStatus].
  destruct (network env request) as [e|reply]; [reflexivity |].
  rewrite !bind_ret. cbv zeta. cbn [json replyHeaders status].
  destruct (json reply) as [e|body]; [reflexivity |].
  rewrite !bind_ret.
  destruct (negb (ToBoolean body)); [reflexivity |].
  destruct (getProperty body "error") as [e|error]; [reflexivity |].
  rewrite !bind_ret.
  destruct (ToBoolean error); [| reflexivity].
  destruct (getProperty error "message") as [e|message]; [reflexivity |].
  rewrite !bind_ret.
  destruct (getProperty error "code") as [e|code0]; [reflexivity |].
  rewrite !bind_ret.
  destruct (ToString (or code0 (VString "UNKNOWN_CODE"))) as [e|cs]; [reflexivity |].
  rewrite !bind_ret.
  destruct (ToString (or message (VString "Unknown error"))) as [e|ms]; reflexivity.
Qed.

End Status.

(** X19.  The HTTP status of the reply is recorded in the result of
    [sendRequest] and read by nothing: with any status put on the replies
    of the host, [sendRequest] raises the same error or returns the same
    response and headers, and each of the seven operations has the same
    outcome.  A reply with an error status is handled as any other. *)
Theorem status_is_never_read this env (c : Z) :
  (forall endpoint parameters,
      sendRequest this (withStatus c env) endpoint parameters
      = (result <- sendRequest this env endpoint parameters ;;
         ret {| response := response result; headers := headers result; code := c |}))
  /\ (forall call, perform this (withStatus c env) call = perform this env call).
Proof.
  split; [apply sendRequest_withStatus |].
  intros call.
  destruct call; unfold perform; unfold_operation; cbv zeta;
    change (timestamp (withStatus c env)) with (timestamp env);
    try match goal with
        | |- context [toStringMethod ?a] => destruct (toStringMethod a); [reflexivity |]
        end;
    rewrite ?bind_ret; rewrite sendRequest_withStatus;
    match goal with
    | |- context [sendRequest this env ?e ?p] =>
        destruct (sendRequest this env e p) as [err|result]; [reflexivity |]
    end;
    rewrite !bind_ret; reflexivity.
Qed.

(* ===================================================================== *)
(** ** The headers of a response, from the server to the verifier        *)
(* ===================================================================== *)

Section FetchHeaders.

Lemma lowerUnit_idem (c : ascii) : lowerUnit (lowerUnit c) = lowerUnit c.
Proof. destruct c as [[] [] [] [] [] [] [] []]; reflexivity. Qed.

Lemma lowercase_idem (s : string) : lowercase (lowercase s) = lowercase s.
Proof.
  induction s as [|c s IH]; simpl; [reflexivity |].
  rewrite lowerUnit_idem, IH. reflexivity.
Qed.

Lemma lastValue_absent (k : string) (l : list (string * string)) :
  ~ In k (map fst l) -> lastValue k l = None.
Proof.
  induction l as [|[k' v] l IH]; simpl; intros H; [reflexivity |].
  rewrite IH by tauto.
  destruct (String.eqb_spec k k') as [->|_]; [| reflexivity].
  exfalso. apply H. left. reflexivity.
Qed.

Lemma lastValue_app (k : string) (l1 l2 : list (string * string)) :
  lastValue k (l1 ++ l2)
  = match lastValue k l2 with
    | Some v => Some v
    | None => lastValue k l1
    end.
Proof.
  induction l1 as [|[k' v] l1 IH]; simpl.
  - destruct (lastValue k l2); reflexivity.
  - rewrite IH. destruct (lastValue k l2); reflexivity.
Qed.

Lemma visited_keys (raw : list (string * string)) (name k : string) :
  In k (map fst (visited raw name)) -> k = name.
Proof.
  unfold visited. destruct (String.eqb name "set-cookie").
  - rewrite map_map. simpl. intros H. apply in_map_iff in H.
    destruct H as [v [E _]]. symmetry. exact E.
  - simpl. intros [E|[]]. symmetry. exact E.
Qed.

Lemma lastValue_flat_map (raw : list (string * string)) (k : string) (names : list string) :
  NoDup names ->
  lastValue k (flat_map (visited raw) names)
  = if in_dec String.string_dec k names then lastValue k (visited raw k) else None.
Proof.
  induction names as [|n names IH]; intros Hnd; [reflexivity |].
  inversion Hnd as [|? ? Hfresh Hnd']; subst.
  cbn [flat_map]. rewrite lastValue_app, (IH Hnd').
  destruct (in_dec String.string_dec k names) as [Hin|Hnot].
  - destruct (in_dec String.string_dec k (n :: names)) as [_|Hn];
      [| exfalso; apply Hn; right; exact Hin].
    destruct (lastValue k (visited raw k)) as [v|] eqn:E; [reflexivity |].
    apply lastValue_absent. intros H. apply visited_keys in H. subst n. contradiction.
  - destruct (in_dec String.string_dec k (n :: names)) as [[E|Hin]|Hn].
    + subst n. reflexivity.
    + contradiction.
    + apply lastValue_absent. intros H. apply visited_keys in H.
      apply Hn. left. symmetry. exact H.
Qed.

Lemma forEach_visited (raw : list (string * string)) :
  forEach raw = flat_map (visited raw) (headerNames raw).
Proof. reflexivity. Qed.

Lemma headerNames_NoDup (raw : list (string * string)) : NoDup (headerNames raw).
Proof.
  unfold headerNames.
  eapply Permutation_NoDup; [apply sort_Permutation | apply NoDup_nodup].
Qed.

Lemma headerNames_In (raw : list (string * string)) (k : string) :
  In k (headerNames raw) <-> In k (map (fun kv => lowercase (fst kv)) raw).
Proof.
  unfold headerNames. split; intros H.
  - apply (nodup_In String.string_dec).
    eapply Permutation_in; [symmetry; apply sort_Permutation | exact H].
  - eapply Permutation_in; [apply sort_Permutation |].
    apply (nodup_In String.string_dec). exact H.
Qed.

Lemma valuesOf_nil (raw : list (string * string)) (k : string) :
  valuesOf k raw = [] <-> ~ In k (map (fun kv => lowercase (fst kv)) raw).
Proof.
  unfold valuesOf. induction raw as [|[n v] raw IH]; simpl.
  - tauto.
  - destruct (String.eqb_spec (lowercase n) k) as [E|Hne]; simpl.
    + split; [discriminate | intros H; exfalso; apply H; left; exact E].
    + rewrite IH. tauto.
Qed.

(** The last value [forEach] gives under a name other than [set-cookie] is
    the combined value of the headers received under that name. *)
Lemma lastValue_forEach (raw : list (string * string)) (k : string) :
  k <> "set-cookie" ->
  lastValue k (forEach raw)
  = match valuesOf k raw with
    | [] => None
    | values => Some (String.concat ", " values)
    end.
Proof.
  intros Hk. rewrite forEach_visited, (lastValue_flat_map raw k _ (headerNames_NoDup raw)).
  destruct (in_dec String.string_dec k (headerNames raw)) as [Hin|Hnot].
  - unfold visited. destruct (String.eqb_spec k "set-cookie") as [E|_]; [contradiction |].
    simpl. rewrite String.eqb_refl.
    destruct (valuesOf k raw) eqn:E; [| reflexivity].
    exfalso. apply valuesOf_nil in E. apply E. apply headerNames_In. exact Hin.
  - assert (E : valuesOf k raw = []).
    { apply valuesOf_nil. intros H. apply Hnot. apply headerNames_In. exact H. }
    rewrite E. reflexivity.
Qed.

(** Every name in the table is in lower case. *)
Lemma forEach_lowercase (raw : list (string * string)) (k : string) :
  In k (map fst (forEach raw)) -> lowercase k = k.
Proof.
  rewrite forEach_visited. intros H. apply in_map_iff in H.
  destruct H as [[k' v] [E Hin]]. simpl in E. subst k'.
  apply in_flat_map in Hin. destruct Hin as [name [Hname Hin]].
  assert (Hk : k = name).
  { apply (visited_keys raw name k). apply in_map_iff. exists (k, v). split; [reflexivity | exact Hin]. }
  subst name. apply headerNames_In in Hname. apply in_map_iff in Hname.
  destruct Hname as [kv [E _]]. rewrite <- E. apply lowercase_idem.
Qed.

Lemma lookup_received (raw : list (string * string)) (k : string) :
  k <> "__proto__" -> k <> "set-cookie" -> lowercase k = k ->
  lookup k (collected (forEach raw)) = option_map VString (headerValue k raw).
Proof.
  intros Hproto Hcookie Hlow. unfold collected, headerValue.
  rewrite lookup_collected_from by exact Hproto.
  rewrite lastValue_forEach by exact Hcookie. rewrite Hlow.
  destruct (valuesOf k raw); reflexivity.
Qed.

Lemma lookup_received_capital (raw : list (string * string)) (k : string) :
  lowercase k <> k -> lookup k (collected (forEach raw)) = None.
Proof.
  intros Hlow. unfold collected.
  destruct (String.eqb_spec k "__proto__") as [->|Hproto].
  - exfalso. apply Hlow. reflexivity.
  - rewrite lookup_collected_from by exact Hproto.
    rewrite lastValue_absent; [reflexivity |].
    intros H. apply Hlow. apply (forEach_lowercase raw). exact H.
Qed.

End FetchHeaders.

Section ReceivedSignature.

Lemma valuesOf_lowered (raw : list (string * string)) (k : string) :
  valuesOf k (lowered raw) = valuesOf k raw.
Proof.
  unfold valuesOf, lowered. induction raw as [|[n v] raw IH]; [reflexivity |].
  cbn [map filter fst snd]. rewrite lowercase_idem.
  destruct (String.eqb (lowercase n) k); cbn [map snd]; rewrite IH; reflexivity.
Qed.

Lemma forEach_lowered (raw : list (string * string)) : forEach (lowered raw) = forEach raw.
Proof.
  assert (Hnames : map (fun kv => lowercase (fst kv)) (lowered raw)
                   = map (fun kv => lowercase (fst kv)) raw).
  { unfold lowered. rewrite map_map. apply map_ext. intros [n v]. apply lowercase_idem. }
  unfold forEach, headerNames. rewrite Hnames.
  apply flat_map_ext. intros name. unfold visited. rewrite valuesOf_lowered. reflexivity.
Qed.

(** What the verifier reads for a signature header of a response: the
    combined value received under that name in any capitalization, unless
    it is empty. *)
Lemma received_signature (raw : list (string * string)) (name capital : string) :
  name <> "__proto__" -> name <> "set-cookie" -> lowercase name = name ->
  lowercase capital <> capital ->
  or (get (collected (forEach raw)) name) (get (collected (forEach raw)) capital)
  = match headerValue name raw with
    | Some value => if String.eqb value "" then VUndefined else VString value
    | None => VUndefined
    end.
Proof.
  intros Hproto Hcookie Hlow Hcap. unfold get.
  rewrite (lookup_received raw name Hproto Hcookie Hlow).
  rewrite (lookup_received_capital raw capital Hcap).
  destruct (headerValue name raw) as [value|]; [| reflexivity].
  cbn [option_map]. unfold or. cbn [ToBoolean].
  destruct (String.eqb value ""); reflexivity.
Qed.

Lemma receivedSalt_received (raw : list (string * string)) :
  receivedSalt (collected (forEach raw))
  = match headerValue "x-signature-salt" raw with
    | Some value => if String.eqb value "" then VUndefined else VString value
    | None => VUndefined
    end.
Proof.
  unfold receivedSalt. apply received_signature;
    first [discriminate | reflexivity].
Qed.

Lemma receivedHash_received (raw : list (string * string)) :
  receivedHash (collected (forEach raw))
  = match headerValue "x-signature-hash" raw with
    | Some value => if String.eqb value "" then VUndefined else VString value
    | None => VUndefined
    end.
Proof.
  unfold receivedHash. apply received_signature;
    first [discriminate | reflexivity].
Qed.

(** The verifier, called with any table, reads it through the salt and the
    hash it finds under the two spellings. *)
Lemma verifyResponse_reads this (headers : Obj) (fields : Obj) :
  verifyResponse this headers fields
  = verifyResponse this
      (literal [ ("x-signature-salt", receivedSalt headers);
                 ("x-signature-hash", receivedHash headers) ]) fields.
Proof.
  rewrite !verifyResponse_unfold.
  generalize (receivedSalt headers) as salt. generalize (receivedHash headers) as hash.
  intros hash salt.
  assert (Hs : receivedSalt (literal [("x-signature-salt", salt); ("x-signature-hash", hash)])
               = or salt VUndefined) by reflexivity.
  assert (Hh : receivedHash (literal [("x-signature-salt", salt); ("x-signature-hash", hash)])
               = or hash VUndefined) by reflexivity.
  rewrite Hs, Hh. unfold or.
  destruct (ToBoolean hash) eqn:Eh; destruct (ToBoolean salt) eqn:Es;
    rewrite ?Eh, ?Es; reflexivity.
Qed.

End ReceivedSignature.

(** C4.  Verification extracts the salt and the hash from the headers of
    the response under the names x-signature-salt and x-signature-hash,
    matched without regard to case: whatever capitalization the server
    gave the names, [fetch] hands them over in lower case, [sendRequest]
    copies them into the table it passes on, and [verifyResponse] reads
    from that table the value received under the name (the values joined
    when the name came more than once).  Two responses whose headers
    differ only in the capitalization of names are verified alike; a
    response is accepted exactly when its salt is not empty and its hash
    is the signature of the fields under that salt.  Verification fails
    with the missing-signature error whenever the response has no header
    of one of the two names, for every choice of response fields.  (The
    verifier itself, given any table, reads the lower-case spelling and
    then the spelling X-Signature-Salt / X-Signature-Hash.) *)
Theorem C4_signature_headers this (raw : list (string * string)) (fields : Obj) :
  let table := collected (forEach raw) in
  (receivedSalt table
   = match headerValue "x-signature-salt" raw with
     | Some value => if String.eqb value "" then VUndefined else VString value
     | None => VUndefined
     end
   /\ receivedHash table
      = match headerValue "x-signature-hash" raw with
        | Some value => if String.eqb value "" then VUndefined else VString value
        | None => VUndefined
        end)
  /\ (forall raw',
         lowered raw' = lowered raw ->
         verifyResponse this (collected (forEach raw')) fields
         = verifyResponse this table fields)
  /\ ((forall kv, In kv raw -> lowercase (fst kv) <> "x-signature-salt")
      \/ (forall kv, In kv raw -> lowercase (fst kv) <> "x-signature-hash") ->
      verifyResponse this table fields = inl missingSignature)
  /\ (verifyResponse this table fields = inr tt
      <-> exists salt hash,
            headerValue "x-signature-salt" raw = Some salt
            /\ headerValue "x-signature-hash" raw = Some hash
            /\ salt <> ""
            /\ generateVerificationHash this (salt ++ password this) fields = inr hash)
  /\ (forall env endpoint parameters result,
         sendRequest this env endpoint parameters = inr result ->
         exists request reply,
           network env request = inr reply
           /\ headers result = collected (replyHeaders reply))
  /\ (forall headers,
         verifyResponse this headers fields
         = verifyResponse this
             (literal [ ("x-signature-salt", receivedSalt headers);
                        ("x-signature-hash", receivedHash headers) ]) fields).
Proof.
  cbv zeta.
  split; [split; [apply receivedSalt_received | apply receivedHash_received] |].
  split.
  { intros raw' H. rewrite <- (forEach_lowered raw'), H, forEach_lowered. reflexivity. }
  split.
  { intros H. apply verifyResponse_missing.
    change (ToBoolean (receivedHash (collected (forEach raw))) = false
            \/ ToBoolean (receivedSalt (collected (forEach raw))) = false).
    rewrite receivedSalt_received, receivedHash_received. unfold headerValue.
    destruct H as [H|H]; [right | left];
      match goal with
      | |- context [valuesOf ?n raw] =>
          replace (valuesOf n raw) with (@nil string); [reflexivity |];
          symmetry; apply valuesOf_nil; intros Hin; apply in_map_iff in Hin;
          destruct Hin as [kv [E Hkv]]; exact (H kv Hkv E)
      end. }
  split.
  { rewrite verifyResponse_unfold, receivedSalt_received, receivedHash_received. split.
    - intros H.
      destruct (headerValue "x-signature-salt" raw) as [salt|];
        [| cbn [ToBoolean negb orb] in H; rewrite orb_true_r in H; discriminate H].
      destruct (headerValue "x-signature-hash" raw) as [hash|];
        [| cbn [ToBoolean negb orb] in H; discriminate H].
      destruct (String.eqb_spec hash "") as [Eh|Hh];
        [cbn [ToBoolean negb orb] in H; discriminate H |].
      destruct (String.eqb_spec salt "") as [Es|Hs];
        [cbn [ToBoolean negb orb] in H; rewrite orb_true_r in H; discriminate H |].
      rewrite (ToBoolean_VString hash Hh), (ToBoolean_VString salt Hs) in H.
      cbn [negb orb] in H.
      step H as hashToken Htok. step H as computed Hsig.
      unfold generateHashToken in Htok. cbn [ToString] in Htok.
      rewrite bind_ret in Htok. apply inr_injective in Htok. subst hashToken.
      destruct (strictEqString computed (VString hash)) eqn:Heq; [| discriminate H].
      apply strictEqString_true in Heq. injection Heq as Heq. subst computed.
      exists salt, hash. repeat split; [exact Hs | exact Hsig].
    - intros (salt & hash & Es & Eh & Hs & Hsig). rewrite Es, Eh.
      pose proof (generateVerificationHash_nonempty _ _ _ _ Hsig) as Hh.
      destruct (String.eqb_spec hash "") as [E|_]; [contradiction |].
      destruct (String.eqb_spec salt "") as [E|_]; [contradiction |].
      rewrite (ToBoolean_VString hash Hh), (ToBoolean_VString salt Hs).
      cbn [negb orb]. unfold generateHashToken. cbn [ToString].
      rewrite !bind_ret, Hsig, bind_ret.
      rewrite (proj2 (strictEqString_true hash (VString hash)) eq_refl). reflexivity. }
  split.
  { intros env endpoint parameters result H. apply sendRequest_inr in H.
    destruct H as (request & reply & body & error & _ & Hnet & _ & _ & _ & _ & ->).
    exists request, reply. split; [exact Hnet | reflexivity]. }
  intros given. exact (verifyResponse_reads this given fields).
Qed.

Lemma C4_signature_headers_witness :
  verifyResponse demoClient
    (collected (forEach [ ("X-SIGNATURE-SALT", "S");
                          ("Content-Type", "application/json");
                          ("X-Signature-HASH",
                           "RHZM6/DpI3BmAVe77XPFMZYu93EseFGR20wV+mlxPWI=") ]))
    demoParameters = inr tt
  /\ verifyResponse demoClient
       (collected (forEach [ ("X-Signature-Salt", "S");
                             ("Content-Type", "application/json") ]))
       demoParameters = inl missingSignature.
Proof.
  split.
  - apply (proj1 (proj2 (proj2 (proj2 (C4_signature_headers demoClient _ demoParameters))))).
    exists "S", "RHZM6/DpI3BmAVe77XPFMZYu93EseFGR20wV+mlxPWI=".
    split; [reflexivity |]. split; [reflexivity |]. split; [discriminate |].
    exact signature_of_the_scenario.
  - apply (proj1 (proj2 (proj2 (C4_signature_headers demoClient _ demoParameters)))).
    right. intros kv Hin. simpl in Hin.
    destruct Hin as [<-|[<-|[]]]; vm_compute; discriminate.
Defined.

(** C5, as the specification states it, fails: unverified data reaches the
    caller in the rows.  Two statement responses with the same signature
    headers and the same signed fields, which differ in a row, are both
    verified, and each row is returned as it came. *)
Lemma C5_counterexample :
  let date := VString "2025-06-22" in
  let first := statementReply (VArray [statementRowOf (VString "49.90")]) in
  let second := statementReply (VArray [statementRowOf VNull]) in
  match getStatement demoClient first date, getStatement demoClient second date with
  | inr r1, inr r2 =>
      map StatementTransaction.amount (Statement.dayStatement r1) = [Some fortyNinePointNine]
      /\ map StatementTransaction.amount (Statement.dayStatement r2) = [None]
      /\ r1 <> r2
  | _, _ => False
  end.
Proof.
  vm_compute. split; [reflexivity |]. split; [reflexivity |]. discriminate.
Qed.

(** C5, amended.  A result record of any of the seven operations is built
    only after [verifyResponse] has succeeded on the signed fields of the
    response: the record returned is the one built from the very fields the
    verifier accepted and, for a statement and for the outstanding
    transactions, from the rows property of the data, which is not among
    the signed fields.  When verification fails (a mismatch, or missing
    signature headers) the operation ends with that error and returns no
    record. *)
Theorem C5_record_only_after_verification this env call :
  (forall record,
      perform this env call = inr record ->
      exists parameters result data fields,
        parametersOf env call = inr parameters
        /\ sendRequest this env (endpointOf call) parameters = inr result
        /\ getProperty (response result) "data" = inr data
        /\ pick data (signedResponseFields call) = inr fields
        /\ verifyResponse this (headers result) fields = inr tt
        /\ recordOf call fields (rowsOf call data) = inr record)
  /\ (forall parameters result data fields e,
         parametersOf env call = inr parameters ->
         sendRequest this env (endpointOf call) parameters = inr result ->
         getProperty (response result) "data" = inr data ->
         pick data (signedResponseFields call) = inr fields ->
         verifyResponse this (headers result) fields = inl e ->
         perform this env call = inl e).
Proof.
  split; [| intros parameters result data fields e; apply perform_verify_error].
  intros record H.
  destruct (perform_inr this env call record H)
    as (parameters & result & data & fields & Hp & Hsend & Hdata & Hfields & Hverify).
  exists parameters, result, data, fields.
  repeat (split; [assumption |]).
  assert (Hnn : isNullish data = false).
  { destruct call; cbv [signedResponseFields] in Hfields;
      revert Hfields; unfold_field_lists; apply pick_nonnullish. }
  pose proof Hfields as Hpicked.
  rewrite (pick_read data _ Hnn) in Hpicked. apply inr_injective in Hpicked.
  destruct call; cbv [parametersOf endpointOf] in Hp, Hsend;
    try (step Hp as s Hs);
    apply inr_injective in Hp; subst parameters;
    unfold perform in H; step H as r Hop; apply inr_injective in H; subst record;
    revert Hop; unfold_operation; cbv zeta; intros Hop;
    try rewrite Hs in Hop; rewrite ?bind_ret in Hop;
    rewrite Hsend, bind_ret, Hdata, bind_ret in Hop;
    cbv [signedResponseFields] in Hfields, Hpicked;
    rewrite Hfields, bind_ret, Hverify, bind_ret in Hop;
    repeat (rewrite (getProperty_read data _ Hnn), bind_ret in Hop);
    cbv [recordOf rowsOf rowsKey]; cbv zeta; subst fields;
    try (step Hop as built Hbuilt; rewrite Hbuilt, bind_ret;
         repeat (rewrite (getProperty_read data _ Hnn), bind_ret in Hop));
    revert Hop; unfold_field_lists; intros Hop;
    rewrite !get_literal_read by solve_In;
    rewrite Hop; reflexivity.
Qed.

Lemma C5_record_only_after_verification_witness :
  exists record result data fields,
    perform demoClient balanceReply GetBalance = inr record
    /\ getProperty (response result) "data" = inr data
    /\ pick data balanceFields = inr fields
    /\ verifyResponse demoClient (headers result) fields = inr tt
    /\ recordOf GetBalance fields VUndefined = inr record.
Proof.
  destruct (perform demoClient balanceReply GetBalance) as [e|record] eqn:E.
  - exfalso. vm_compute in E. discriminate E.
  - destruct (proj1 (C5_record_only_after_verification demoClient balanceReply GetBalance)
                _ E) as (parameters & result & data & fields & _ & _ & Hd & Hf & Hv & Hr).
    exists record, result, data, fields. repeat split; assumption.
Defined.

(** A balance response whose signature headers the server wrote in capital
    letters, from the reply to the record. *)
Example getBalance_with_capitalized_headers :
  let body := VObject [ ("data", VObject [ ("balance", VNumber (Num.ofZ 100));
                                           ("response_timestamp",
                                            VNumber (Num.ofZ 1700000000000)) ]) ] in
  let raw := [ ("X-SIGNATURE-SALT", "S");
               ("Content-Type", "application/json");
               ("X-Signature-HASH", "RHZM6/DpI3BmAVe77XPFMZYu93EseFGR20wV+mlxPWI=") ] in
  let env := {| rng := rng offline;
                now := now offline;
                network := fun _ => ret (received (ret body) raw 200) |} in
  getBalance demoClient env
  = inr {| Balance.balance := Num.ofZ 100;
           Balance.responseTime := NewDate (Num.ofZ 1700000000000) |}.
Proof. vm_compute. reflexivity. Qed.
